(** * axeevents: phone verification, background jobs and RSVP rules

    A shallow embedding of the business logic of the axeevents Django
    application ([events/models.py], [events/auth.py], [events/tasks.py],
    [events/views.py]) and the properties its specification states about it.

    Conventions of the embedding.
    - A database table is a finite map from its key to its row.  [User] rows
      are keyed by [phone_number] (declared [unique=True]); a foreign key to a
      [User] is that phone number.  [Event] rows are keyed by their primary
      key, [RSVP] rows by the pair (user, event) ([unique_together]) and
      [RSVPAnswer] rows by (rsvp, question) ([unique_together]).
    - A [datetime] is a number of microseconds since the epoch (the resolution
      of Python's [datetime]); [timezone.now()] is an argument of the
      operation that reads the clock.
    - What the outside world decides (the SMS gateway's reply, random numbers,
      the image library, the file system, the phone-number parser) is an
      argument of the operation that consults it.
    - A Python [str] is a Rocq [string]; a character is a code point below
      256. *)

From stdpp Require Import gmap strings list fin_maps pretty sorting.
From Stdlib Require Import ZArith Ascii.

Local Open Scope Z_scope.

(** ** Time *)

Definition datetime : Type := Z.

(** [timedelta(hours=h, minutes=m)], in microseconds. *)
Definition timedelta (hours minutes : Z) : Z :=
  (hours * 60 + minutes) * 60 * 1000000.

Definition seconds (s : Z) : Z := s * 1000000.

(** ** Python string helpers *)

Module Py.

(** [str.isspace] on one character: the white space of Unicode below 256. *)
Definition is_space (c : ascii) : bool :=
  let n := nat_of_ascii c in
  ((9 <=? n) && (n <=? 13) || (28 <=? n) && (n <=? 32)
   || (n =? 133) || (n =? 160))%nat.

Fixpoint lstrip (s : string) : string :=
  match s with
  | EmptyString => EmptyString
  | String c rest => if is_space c then lstrip rest else s
  end.

Definition rstrip (s : string) : string :=
  String.rev (lstrip (String.rev s)).

(** [s.strip()] *)
Definition strip (s : string) : string := rstrip (lstrip s).

(** Truthiness of a [str]: the empty string is falsy. *)
Definition truthy (s : string) : bool :=
  match s with EmptyString => false | _ => true end.

(** [s.zfill(width)] for a string of digits (no sign to step over). *)
Definition zfill (width : nat) (s : string) : string :=
  String.string_of_list_ascii (replicate (width - String.length s) "0"%char) +:+ s.

(** [str(n)] for a non-negative integer. *)
Definition str (n : N) : string := pretty n.

(** A character among "0" ... "9". *)
Definition is_decimal (c : ascii) : bool :=
  let n := nat_of_ascii c in ((48 <=? n) && (n <=? 57))%nat.

(** Every character of the string is a decimal digit. *)
Fixpoint all_decimal (s : string) : bool :=
  match s with
  | EmptyString => true
  | String c rest => is_decimal c && all_decimal rest
  end.

End Py.

(** ** [events/models.py] *)

Module Models.

Record User := mkUser {
  phone_number : string;
  name : string;
  verification_code : string;
  verification_code_sent_at : option datetime;
  is_verified : bool
}.

(** The row [User.objects.get_or_create(phone_number=...)] creates: every
    other field at its default. *)
Definition new_user (phone : string) : User :=
  {| phone_number := phone; name := ""; verification_code := "";
     verification_code_sent_at := None; is_verified := false |}.

(** [secrets.randbelow(n)]: a uniform draw below [n], read off an entropy
    source. *)
Definition randbelow (n entropy : N) : N := (entropy mod n)%N.

(** [User.generate_verification_code]: returns the saved row and the code. *)
Definition generate_verification_code (now : datetime) (entropy : N) (u : User)
  : User * string :=
  let code := Py.zfill 6 (Py.str (randbelow 1000000 entropy)) in
  ({| phone_number := phone_number u; name := name u;
      verification_code := code;
      verification_code_sent_at := Some now;
      is_verified := is_verified u |}, code).

(** [User.is_verification_code_expired] *)
Definition is_verification_code_expired (now : datetime) (u : User) : bool :=
  match verification_code_sent_at u with
  | None => true
  | Some sent_at =>
      let expiry_time := sent_at + timedelta 0 5 in
      bool_decide (expiry_time < now)
  end.

(** [User.can_resend_code] *)
Definition can_resend_code (now : datetime) (u : User) : bool :=
  match verification_code_sent_at u with
  | None => true
  | Some sent_at =>
      let cooldown_time := sent_at + timedelta 0 1 in
      bool_decide (cooldown_time < now)
  end.

Record Event := mkEvent {
  title : string;
  location : string;
  event_state_date : datetime;
  cover_photo_processing_status : string;
  cover_photo_avif_url : string;
  cover_photo_webp_url : string;
  created_by : string;
  organizers : gset string;
  short_code : string;
  max_attendees : option N;
  is_active : bool;
  allow_rsvp : bool;
  allow_maybe_rsvp : bool;
  reminder_24h_sent : bool;
  reminder_1h_sent : bool;
  auto_reminders_enabled : bool
}.

(** Assignments to the attributes of an [Event] instance. *)
Definition set_processing_status (v : string) (e : Event) : Event :=
  mkEvent (title e) (location e) (event_state_date e) v
    (cover_photo_avif_url e) (cover_photo_webp_url e) (created_by e)
    (organizers e) (short_code e) (max_attendees e) (is_active e)
    (allow_rsvp e) (allow_maybe_rsvp e) (reminder_24h_sent e)
    (reminder_1h_sent e) (auto_reminders_enabled e).

Definition set_derivative_urls (avif webp : string) (e : Event) : Event :=
  mkEvent (title e) (location e) (event_state_date e)
    (cover_photo_processing_status e) avif webp (created_by e)
    (organizers e) (short_code e) (max_attendees e) (is_active e)
    (allow_rsvp e) (allow_maybe_rsvp e) (reminder_24h_sent e)
    (reminder_1h_sent e) (auto_reminders_enabled e).

Definition set_reminder_24h_sent (v : bool) (e : Event) : Event :=
  mkEvent (title e) (location e) (event_state_date e)
    (cover_photo_processing_status e) (cover_photo_avif_url e)
    (cover_photo_webp_url e) (created_by e) (organizers e) (short_code e)
    (max_attendees e) (is_active e) (allow_rsvp e) (allow_maybe_rsvp e)
    v (reminder_1h_sent e) (auto_reminders_enabled e).

Definition set_reminder_1h_sent (v : bool) (e : Event) : Event :=
  mkEvent (title e) (location e) (event_state_date e)
    (cover_photo_processing_status e) (cover_photo_avif_url e)
    (cover_photo_webp_url e) (created_by e) (organizers e) (short_code e)
    (max_attendees e) (is_active e) (allow_rsvp e) (allow_maybe_rsvp e)
    (reminder_24h_sent e) v (auto_reminders_enabled e).

Definition set_organizers (v : gset string) (e : Event) : Event :=
  mkEvent (title e) (location e) (event_state_date e)
    (cover_photo_processing_status e) (cover_photo_avif_url e)
    (cover_photo_webp_url e) (created_by e) v (short_code e)
    (max_attendees e) (is_active e) (allow_rsvp e) (allow_maybe_rsvp e)
    (reminder_24h_sent e) (reminder_1h_sent e) (auto_reminders_enabled e).

(** A row of [EventQuestion]; its primary key is the key of the table. *)
Record EventQuestion := mkQuestion {
  question_event : N;
  question_text : string;
  is_required : bool;
  order : N
}.

(** The tables.  An [RSVP] row is its status; an [RSVPAnswer] row is its
    answer text. *)
Record DB := mkDB {
  users : gmap string User;
  events : gmap N Event;
  questions : gmap N EventQuestion;
  rsvps : gmap (string * N) string;
  answers : gmap (string * N * N) string
}.

Definition with_users (v : gmap string User) (db : DB) : DB :=
  mkDB v (events db) (questions db) (rsvps db) (answers db).

Definition with_events (v : gmap N Event) (db : DB) : DB :=
  mkDB (users db) v (questions db) (rsvps db) (answers db).

Definition with_rsvps (v : gmap (string * N) string) (db : DB) : DB :=
  mkDB (users db) (events db) (questions db) v (answers db).

Definition with_answers (v : gmap (string * N * N) string) (db : DB) : DB :=
  mkDB (users db) (events db) (questions db) (rsvps db) v.

(** [RSVP.objects.filter(event=event, status=status)]: the users holding
    such an RSVP. *)
Definition rsvps_with_status (db : DB) (event : N) (status : string)
  : list string :=
  (map_to_list
     (filter (λ kv : string * N * string, kv.1.2 = event ∧ kv.2 = status)
             (rsvps db))).*1.*1.

(** [Event.attendee_count], on an instance that carries no
    [_attendee_count_cache] (one fetched by [get] or [get_object_or_404]). *)
Definition attendee_count (db : DB) (event : N) : N :=
  N.of_nat (length (rsvps_with_status db event "attending")).

(** [Event.is_full]: [if self.max_attendees] is false for [None] and for 0. *)
Definition is_full (db : DB) (id : N) (e : Event) : bool :=
  match max_attendees e with
  | Some n =>
      if bool_decide (n = 0%N) then false
      else bool_decide (n ≤ attendee_count db id)%N
  | None => false
  end.

(** [Event.is_organizer] *)
Definition is_organizer (e : Event) (user : string) : bool :=
  bool_decide (created_by e = user) || bool_decide (user ∈ organizers e).

(** [Event.can_invite_organizer] *)
Definition can_invite_organizer (e : Event) : bool :=
  bool_decide (size (organizers e) < 5)%nat.

(** [Event.get_short_url] *)
Definition get_short_url (site_domain : string) (e : Event) : string :=
  "http://" +:+ site_domain +:+ "/e/" +:+ short_code e.

(** [event.questions.order_by("order", "id")]: the questions of the event
    with their ids. *)
Definition question_le (q1 q2 : N * EventQuestion) : Prop :=
  (order q1.2 < order q2.2 ∨ (order q1.2 = order q2.2 ∧ q1.1 ≤ q2.1))%N.

#[export] Instance question_le_dec q1 q2 : Decision (question_le q1 q2).
Proof. unfold question_le. apply _. Defined.

Definition event_questions (db : DB) (event : N) : list (N * EventQuestion) :=
  merge_sort question_le
    (filter (λ kv : N * EventQuestion, question_event kv.2 = event)
            (map_to_list (questions db))).

(** The users [Event.is_organizer] accepts: the creator and the
    co-organizers. *)
Definition all_organizers (e : Event) : gset string :=
  {[created_by e]} ∪ organizers e.

(** [User.get_resend_cooldown_seconds].  [total_seconds()] is the number of
    microseconds left divided by 10^6, as a float, and [int] truncates it
    toward zero; the float has the integer part of the exact quotient
    whenever the two times are less than 2^53 microseconds (285 years)
    apart. *)
Definition get_resend_cooldown_seconds (now : datetime) (u : User) : Z :=
  match verification_code_sent_at u with
  | None => 0
  | Some sent_at =>
      let cooldown_time := sent_at + timedelta 0 1 in
      let remaining := cooldown_time - now in
      Z.max 0 (Z.quot remaining 1000000)
  end.

Definition with_questions (v : gmap N EventQuestion) (db : DB) : DB :=
  mkDB (users db) (events db) v (rsvps db) (answers db).

End Models.

(** ** [events/auth.py] *)

Module Auth.
Import Models.

(** The part of [django.conf.settings] that [AuthService] reads. *)
Record Settings := mkSettings {
  AWS_ACCESS_KEY_ID : string;
  AWS_SECRET_ACCESS_KEY : string;
  AWS_SMS_POOL_ID : string;
  AWS_SMS_ORIGINATION_NUMBER : string
}.

(** What [client.send_text_message] does: answer with a message id, or
    raise. *)
Inductive GatewayReply :=
| MessageId (id : string)
| ClientError (e : string)
| OtherException (e : string).

(** The gateway, as a function of destination, origination identity and
    body. *)
Definition Gateway : Type := string → string → string → GatewayReply.

Definition has_credentials (cfg : Settings) : bool :=
  Py.truthy (AWS_ACCESS_KEY_ID cfg) && Py.truthy (AWS_SECRET_ACCESS_KEY cfg).

(** [self.origination_number or self.pool_id] *)
Definition origination_identity (cfg : Settings) : string :=
  if Py.truthy (AWS_SMS_ORIGINATION_NUMBER cfg)
  then AWS_SMS_ORIGINATION_NUMBER cfg else AWS_SMS_POOL_ID cfg.

(** The body shared by [send_verification_code] and [send_event_update]
    once the message is built. *)
Definition deliver (cfg : Settings) (gw : Gateway) (phone body : string)
  : bool * string :=
  if has_credentials cfg then
    match gw phone (origination_identity cfg) body with
    | MessageId id => (true, id)
    | ClientError e => (false, e)
    | OtherException e => (false, e)
    end
  else (true, "debug").

(** [AuthService.send_verification_code].  [user.save()] writes the row
    under the phone number it was fetched (or created) with. *)
Definition send_verification_code (cfg : Settings) (gw : Gateway)
    (now : datetime) (entropy : N)
    (users : gmap string User) (phone : string)
  : gmap string User * (bool * string) :=
  let user := default (new_user phone) (users !! phone) in
  let '(user, code) := generate_verification_code now entropy user in
  let users := <[phone := user]> users in
  let message_body := "Your verification code is " +:+ code +:+ "." in
  (users, deliver cfg gw phone message_body).

(** The code [send_verification_code] puts in the message. *)
Definition issued_code (entropy : N) : string :=
  Py.zfill 6 (Py.str (randbelow 1000000 entropy)).

(** [AuthService.verify_code]: the table afterwards and the returned
    triple. *)
Definition verify_code (now : datetime) (users : gmap string User)
    (phone code : string)
  : gmap string User * (bool * option User * option string) :=
  match users !! phone with
  | Some user =>
      if is_verification_code_expired now user then
        (users, (false, None, Some "expired"))
      else if bool_decide (verification_code user = code) then
        let user := {| phone_number := phone_number user; name := name user;
                       verification_code := "";
                       verification_code_sent_at := None;
                       is_verified := true |} in
        (<[phone := user]> users, (true, Some user, None))
      else (users, (false, None, Some "invalid"))
  | None => (users, (false, None, Some "not_found"))
  end.

(** [AuthService.send_event_update] *)
Definition send_event_update (cfg : Settings) (gw : Gateway)
    (phone message : string) : bool * string :=
  deliver cfg gw phone message.

(** [PhoneNumberField] stores a number, and looks it up, by its database
    value ([get_prep_value]: the E.164 form of a valid number, whatever way
    it was written).  The tables are keyed by these values, and
    [send_verification_code] and [verify_code] above are the service on an
    argument that is its own database value.  On any argument the service
    reaches the row of the argument's database value, and hands the argument
    as it is ([str(phone_number)]) to the gateway; the field's function is an
    argument here. *)
Definition send_verification_code_raw (get_prep_value : string → string)
    (cfg : Settings) (gw : Gateway) (now : datetime) (entropy : N)
    (users : gmap string User) (phone_number : string)
  : gmap string User * (bool * string) :=
  let key := get_prep_value phone_number in
  let user := default (new_user key) (users !! key) in
  let '(user, code) := generate_verification_code now entropy user in
  let users := <[key := user]> users in
  let message_body := "Your verification code is " +:+ code +:+ "." in
  (users, deliver cfg gw phone_number message_body).

Definition verify_code_raw (get_prep_value : string → string)
    (now : datetime) (users : gmap string User) (phone_number code : string)
  : gmap string User * (bool * option User * option string) :=
  verify_code now users (get_prep_value phone_number) code.

End Auth.


(** ** [events/tasks.py] *)

Module Tasks.
Import Models.

(** [max_retries=3] of the [shared_task] decorators. *)
Definition max_retries : nat := 3.

(** The count-down [60 * (2**self.request.retries)], in seconds. *)
Definition countdown (retries : nat) : Z := 60 * 2 ^ Z.of_nat retries.

(** *** [send_event_reminders] *)

(** What the job reads besides the tables: the settings, the gateway, and
    the rendering of an event's start time ([format_event_datetime] with its
    [strftime] fall-back, which depend on the time-zone database). *)
Record Env := mkEnv {
  settings : Auth.Settings;
  gateway : Auth.Gateway;
  SITE_DOMAIN : string;
  event_time_text : Event → string
}.

Inductive ReminderKind := Reminder24h | Reminder1h.

#[export] Instance ReminderKind_eq_dec : EqDecision ReminderKind.
Proof. solve_decision. Defined.

(** One call of [auth_service.send_event_update] made by the job, with the
    event and the batch it was made for. *)
Record Delivery := mkDelivery {
  delivery_event : N;
  delivery_kind : ReminderKind;
  delivery_phone : string;
  delivery_message : string;
  delivery_success : bool
}.

Record ReminderRun := mkRun {
  run_db : DB;
  run_log : list Delivery;
  sent_count : N;
  error_count : N
}.

(** The bounds of the query on [event_state_date], relative to [now]. *)
Definition window (kind : ReminderKind) : Z * Z :=
  match kind with
  | Reminder24h => (timedelta 23 30, timedelta 24 30)
  | Reminder1h => (timedelta 0 30, timedelta 1 30)
  end.

Definition reminder_sent (kind : ReminderKind) (e : Event) : bool :=
  match kind with
  | Reminder24h => reminder_24h_sent e
  | Reminder1h => reminder_1h_sent e
  end.

Definition mark_reminder_sent (kind : ReminderKind) (e : Event) : Event :=
  match kind with
  | Reminder24h => set_reminder_24h_sent true e
  | Reminder1h => set_reminder_1h_sent true e
  end.

(** The filter of [events_24h] and [events_1h]. *)
Definition due (kind : ReminderKind) (now : datetime) (e : Event) : bool :=
  bool_decide (now + (window kind).1 ≤ event_state_date e)
  && bool_decide (event_state_date e ≤ now + (window kind).2)
  && is_active e
  && negb (reminder_sent kind e)
  && auto_reminders_enabled e.

(** The query set, evaluated when the loop starts. *)
Definition due_events (kind : ReminderKind) (now : datetime) (db : DB)
  : list (N * Event) :=
  filter (λ kv : N * Event, due kind now kv.2) (map_to_list (events db)).

Definition reminder_message (env : Env) (kind : ReminderKind) (e : Event)
  : string :=
  match kind with
  | Reminder24h =>
      "Reminder: " +:+ title e +:+ " is tomorrow at " +:+ event_time_text env e
      +:+ ". Location: " +:+ location e +:+ " "
      +:+ get_short_url (SITE_DOMAIN env) e
  | Reminder1h =>
      "Starting soon: " +:+ title e +:+ " at " +:+ event_time_text env e
      +:+ ". Location: " +:+ location e +:+ " "
      +:+ get_short_url (SITE_DOMAIN env) e
  end.

(** The body of [for rsvp in rsvps].  [send_event_update] catches what the
    gateway raises, so the loop's own [except] branch has nothing left to
    catch. *)
Definition remind_recipient (env : Env) (kind : ReminderKind) (id : N)
    (e : Event) (run : ReminderRun) (phone : string) : ReminderRun :=
  let message := reminder_message env kind e in
  let '(success, _) :=
    Auth.send_event_update (settings env) (gateway env) phone message in
  let log := run_log run ++ [mkDelivery id kind phone message success] in
  if success
  then mkRun (run_db run) log (sent_count run + 1)%N (error_count run)
  else mkRun (run_db run) log (sent_count run) (error_count run + 1)%N.

(** The body of [for event in events_24h] (and [events_1h]): remind every
    attending RSVP, then set the flag on the instance and save it.  (A saved
    event has its [short_code] since it was created, so [Event.save] has none
    to draw here.) *)
Definition remind_event (env : Env) (kind : ReminderKind) (run : ReminderRun)
    (kv : N * Event) : ReminderRun :=
  let rsvps := rsvps_with_status (run_db run) kv.1 "attending" in
  let run := foldl (remind_recipient env kind kv.1 kv.2) run rsvps in
  let saved := <[kv.1 := mark_reminder_sent kind kv.2]> (events (run_db run)) in
  mkRun (with_events saved (run_db run)) (run_log run)
        (sent_count run) (error_count run).

Definition remind_pass (env : Env) (kind : ReminderKind) (now : datetime)
    (run : ReminderRun) : ReminderRun :=
  foldl (remind_event env kind) run (due_events kind now (run_db run)).

(** [send_event_reminders], on a database that answers every query (the
    job-level [except], which re-queues the job, is then not entered). *)
Definition send_event_reminders (env : Env) (now : datetime) (db : DB)
  : ReminderRun * string :=
  let run := remind_pass env Reminder24h now (mkRun db [] 0 0) in
  let run := remind_pass env Reminder1h now run in
  (run, "Reminder task completed: " +:+ Py.str (sent_count run) +:+ " sent, "
        +:+ Py.str (error_count run) +:+ " errors").

(** *** [process_uploaded_image] *)

Record StorageSettings := mkStorage {
  AWS_STORAGE_BUCKET_NAME : string;
  AWS_S3_REGION_NAME : string;
  MEDIA_URL : string
}.

(** What one execution of the job meets outside the tables.  A field of type
    [option string] is [Some e] when the call raises an exception whose
    [str] is [e]. *)
Record ImageWorld := mkImageWorld {
  production : bool;
  temp_file_exists : bool;
  verify_raises : option string;
  remove_gps_raises : option string;
  resize_raises : option string;
  avif_raises : option string;
  webp_raises : option string;
  store_raises : option string;
  remove_temp_raises : option string;
  avif_uuid : string;
  webp_uuid : string;
  date_path : string
}.

(** A block of the job: it updates the tables and returns, or raises. *)
Definition Job (A : Type) : Type := DB → DB * (string + A).

#[export] Instance Job_ret : MRet Job := λ A a db, (db, inr a).

#[export] Instance Job_bind : MBind Job := λ A B f c db,
  match c db with
  | (db', inr a) => f a db'
  | (db', inl exc) => (db', inl exc)
  end.

Definition raise {A : Type} (exc : string) : Job A := λ db, (db, inl exc).

Definition may_raise (o : option string) : Job unit :=
  match o with Some exc => raise exc | None => mret () end.

(** [try: ... except Exception: logger.warning(...)] *)
Definition best_effort (c : Job unit) : Job unit := λ db,
  match c db with
  | (db', inr _) => (db', inr ())
  | (db', inl _) => (db', inr ())
  end.

(** [instance.save(update_fields=[...])] after [setattr]s on it. *)
Definition update_instance (id : N) (f : Event → Event) : Job unit := λ db,
  (with_events (alter f id (events db)) db, inr ()).

(** [Event.objects.get(id=instance_id)] *)
Definition get_event (id : N) : Job Event := λ db,
  match events db !! id with
  | Some e => (db, inr e)
  | None => (db, inl "Event matching query does not exist.")
  end.

(** The [try] block. *)
Definition process_body (cfg : StorageSettings) (w : ImageWorld)
    (model_type : string) (instance_id : N) (temp_file_path : string)
  : Job (string * string) :=
  upload_dir ←
    (if bool_decide (model_type = "event")
     then get_event instance_id ≫= λ _, mret "event_covers"
     else raise ("Invalid model_type: " +:+ model_type));
  update_instance instance_id (set_processing_status "processing");;
  (if temp_file_exists w then mret ()
   else raise ("Temp file not found: " +:+ temp_file_path));;
  may_raise (verify_raises w);;
  best_effort (may_raise (remove_gps_raises w));;
  may_raise (resize_raises w);;
  may_raise (avif_raises w);;
  let avif_filename := avif_uuid w +:+ ".avif" in
  may_raise (webp_raises w);;
  let webp_filename := webp_uuid w +:+ ".webp" in
  may_raise (store_raises w);;
  let url filename :=
    if production w then
      "https://" +:+ AWS_STORAGE_BUCKET_NAME cfg +:+ ".s3."
      +:+ AWS_S3_REGION_NAME cfg +:+ ".amazonaws.com/" +:+ upload_dir
      +:+ "/" +:+ filename
    else
      MEDIA_URL cfg +:+ upload_dir +:+ "/" +:+ date_path w +:+ "/" +:+ filename
  in
  update_instance instance_id
    (λ e, set_processing_status "complete"
            (set_derivative_urls (url avif_filename) (url webp_filename) e));;
  best_effort (may_raise (remove_temp_raises w));;
  mret (url avif_filename, url webp_filename).

(** The result dictionaries. *)
Inductive ImageResult :=
| ImageSuccess (avif_url webp_url : string)
| ImageFailure (error : string).

(** How an execution ends: it returns, or [raise self.retry(...)] asks the
    queue to run the job again after [countdown] seconds. *)
Inductive Outcome :=
| Returned (result : ImageResult)
| RetryScheduled (exc : string) (countdown : Z).

(** The [try] inside the [except] block: a missing row raises there and is
    only logged.  (For a query that fails, see [mark_failed_db] below.) *)
Definition mark_failed (model_type : string) (instance_id : N) : Job unit :=
  best_effort
    (if bool_decide (model_type = "event")
     then get_event instance_id ≫= λ _,
          update_instance instance_id (set_processing_status "failed")
     else mret ()).

(** One execution of [process_uploaded_image]; [retries] is
    [self.request.retries]. *)
Definition process_uploaded_image (cfg : StorageSettings) (w : ImageWorld)
    (retries : nat) (model_type : string) (instance_id : N)
    (temp_file_path : string) (db : DB) : DB * Outcome :=
  match process_body cfg w model_type instance_id temp_file_path db with
  | (db, inr (avif_url, webp_url)) =>
      (db, Returned (ImageSuccess avif_url webp_url))
  | (db, inl exc) =>
      let db := (mark_failed model_type instance_id db).1 in
      if bool_decide (retries < max_retries)%nat
      then (db, RetryScheduled exc (countdown retries))
      else (db, Returned (ImageFailure exc))
  end.

(** The queue's side of [self.retry]: the job runs again with
    [request.retries] one higher, in the world of that time.  [budget]
    bounds the number of executions; the result also lists the count-downs
    that were asked for. *)
Fixpoint run_job (budget : nat) (cfg : StorageSettings)
    (worlds : nat → ImageWorld) (retries : nat) (model_type : string)
    (instance_id : N) (temp_file_path : string) (db : DB)
  : DB * list Z * option ImageResult :=
  match budget with
  | O => (db, [], None)
  | S budget =>
      match process_uploaded_image cfg (worlds retries) retries model_type
              instance_id temp_file_path db with
      | (db, Returned result) => (db, [], Some result)
      | (db, RetryScheduled _ delay) =>
          let '(db, delays, result) :=
            run_job budget cfg worlds (S retries) model_type instance_id
                    temp_file_path db in
          (db, delay :: delays, result)
      end
  end.

(** The URL the job records for a derivative it stored as [filename]. *)
Definition derivative_url (cfg : StorageSettings) (w : ImageWorld)
    (filename : string) : string :=
  if production w then
    "https://" +:+ AWS_STORAGE_BUCKET_NAME cfg +:+ ".s3."
    +:+ AWS_S3_REGION_NAME cfg +:+ ".amazonaws.com/" +:+ "event_covers"
    +:+ "/" +:+ filename
  else
    MEDIA_URL cfg +:+ "event_covers" +:+ "/" +:+ date_path w +:+ "/" +:+ filename.

(** No step of the pipeline that can fail the job raises in this world. *)
Definition pipeline_works (w : ImageWorld) : Prop :=
  temp_file_exists w = true ∧ verify_raises w = None ∧ resize_raises w = None
  ∧ avif_raises w = None ∧ webp_raises w = None ∧ store_raises w = None.

(** [db'] is [db] but for the processing status and the derivative URLs of
    the event [id]. *)
Definition image_frame (id : N) (db db' : DB) : Prop :=
  users db' = users db ∧ questions db' = questions db
  ∧ rsvps db' = rsvps db ∧ answers db' = answers db
  ∧ (∀ i, i ≠ id → events db' !! i = events db !! i)
  ∧ match events db !! id, events db' !! id with
    | Some e, Some e' =>
        ∃ status avif webp,
          e' = set_processing_status status (set_derivative_urls avif webp e)
    | None, None => True
    | _, _ => False
    end.

(** The calls of [send_event_update] the inner loop makes for one event: one
    per recipient, in turn. *)
Definition deliveries (env : Env) (kind : ReminderKind) (id : N) (e : Event)
    (phones : list string) : list Delivery :=
  (λ phone,
     mkDelivery id kind phone (reminder_message env kind e)
       (Auth.send_event_update (settings env) (gateway env) phone
          (reminder_message env kind e)).1) <$> phones.

(** The calls the outer loop makes for the events [l] it selected. *)
Definition batch (env : Env) (kind : ReminderKind) (db : DB)
    (l : list (N * Event)) : list Delivery :=
  l ≫= λ kv, deliveries env kind kv.1 kv.2
               (rsvps_with_status db kv.1 "attending").

(** What identifies a reminder: the event, the batch and the recipient. *)
Definition delivery_key (d : Delivery) : N * ReminderKind * string :=
  (delivery_event d, delivery_kind d, delivery_phone d).

(** The counters of a run agree with its log. *)
Definition tallied (run : ReminderRun) : Prop :=
  sent_count run
  = N.of_nat (length (filter (λ d, delivery_success d = true) (run_log run)))
  ∧ error_count run
    = N.of_nat (length (filter (λ d, delivery_success d = false) (run_log run))).

(** [e'] is [e] but for reminder flags that were raised. *)
Definition flags_raised (e e' : Event) : Prop :=
  e' = set_reminder_24h_sent (reminder_24h_sent e')
         (set_reminder_1h_sent (reminder_1h_sent e') e)
  ∧ (reminder_24h_sent e = true → reminder_24h_sent e' = true)
  ∧ (reminder_1h_sent e = true → reminder_1h_sent e' = true).

(** *** The job against a database that can fail

    [process_body], [mark_failed] and [process_uploaded_image] above take the
    database to answer every query of the job.  Below, each of the five
    queries of the job can also raise (a connection that is lost, a lock that
    is not obtained): a field is [Some e] when the query raises an exception
    whose [str] is [e], and then the query writes nothing. *)
Record DatabaseFaults := mkDatabaseFaults {
  get_raises : option string;
  save_processing_raises : option string;
  save_complete_raises : option string;
  get_failed_raises : option string;
  save_failed_raises : option string
}.

Definition no_faults : DatabaseFaults :=
  mkDatabaseFaults None None None None None.

(** The [try] block. *)
Definition process_body_db (faults : DatabaseFaults) (cfg : StorageSettings)
    (w : ImageWorld) (model_type : string) (instance_id : N)
    (temp_file_path : string) : Job (string * string) :=
  upload_dir ←
    (if bool_decide (model_type = "event")
     then may_raise (get_raises faults);;
          get_event instance_id ≫= λ _, mret "event_covers"
     else raise ("Invalid model_type: " +:+ model_type));
  may_raise (save_processing_raises faults);;
  update_instance instance_id (set_processing_status "processing");;
  (if temp_file_exists w then mret ()
   else raise ("Temp file not found: " +:+ temp_file_path));;
  may_raise (verify_raises w);;
  best_effort (may_raise (remove_gps_raises w));;
  may_raise (resize_raises w);;
  may_raise (avif_raises w);;
  let avif_filename := avif_uuid w +:+ ".avif" in
  may_raise (webp_raises w);;
  let webp_filename := webp_uuid w +:+ ".webp" in
  may_raise (store_raises w);;
  let url filename :=
    if production w then
      "https://" +:+ AWS_STORAGE_BUCKET_NAME cfg +:+ ".s3."
      +:+ AWS_S3_REGION_NAME cfg +:+ ".amazonaws.com/" +:+ upload_dir
      +:+ "/" +:+ filename
    else
      MEDIA_URL cfg +:+ upload_dir +:+ "/" +:+ date_path w +:+ "/" +:+ filename
  in
  may_raise (save_complete_raises faults);;
  update_instance instance_id
    (λ e, set_processing_status "complete"
            (set_derivative_urls (url avif_filename) (url webp_filename) e));;
  best_effort (may_raise (remove_temp_raises w));;
  mret (url avif_filename, url webp_filename).

(** The [try] inside the [except] block: whatever its two queries raise is
    only logged. *)
Definition mark_failed_db (faults : DatabaseFaults) (model_type : string)
    (instance_id : N) : Job unit :=
  best_effort
    (if bool_decide (model_type = "event")
     then may_raise (get_failed_raises faults);;
          get_event instance_id ≫= λ _,
          may_raise (save_failed_raises faults);;
          update_instance instance_id (set_processing_status "failed")
     else mret ()).

(** One execution of [process_uploaded_image]. *)
Definition process_uploaded_image_db (faults : DatabaseFaults)
    (cfg : StorageSettings) (w : ImageWorld) (retries : nat)
    (model_type : string) (instance_id : N) (temp_file_path : string)
    (db : DB) : DB * Outcome :=
  match process_body_db faults cfg w model_type instance_id temp_file_path db with
  | (db, inr (avif_url, webp_url)) =>
      (db, Returned (ImageSuccess avif_url webp_url))
  | (db, inl exc) =>
      let db := (mark_failed_db faults model_type instance_id db).1 in
      if bool_decide (retries < max_retries)%nat
      then (db, RetryScheduled exc (countdown retries))
      else (db, Returned (ImageFailure exc))
  end.

(** A block keeps the rows of the [Event] table: it may rewrite them, it
    deletes none. *)
Definition keeps_rows {A : Type} (c : Job A) : Prop :=
  ∀ db i, is_Some (events db !! i) → is_Some (events (c db).1 !! i).

End Tasks.


(** ** [events/views.py] *)

Module Views.
Import Models.

(** What a view reads of the request. *)
Record Request := mkRequest {
  method : string;
  session_user_phone : option string;
  POST : gmap string string;
  hx_request : bool
}.

(** What the views read besides the request and the tables: a setting, the
    rendering [strftime('%B %d at %I:%M %p')] of a start time, and the
    phone-number parser behind [normalize_phone_number]. *)
Record Env := mkEnv {
  SITE_DOMAIN : string;
  strftime : datetime → string;
  normalize_phone_number : string → option string
}.

(** [django.contrib.messages] *)
Inductive Flash :=
| MsgError (text : string)
| MsgSuccess (text : string).

Inductive Response :=
| Redirect (view : string) (event_id : option N)
| HxRedirect (view : string)
| Render (template : string) (hx_trigger : option string)
| Http404
| Raised (exc : string).

(** What a view leaves behind: the tables, the flashed messages, the SMS jobs
    it queued with [send_single_sms.delay], the [rsvp_after_login] entry it
    put in the session, and its response. *)
Record Result := mkResult {
  result_db : DB;
  flashed : list Flash;
  queued_sms : list (string * string);
  rsvp_after_login : option (N * string);
  response : Response
}.

(** [request.session.get("user_phone")] when it is truthy. *)
Definition logged_in (req : Request) : option string :=
  match session_user_phone req with
  | Some phone => if Py.truthy phone then Some phone else None
  | None => None
  end.

(** [get_object_or_404(Event, id=event_id, is_active=True)] *)
Definition get_active_event (db : DB) (event_id : N) : option Event :=
  match events db !! event_id with
  | Some e => if is_active e then Some e else None
  | None => None
  end.

(** What [_build_event_user_state] writes: the creator's forced [attending]
    RSVP.  (The context dictionary it returns is for the template.) *)
Definition _build_event_user_state (req : Request) (event_id : N) (event : Event)
    (db : DB) : DB :=
  match logged_in req with
  | Some user_phone =>
      match users db !! user_phone with
      | Some _ =>
          let user_rsvp := rsvps db !! (user_phone, event_id) in
          let is_creator := bool_decide (created_by event = user_phone) in
          if is_creator && negb (bool_decide (user_rsvp = Some "attending"))
          then with_rsvps (<[(user_phone, event_id) := "attending"]> (rsvps db)) db
          else db
      | None => db
      end
  | None => db
  end.

(** [_rsvp_response], after the view flashed [msgs] and queued [sms]. *)
Definition _rsvp_response (req : Request) (event_id : N) (event : Event)
    (db : DB) (msgs : list Flash) (sms : list (string * string))
    (trigger : option string) : Result :=
  if hx_request req then
    mkResult (_build_event_user_state req event_id event db) msgs sms None
             (Render "events/partials/rsvp_refresh.html" trigger)
  else mkResult db msgs sms None (Redirect "event_detail" (Some event_id)).

(** [request.POST.get("status", "attending")] *)
Definition requested_status (req : Request) : string :=
  default "attending" (POST req !! "status").

(** The key [f"question_{question.id}"] of the form. *)
Definition question_field (question_id : N) : string :=
  "question_" +:+ Py.str question_id.

(** [request.POST.get(f"question_{question.id}", "").strip()] *)
Definition submitted_answer (req : Request) (question_id : N) : string :=
  Py.strip (default "" (POST req !! question_field question_id)).

(** The dictionary [question_answers] built by the first loop. *)
Definition collect_answers (req : Request)
    (questions : list (N * EventQuestion)) : gmap N string :=
  foldl (λ question_answers q, <[q.1 := submitted_answer req q.1]> question_answers)
        ∅ questions.

(** The list comprehension [missing_questions]. *)
Definition missing_questions (questions : list (N * EventQuestion))
    (question_answers : gmap N string) : list string :=
  (λ q, question_text q.2) <$>
    filter (λ q : N * EventQuestion,
              is_required q.2 = true
              ∧ Py.truthy (default "" (question_answers !! q.1)) = false)
           questions.

(** The loop that stores the answers of an RSVP that is not a refusal. *)
Definition save_answers (user_phone : string) (event_id : N)
    (questions : list (N * EventQuestion)) (question_answers : gmap N string)
    (table : gmap (string * N * N) string) : gmap (string * N * N) string :=
  foldl (λ table q,
           let answer_text := default "" (question_answers !! q.1) in
           if Py.truthy answer_text || is_required q.2
           then <[(user_phone, event_id, q.1) := answer_text]> table
           else delete (user_phone, event_id, q.1) table)
        table questions.

(** [rsvp.answers.all().delete()] *)
Definition delete_answers (user_phone : string) (event_id : N)
    (table : gmap (string * N * N) string) : gmap (string * N * N) string :=
  filter (λ kv : string * N * N * string, kv.1.1 ≠ (user_phone, event_id)) table.

Definition valid_status (status : string) : bool :=
  bool_decide (status = "attending") || bool_decide (status = "maybe")
  || bool_decide (status = "not_attending").

(** What [rsvp_event] writes once it accepts: [RSVP.objects.update_or_create]
    and, under it, the answers. *)
Definition store_rsvp (user_phone : string) (event_id : N) (status : string)
    (questions : list (N * EventQuestion)) (question_answers : gmap N string)
    (db : DB) : DB :=
  let db := with_rsvps (<[(user_phone, event_id) := status]> (rsvps db)) db in
  if bool_decide (status = "not_attending")
  then with_answers (delete_answers user_phone event_id (answers db)) db
  else with_answers
         (save_answers user_phone event_id questions question_answers
                       (answers db)) db.

(** [rsvp_event]: the body of the view.  (Its [ratelimit] decorator, which
    turns away a user's POSTs beyond twenty an hour before the body runs, is
    the framework's.) *)
Definition rsvp_event (env : Env) (req : Request) (event_id : N) (db : DB)
  : Result :=
  if negb (bool_decide (method req = "POST")) then
    (* [_rsvp_response(request, event)] reads [event] before it is bound *)
    mkResult db [] [] None (Raised "UnboundLocalError")
  else
  match logged_in req with
  | None =>
      mkResult db [MsgError "Please log in to RSVP."] []
        (Some (event_id, requested_status req))
        (if hx_request req then HxRedirect "phone_login"
         else Redirect "phone_login" None)
  | Some user_phone =>
  match get_active_event db event_id with
  | None => mkResult db [] [] None Http404
  | Some event =>
  match users db !! user_phone with
  | None => mkResult db [] [] None Http404
  | Some user =>
  let status := requested_status req in
  if bool_decide (created_by event = user_phone) then
    _rsvp_response req event_id event db [] [] None
  else if negb (valid_status status) then
    _rsvp_response req event_id event db
      [MsgError "Please select a valid RSVP status."] [] None
  else
  let user_existing_rsvp := rsvps db !! (user_phone, event_id) in
  let questions := event_questions db event_id in
  let question_answers := collect_answers req questions in
  if negb (allow_rsvp event)
     && (negb (bool_decide (status = "not_attending"))
         || negb (bool_decide (is_Some user_existing_rsvp))) then
    _rsvp_response req event_id event db
      [MsgError "This event has closed RSVPs."] [] None
  else if bool_decide (status = "maybe") && negb (allow_maybe_rsvp event) then
    _rsvp_response req event_id event db
      [MsgError "This event doesn't allow maybe responses."] [] None
  else
  let requires_answers :=
    bool_decide (status = "attending") || bool_decide (status = "maybe") in
  let missing :=
    if requires_answers && negb (bool_decide (questions = []))
    then missing_questions questions question_answers else [] in
  match missing with
  | [only] =>
      _rsvp_response req event_id event db
        [MsgError ("Please answer the required question: " +:+ only)] [] None
  | _ :: _ :: _ =>
      _rsvp_response req event_id event db
        [MsgError "Please answer all required questions before submitting your RSVP."]
        [] None
  | [] =>
  if bool_decide (status = "attending")
     && is_full db event_id event
     && negb (bool_decide (user_existing_rsvp = Some "attending")) then
    mkResult db [MsgError "This event is full."] [] None
             (Redirect "event_detail" (Some event_id))
  else
  let created := negb (bool_decide (is_Some user_existing_rsvp)) in
  let db := store_rsvp user_phone event_id status questions question_answers db in
  let action := if created then "added" else "updated" in
  let message :=
    "You're RSVPed as '" +:+ status +:+ "' for " +:+ title event +:+ " on "
    +:+ strftime env (event_state_date event) +:+ ". "
    +:+ get_short_url (SITE_DOMAIN env) event in
  _rsvp_response req event_id event db
    [MsgSuccess ("We've " +:+ action +:+ " your RSVP!")]
    [(user_phone, message)] (Some status)
  end
  end
  end
  end.

Definition invite_form : Response := Render "events/invite_organizer.html" None.

(** [invite_organizer] *)
Definition invite_organizer (env : Env) (req : Request) (event_id : N) (db : DB)
  : Result :=
  match logged_in req with
  | None =>
      mkResult db [MsgError "Please log in to invite organizers."] [] None
               (Redirect "phone_login" None)
  | Some user_phone =>
  match get_active_event db event_id with
  | None => mkResult db [] [] None Http404
  | Some event =>
  match users db !! user_phone with
  | None => mkResult db [] [] None Http404
  | Some user =>
  if negb (is_organizer event user_phone) then
    mkResult db [MsgError "Only organizers can invite other organizers."] []
             None (Redirect "event_detail" (Some event_id))
  else if negb (can_invite_organizer event) then
    mkResult db
      [MsgError "You've reached the maximum number of organizers (5 total)."]
      [] None (Redirect "event_detail" (Some event_id))
  else if bool_decide (method req = "POST") then
    let phone_number := Py.strip (default "" (POST req !! "phone_number")) in
    if negb (Py.truthy phone_number) then
      mkResult db [MsgError "Please enter a phone number."] [] None invite_form
    else
    match normalize_phone_number env phone_number with
    | None =>
        mkResult db [MsgError "Please enter a valid phone number."] [] None
                 invite_form
    | Some formatted_number =>
    if negb (Py.truthy formatted_number) then
      mkResult db [MsgError "Please enter a valid phone number."] [] None
               invite_form
    else
    match users db !! formatted_number with
    | None =>
        mkResult db
          [MsgError "We couldn't find a user with this phone number. They need to sign up first."]
          [] None invite_form
    | Some invitee =>
        if bool_decide (created_by event = formatted_number) then
          mkResult db [MsgError "This person already created the event."] []
                   None (Redirect "event_detail" (Some event_id))
        else if bool_decide (formatted_number ∈ organizers event) then
          mkResult db [MsgError "This person is already an organizer."] []
                   None (Redirect "event_detail" (Some event_id))
        else
          let event' :=
            set_organizers (organizers event ∪ {[formatted_number]}) event in
          let message :=
            "You've been added as an organizer for '" +:+ title event
            +:+ "' on " +:+ strftime env (event_state_date event) +:+ ". "
            +:+ get_short_url (SITE_DOMAIN env) event in
          mkResult (with_events (<[event_id := event']> (events db)) db)
                   [MsgSuccess "You've invited your organizer!"]
                   [(formatted_number, message)] None
                   (Redirect "event_detail" (Some event_id))
    end
    end
  else mkResult db [] [] None invite_form
  end
  end
  end.

(** [leave_event] *)
Definition leave_event (req : Request) (event_id : N) (db : DB) : Result :=
  if negb (bool_decide (method req = "POST")) then
    mkResult db [] [] None (Redirect "event_detail" (Some event_id))
  else
  match logged_in req with
  | None =>
      mkResult db [MsgError "Please log in."] [] None
               (Redirect "phone_login" None)
  | Some user_phone =>
  match get_active_event db event_id with
  | None => mkResult db [] [] None Http404
  | Some event =>
  match users db !! user_phone with
  | None => mkResult db [] [] None Http404
  | Some user =>
  if bool_decide (created_by event = user_phone) then
    mkResult db
      [MsgError "You created this event, so you can't leave it. Delete the event instead."]
      [] None (Redirect "event_detail" (Some event_id))
  else if negb (bool_decide (user_phone ∈ organizers event)) then
    mkResult db [MsgError "You aren't an organizer of this event."] [] None
             (Redirect "event_detail" (Some event_id))
  else
    let event' := set_organizers (organizers event ∖ {[user_phone]}) event in
    mkResult (with_events (<[event_id := event']> (events db)) db)
             [MsgSuccess "You've left the event organizing team."] [] None
             (Redirect "my_events" None)
  end
  end
  end.

(** The required questions [rsvp_event] finds unanswered in a request. *)
Definition unanswered (req : Request) (db : DB) (event_id : N) : list string :=
  missing_questions (event_questions db event_id)
                    (collect_answers req (event_questions db event_id)).

(** The view accepted the RSVP: it flashed its success message. *)
Definition accepted (r : Result) : Prop :=
  ∃ text, flashed r = [MsgSuccess text].

(** The view refused the request: it flashed one error, wrote nothing and
    queued nothing. *)
Definition refused (db : DB) (r : Result) : Prop :=
  (∃ text, flashed r = [MsgError text]) ∧ result_db r = db ∧ queued_sms r = [].

(** *** The limiter of [rsvp_event] *)

(** [@ratelimit(rate=..., method="POST", block=True)]: the decorator counts
    the POSTs to the view that came in the current window under the key it
    takes from the request, this one included; when the count exceeds the
    rate it raises [Ratelimited], which is answered with status 403, and the
    view is not called.  [counted] is the count before this request. *)
Definition ratelimit (rate counted : nat) (req : Request) (db : DB)
    (view : Result) : Result :=
  if bool_decide (method req = "POST") && bool_decide (rate ≤ counted)%nat
  then mkResult db [] [] None (Raised "Ratelimited")
  else view.

(** [rsvp_event] as it is routed, under
    [@ratelimit(key="user", rate="20/h", method="POST", block=True)]. *)
Definition rsvp_event_limited (env : Env) (counted : nat) (req : Request)
    (event_id : N) (db : DB) : Result :=
  ratelimit 20 counted req db (rsvp_event env req event_id db).

(** *** The login views *)

(** The entries of the session that the login views read and write:
    ["user_phone"], ["user_name"], ["verification_phone"] and
    ["rsvp_after_login"].  (They also store ["user_id"], the UUID of the row,
    which this model of [User] does not carry.) *)
Record Session := mkSession {
  s_user_phone : option string;
  s_user_name : option string;
  s_verification_phone : option string;
  s_rsvp_after_login : option (N * string)
}.

(** [request.session.flush()] *)
Definition flush : Session := mkSession None None None None.

(** What a login view leaves behind: the table of users, the session, the
    flashed messages and its response. *)
Record LoginResult := mkLoginResult {
  login_users : gmap string User;
  login_session : Session;
  login_flashed : list Flash;
  login_response : Response
}.

(** [session.get(key)] when it is truthy. *)
Definition truthy_entry (entry : option string) : option string :=
  match entry with
  | Some s => if Py.truthy s then Some s else None
  | None => None
  end.

(** [normalize_phone_number] on [request.POST.get("phone_number")], when the
    result is truthy. *)
Definition posted_phone_number (env : Env) (POST : gmap string string)
  : option string :=
  match POST !! "phone_number" with
  | Some phone_number =>
      if Py.truthy phone_number
      then truthy_entry (normalize_phone_number env phone_number)
      else None
  | None => None
  end.

Definition wait_message (cooldown_seconds : Z) : string :=
  "Please wait " +:+ Py.str (Z.to_N cooldown_seconds)
  +:+ " seconds before requesting another code.".

(** [phone_login], past its check of a session that is logged in already.
    The clock is read twice at most: at [now] by [can_resend_code], and at
    [later] by [get_resend_cooldown_seconds] or by
    [generate_verification_code].  (The [ratelimit] decorator, which turns
    away an address's POSTs beyond five an hour, is the framework's.) *)
Definition phone_login_form (cfg : Auth.Settings) (gw : Auth.Gateway)
    (env : Env) (now later : datetime) (entropy : N) (method : string)
    (POST : gmap string string) (session : Session) (users : gmap string User)
  : LoginResult :=
  let form := Render "events/phone_login.html" None in
  if bool_decide (method = "POST") then
    match posted_phone_number env POST with
    | None =>
        mkLoginResult users session
          [MsgError "Please enter a valid phone number."] form
    | Some formatted_number =>
        let send :=
          let '(users, (success, result)) :=
            Auth.send_verification_code cfg gw later entropy users
                                        formatted_number in
          if success then
            mkLoginResult users
              (mkSession (s_user_phone session) (s_user_name session)
                         (Some formatted_number) (s_rsvp_after_login session))
              [MsgSuccess "Verification code sent to your phone!"]
              (Redirect "verify_code" None)
          else
            mkLoginResult users session
              [MsgError ("We couldn't send your code: " +:+ result)] form in
        match users !! formatted_number with
        | Some existing_user =>
            if negb (can_resend_code now existing_user) then
              let cooldown_seconds :=
                get_resend_cooldown_seconds later existing_user in
              mkLoginResult users session
                [MsgError (wait_message cooldown_seconds)] form
            else send
        | None => send
        end
    end
  else mkLoginResult users session [] form.

(** [phone_login] *)
Definition phone_login (cfg : Auth.Settings) (gw : Auth.Gateway)
    (env : Env) (now later : datetime) (entropy : N) (method : string)
    (POST : gmap string string) (session : Session) (users : gmap string User)
  : LoginResult :=
  match truthy_entry (s_user_phone session) with
  | Some user_phone =>
      match users !! user_phone with
      | Some _ => mkLoginResult users session [] (Redirect "index" None)
      | None =>
          phone_login_form cfg gw env now later entropy method POST flush users
      end
  | None =>
      phone_login_form cfg gw env now later entropy method POST session users
  end.

(** [user.name = name; user.save()] *)
Definition set_name (v : string) (u : User) : User :=
  mkUser (phone_number u) v (verification_code u)
         (verification_code_sent_at u) (is_verified u).

(** The view [verify_code]. *)
Definition verify_code (now : datetime) (method : string)
    (POST : gmap string string) (session : Session) (users : gmap string User)
  : LoginResult :=
  let form := Render "events/verify_code.html" None in
  match truthy_entry (s_verification_phone session) with
  | None => mkLoginResult users session [] (Redirect "phone_login" None)
  | Some phone_number =>
      if bool_decide (method = "POST") then
        let code := Py.strip (default "" (POST !! "code")) in
        let name := Py.strip (default "" (POST !! "name")) in
        match Auth.verify_code now users phone_number code with
        | (users, (true, Some user, _)) =>
            let user := if Py.truthy name then set_name name user else user in
            let users :=
              if Py.truthy name then <[phone_number := user]> users else users in
            let session :=
              mkSession (Some phone_number) (Some (Models.name user)) None
                        (s_rsvp_after_login session) in
            let user_greeting :=
              if Py.truthy (Models.name user) then ", " +:+ Models.name user
              else "" in
            match s_rsvp_after_login session with
            | Some rsvp_data =>
                mkLoginResult users session []
                  (Redirect "event_detail" (Some rsvp_data.1))
            | None =>
                mkLoginResult users session
                  [MsgSuccess ("Welcome" +:+ user_greeting
                               +:+ "! Your phone has been verified.")]
                  (Redirect "index" None)
            end
        | (users, (_, _, error_type)) =>
            let text :=
              if bool_decide (error_type = Some "expired") then
                "Your verification code has expired. Please request a new code."
              else if bool_decide (error_type = Some "invalid") then
                "That verification code is invalid. Please try again."
              else "We couldn't verify your code. Please try again." in
            mkLoginResult users session [MsgError text] form
        end
      else mkLoginResult users session [] form
  end.

(** The body of [resend_code]; its [require_POST] decorator answers any
    other method before the body runs. *)
Definition resend_code (cfg : Auth.Settings) (gw : Auth.Gateway)
    (now later : datetime) (entropy : N) (hx_request : bool)
    (session : Session) (users : gmap string User) : LoginResult :=
  let messages_or (view : string) :=
    if hx_request then Render "partials/messages.html" None
    else Redirect view None in
  match truthy_entry (s_verification_phone session) with
  | None =>
      mkLoginResult users session
        [MsgError "We couldn't find your verification session."]
        (messages_or "phone_login")
  | Some phone_number =>
      match users !! phone_number with
      | Some user =>
          if negb (can_resend_code now user) then
            let cooldown_seconds := get_resend_cooldown_seconds later user in
            mkLoginResult users session
              [MsgError (wait_message cooldown_seconds)]
              (messages_or "verify_code")
          else
            let '(users, (success, result)) :=
              Auth.send_verification_code cfg gw later entropy users
                                          phone_number in
            mkLoginResult users session
              [if success
               then MsgSuccess "We've sent a new verification code to your phone."
               else MsgError ("We couldn't send your code: " +:+ result)]
              (messages_or "verify_code")
      | None =>
          mkLoginResult users session [MsgError "We couldn't find that user."]
            (messages_or "verify_code")
      end
  end.

(** [logout_view] *)
Definition logout_view (session : Session) (users : gmap string User)
  : LoginResult :=
  mkLoginResult users flush [MsgSuccess "You've been logged out."]
                (Redirect "index" None).

(** *** The questionnaire of an event *)

Definition QUESTION_SLOTS : nat := 5.

(** An entry [{"text": ..., "required": ...}] of the form. *)
Record Entry := mkEntry {
  entry_text : string;
  entry_required : bool
}.

Definition question_text_field (index : nat) : string :=
  "question_text_" +:+ Py.str (N.of_nat index).

Definition question_required_field (index : nat) : string :=
  "question_required_" +:+ Py.str (N.of_nat index).

(** [_extract_question_entries] *)
Definition _extract_question_entries (post_data : gmap string string)
  : list Entry :=
  omap (λ index,
          let text := Py.strip (default "" (post_data !! question_text_field index)) in
          let required :=
            bool_decide (post_data !! question_required_field index = Some "on") in
          if Py.truthy text then Some (mkEntry text required) else None)
       (seq 1 QUESTION_SLOTS).

(** The first loop of [_save_event_questions], from position [order] on:
    [for order, entry in enumerate(entries)].  A row that is created gets the
    next id of the table's sequence, [next_id]. *)
Fixpoint save_entries (event_id : N) (existing : list (N * EventQuestion))
    (order : nat) (entries : list Entry) (next_id : N)
    (table : gmap N EventQuestion) : gmap N EventQuestion * N :=
  match entries with
  | [] => (table, next_id)
  | entry :: entries =>
      match existing !! order with
      | Some (id, question) =>
          let table :=
            if negb (bool_decide (question_text question = entry_text entry))
               || negb (bool_decide (is_required question = entry_required entry))
               || negb (bool_decide (Models.order question = N.of_nat order))
            then <[id := mkQuestion (question_event question) (entry_text entry)
                           (entry_required entry) (N.of_nat order)]> table
            else table in
          save_entries event_id existing (S order) entries next_id table
      | None =>
          let table :=
            <[next_id := mkQuestion event_id (entry_text entry)
                           (entry_required entry) (N.of_nat order)]> table in
          save_entries event_id existing (S order) entries (N.succ next_id) table
      end
  end.

(** [question.delete()], with the answers that cascade. *)
Definition delete_question (id : N) (db : DB) : DB :=
  with_answers
    (filter (λ kv : string * N * N * string, kv.1.2 ≠ id) (answers db))
    (with_questions (delete id (questions db)) db).

(** [_save_event_questions]: the tables and the sequence afterwards. *)
Definition _save_event_questions (event_id : N) (entries : list Entry)
    (next_id : N) (db : DB) : DB * N :=
  let existing := event_questions db event_id in
  let '(table, next_id) :=
    save_entries event_id existing 0 entries next_id (questions db) in
  let db := with_questions table db in
  let db :=
    if bool_decide (length entries < length existing)%nat
    then foldl (λ db question, delete_question question.1 db) db
               (drop (length entries) existing)
    else db in
  (db, next_id).

(** The id of the row that holds the entry at position [order] after
    [_save_event_questions]: that of the existing question at this position,
    or a new one. *)
Definition slot_id (existing : list (N * EventQuestion)) (next_id : N)
    (order : nat) : N :=
  match existing !! order with
  | Some question => question.1
  | None => (next_id + N.of_nat (order - length existing))%N
  end.

(** The ids of the sequence not handed out yet are unused. *)
Definition unused_from (next_id : N) (table : gmap N EventQuestion) : Prop :=
  ∀ id, is_Some (table !! id) → (id < next_id)%N.

(** *** Deleting an event *)

(** [event.delete()]: the row goes, and with it the rows that point to it
    with [on_delete=CASCADE]: its questions, its RSVPs, and the answers of
    these RSVPs or to these questions.  (So do its text blasts and its
    invitations, which the tables here do not hold.) *)
Definition delete_event_rows (event_id : N) (db : DB) : DB :=
  mkDB (users db)
       (delete event_id (events db))
       (filter (λ kv : N * EventQuestion, question_event kv.2 ≠ event_id)
               (questions db))
       (filter (λ kv : string * N * string, kv.1.2 ≠ event_id) (rsvps db))
       (filter (λ kv : string * N * N * string,
                  kv.1.1.2 ≠ event_id
                  ∧ question_event <$> questions db !! kv.1.2 ≠ Some event_id)
               (answers db)).

(** The quotation mark of the message of [delete_event]. *)
Definition double_quote : string := String (ascii_of_nat 34) EmptyString.

(** [delete_event].  (Removing the file of the cover photo is outside the
    tables; what it raises is swallowed.) *)
Definition delete_event (req : Request) (event_id : N) (db : DB) : Result :=
  if negb (bool_decide (method req = "POST")) then
    mkResult db [] [] None (Redirect "event_detail" (Some event_id))
  else
  match logged_in req with
  | None =>
      mkResult db [MsgError "Please log in."] [] None
               (Redirect "phone_login" None)
  | Some user_phone =>
  match events db !! event_id with
  | None => mkResult db [] [] None Http404
  | Some event =>
  match users db !! user_phone with
  | None => mkResult db [] [] None Http404
  | Some user =>
  if negb (bool_decide (created_by event = user_phone)) then
    mkResult db [MsgError "Only the event creator can delete this event."] []
             None (Redirect "event_detail" (Some event_id))
  else
    let event_title := title event in
    mkResult (delete_event_rows event_id db)
      [MsgSuccess ("You've deleted " +:+ double_quote +:+ event_title
                   +:+ double_quote +:+ ".")]
      [] None (Redirect "my_events" None)
  end
  end
  end.

(** *** Text blasts *)

(** A row of [TextBlast]. *)
Record TextBlast := mkTextBlast {
  blast_event : N;
  sent_by : string;
  blast_message : string;
  sent_to : string;
  recipient_count : nat;
  display_on_page : bool
}.

(** What [send_text_blast] reads and writes besides the tables above: the
    column [text_blast_count] of the events, by event, and the table of text
    blasts, the latest first. *)
Record Blasts := mkBlasts {
  text_blast_count : gmap N N;
  text_blasts : list TextBlast
}.

(** [event.text_blast_count], 0 by default. *)
Definition blast_count (blasts : Blasts) (event_id : N) : N :=
  default 0%N (text_blast_count blasts !! event_id).

(** What the view leaves behind: the counts and the blasts, the flashed
    messages, the arguments of [send_bulk_sms.delay] if it was called, and
    the response. *)
Record BlastResult := mkBlastResult {
  blast_state : Blasts;
  blast_flashed : list Flash;
  bulk_sms : option (list string * string);
  blast_response : Response
}.

(** The statuses [send_to] selects. *)
Definition blast_statuses (send_to : string) : list string :=
  if bool_decide (send_to = "both") then ["attending"; "maybe"]
  else if bool_decide (send_to = "maybe") then ["maybe"]
  else ["attending"].

(** The phone numbers of the RSVPs the view selects (in the order of the
    table; the source leaves them in the order of their creation, the latest
    first, which the tables here do not record). *)
Definition blast_recipients (db : DB) (event_id : N) (send_to : string)
  : list string :=
  (map_to_list
     (filter (λ kv : string * N * string,
                kv.1.2 = event_id ∧ kv.2 ∈ blast_statuses send_to)
             (rsvps db))).*1.*1.

(** [send_text_blast].  (The [ratelimit] decorator, which turns away a
    user's POSTs beyond ten an hour, is the framework's.) *)
Definition send_text_blast (env : Env) (req : Request) (event_id : N)
    (db : DB) (blasts : Blasts) : BlastResult :=
  let form := Render "events/text_blast.html" None in
  match logged_in req with
  | None =>
      mkBlastResult blasts [MsgError "Please log in to send text blasts."] None
                    (Redirect "phone_login" None)
  | Some user_phone =>
  match get_active_event db event_id with
  | None => mkBlastResult blasts [] None Http404
  | Some event =>
  match users db !! user_phone with
  | None => mkBlastResult blasts [] None Http404
  | Some user =>
  if negb (is_organizer event user_phone) then
    mkBlastResult blasts [MsgError "Only organizers can send text blasts."] None
                  (Redirect "event_detail" (Some event_id))
  else if bool_decide (20 ≤ blast_count blasts event_id)%N then
    mkBlastResult blasts
      [MsgError "You've reached the text blast limit (20 per event)."] None
      (Redirect "event_detail" (Some event_id))
  else if bool_decide (method req = "POST") then
    let message_text := Py.strip (default "" (POST req !! "message")) in
    let send_to := default "attending" (POST req !! "send_to") in
    let display_on_page :=
      bool_decide (POST req !! "display_on_page" = Some "on") in
    if negb (Py.truthy message_text) then
      mkBlastResult blasts [MsgError "Please enter a message."] None form
    else
    let phone_numbers := blast_recipients db event_id send_to in
    if bool_decide (phone_numbers = []) then
      mkBlastResult blasts
        [MsgError "We couldn't find any recipients for this selection."] None
        form
    else
    let full_message :=
      "[" +:+ title event +:+ "] " +:+ message_text +:+ " "
      +:+ get_short_url (SITE_DOMAIN env) event in
    let row :=
      mkTextBlast event_id user_phone message_text send_to
                  (length phone_numbers) display_on_page in
    let count := (blast_count blasts event_id + 1)%N in
    let blast_word :=
      if bool_decide (20 - Z.of_N count = 1) then "blast" else "blasts" in
    let attendee_word :=
      if bool_decide (length phone_numbers = 1%nat) then "attendee"
      else "attendees" in
    mkBlastResult
      (mkBlasts (<[event_id := count]> (text_blast_count blasts))
                (row :: text_blasts blasts))
      [MsgSuccess ("We've queued your text blast for "
                   +:+ Py.str (N.of_nat (length phone_numbers)) +:+ " "
                   +:+ attendee_word +:+ ". You have "
                   +:+ Py.str (Z.to_N (20 - Z.of_N count)) +:+ " "
                   +:+ blast_word +:+ " remaining.")]
      (Some (phone_numbers, full_message))
      (Redirect "event_detail" (Some event_id))
  else mkBlastResult blasts [] None form
  end
  end
  end.

(** The text blasts of an event. *)
Definition blasts_of (blasts : Blasts) (event_id : N) : list TextBlast :=
  filter (λ row, blast_event row = event_id) (text_blasts blasts).

(** The counts are those of the table, and within the limit. *)
Definition blasts_counted (blasts : Blasts) : Prop :=
  ∀ event_id,
    blast_count blasts event_id = N.of_nat (length (blasts_of blasts event_id))
    ∧ (blast_count blasts event_id ≤ 20)%N.

(** *** The page of an event *)

(** What [event_detail] leaves behind: what a view leaves (the entry noted
    there is the one [rsvp_event] put in the session), the messages it
    flashed with [messages.info], and the entry ["rsvp_after_login"] of the
    session afterwards. *)
Record DetailResult := mkDetailResult {
  detail : Result;
  detail_info : list string;
  detail_rsvp_after_login : option (N * string)
}.

(** The page itself; building its context records the creator as
    attending. *)
Definition event_page (req : Request) (event_id : N) (event : Event) (db : DB)
  : Result :=
  mkResult (_build_event_user_state req event_id event db) [] [] None
           (Render "events/event_detail.html" None).

(** The request [event_detail] hands to [rsvp_event]: a POST of the status
    alone ([rsvp_event] stores no answers in the session). *)
Definition replayed_request (req : Request) (status_after_login : string)
  : Request :=
  mkRequest "POST" (session_user_phone req) {["status" := status_after_login]}
            (hx_request req).

(** [event_detail], with the entry ["rsvp_after_login"] of the session. *)
Definition event_detail (env : Env) (req : Request)
    (rsvp_data : option (N * string)) (event_id : N) (db : DB) : DetailResult :=
  match get_active_event db event_id with
  | None => mkDetailResult (mkResult db [] [] None Http404) [] rsvp_data
  | Some event =>
      match rsvp_data with
      | Some (pending_event, status_after_login) =>
          if bool_decide (pending_event = event_id) then
            let should_prompt_questionnaire :=
              bool_decide (status_after_login = "attending")
              && negb (bool_decide (event_questions db event_id = [])) in
            if should_prompt_questionnaire then
              mkDetailResult (event_page req event_id event db)
                ["Please answer the questionnaire to finish your RSVP."] None
            else
              let r := rsvp_event env (replayed_request req status_after_login)
                                  event_id db in
              mkDetailResult r [] (rsvp_after_login r)
          else mkDetailResult (event_page req event_id event db) [] rsvp_data
      | None => mkDetailResult (event_page req event_id event db) [] None
      end
  end.

End Views.


(** ** The application as a transition system *)

Module System.
Import Models.

(** One operation of the application on the tables: a call of a service
    method, a view or a job, with whatever request and outside world. *)
Inductive step : DB → DB → Prop :=
| step_send_verification_code cfg gw now entropy phone db :
    step db (with_users
               (Auth.send_verification_code cfg gw now entropy (users db) phone).1
               db)
| step_verify_code now phone code db :
    step db (with_users (Auth.verify_code now (users db) phone code).1 db)
| step_rsvp_event env req event_id db :
    step db (Views.result_db (Views.rsvp_event env req event_id db))
| step_invite_organizer env req event_id db :
    step db (Views.result_db (Views.invite_organizer env req event_id db))
| step_leave_event req event_id db :
    step db (Views.result_db (Views.leave_event req event_id db))
| step_send_event_reminders env now db :
    step db (Tasks.run_db (Tasks.send_event_reminders env now db).1)
| step_process_uploaded_image cfg w retries model_type instance_id path db :
    step db (Tasks.process_uploaded_image cfg w retries model_type instance_id
                                          path db).1.

(** No event has more than [n] co-organizers. *)
Definition organizers_at_most (n : nat) (db : DB) : Prop :=
  ∀ id e, events db !! id = Some e → (size (organizers e) ≤ n)%nat.

(** The rows of [m'] are rows of [m] with the co-organizers they had. *)
Definition same_organizers (m m' : gmap N Event) : Prop :=
  ∀ id e', m' !! id = Some e' →
           ∃ e, m !! id = Some e ∧ organizers e' = organizers e.

(** A block of a job that leaves the co-organizers alone. *)
Definition keeps_organizers {A : Type} (c : Tasks.Job A) : Prop :=
  ∀ db, same_organizers (events db) (events (c db).1).

End System.


(** ** Sample data for the concrete instances below *)

Module Samples.
Import Models.

Definition ada : string := "+15550100".
Definition bob : string := "+15550101".
Definition cyd : string := "+15550102".

Definition registered (phone : string) : User :=
  mkUser phone "" "" None true.

Definition dee : string := "+15550103".
Definition eli : string := "+15550104".
Definition fay : string := "+15550105".

Definition people : gmap string User :=
  list_to_map ((λ p, (p, registered p)) <$> [ada; bob; cyd; dee; eli; fay]).

(** An event of [ada]'s that starts 24 hours after time 0, for at most
    [capacity] attendees. *)
Definition party (capacity : option N) : Event :=
  mkEvent "Party" "Hall" (timedelta 24 0) "pending" "" "" ada ∅ "Ab3dE6fG"
          capacity true true true false false true.

(** Question 1 must be answered, question 2 need not. *)
Definition dress_code : EventQuestion := mkQuestion 7 "Dress code?" true 0.
Definition allergies : EventQuestion := mkQuestion 7 "Allergies?" false 1.

Definition both_questions : gmap N EventQuestion :=
  {[1%N := dress_code; 2%N := allergies]}.

Definition bob_attends : gmap (string * N) string :=
  {[(bob, 7%N) := "attending"]}.

(** The party is event 7. *)
Definition db_party (capacity : option N) (qs : gmap N EventQuestion)
    (rs : gmap (string * N) string) (ans : gmap (string * N * N) string) : DB :=
  mkDB people {[7%N := party capacity]} qs rs ans.

(** The party with four co-organizers besides its creator [ada]. *)
Definition db_organized : DB :=
  mkDB people
       {[7%N := set_organizers {[bob; cyd; dee; eli]} (party None)]} ∅ ∅ ∅.

(** A form posted by [phone], over HTMX or not. *)
Definition post (phone : string) (hx : bool) (fields : list (string * string))
  : Views.Request :=
  Views.mkRequest "POST" (Some phone) (list_to_map fields) hx.

Definition auth_settings : Auth.Settings := Auth.mkSettings "" "" "" "".
Definition gateway_up : Auth.Gateway := λ _ _ _, Auth.MessageId "m-1".

Definition task_env : Tasks.Env :=
  Tasks.mkEnv auth_settings gateway_up "localhost:8000" (λ _, "12:00 AM UTC").

Definition view_env : Views.Env :=
  Views.mkEnv "localhost:8000" (λ _, "January 02 at 12:00 AM")
              (λ s, Some s).

Definition storage : Tasks.StorageSettings := Tasks.mkStorage "bucket" "us-east-1" "/media/".

(** A world in which every step of the image pipeline works. *)
Definition fine : Tasks.ImageWorld :=
  Tasks.mkImageWorld false true None None None None None None None
                     "a1" "b2" "2026/01/01".

(** The same world, but the staged file is not an image: [img.verify()]
    raises. *)
Definition corrupt : Tasks.ImageWorld :=
  Tasks.mkImageWorld false true (Some "cannot identify image file") None None
                     None None None None "a1" "b2" "2026/01/01".

(** The worlds of a job whose first execution meets the corrupt file and
    whose later ones meet a good one. *)
Definition corrupt_then_fine (execution : nat) : Tasks.ImageWorld :=
  match execution with O => corrupt | S _ => fine end.

(** A database that answers every query of the image job but the write of
    the status "failed". *)
Definition failed_write_fails : Tasks.DatabaseFaults :=
  Tasks.mkDatabaseFaults None None None None
    (Some "server closed the connection unexpectedly").

(** A field that knows one number written in another way. *)
Definition one_spelling (phone_number : string) : string :=
  if bool_decide (phone_number = "(555) 0100") then ada else phone_number.

End Samples.


(** * Properties *)

(** ** Verification service *)

Section VerificationService.
Import Models Auth.

Lemma timedelta_five_minutes : timedelta 0 5 = 300000000.
Proof. reflexivity. Qed.

(** After [send_verification_code] the user's row holds the code that was
    put in the message, stamped with the time of the call. *)
Lemma send_verification_code_stores cfg gw now entropy
    (users : gmap string User) phone :
  ∃ u, (send_verification_code cfg gw now entropy users phone).1 !! phone = Some u
       ∧ verification_code u = issued_code entropy
       ∧ verification_code_sent_at u = Some now.
Proof.
  unfold send_verification_code, generate_verification_code. simpl.
  eexists. rewrite lookup_insert_eq. split; [reflexivity|]. by simpl.
Qed.

(** That code is the one sent to the phone. *)
Lemma send_verification_code_message cfg gw now entropy
    (users : gmap string User) phone :
  (send_verification_code cfg gw now entropy users phone).2
  = deliver cfg gw phone
      ("Your verification code is " +:+ issued_code entropy +:+ ".").
Proof. reflexivity. Qed.

(** The three ways [verify_code] goes for a user that exists. *)
Lemma verify_code_expired now (users : gmap string User) phone u code :
  users !! phone = Some u →
  is_verification_code_expired now u = true →
  verify_code now users phone code = (users, (false, None, Some "expired")).
Proof. intros Hu He. unfold verify_code. by rewrite Hu, He. Qed.

Lemma verify_code_match now (users : gmap string User) phone u :
  users !! phone = Some u →
  is_verification_code_expired now u = false →
  verify_code now users phone (verification_code u)
  = (<[phone := mkUser (phone_number u) (name u) "" None true]> users,
     (true, Some (mkUser (phone_number u) (name u) "" None true), None)).
Proof.
  intros Hu He. unfold verify_code. rewrite Hu, He.
  by rewrite bool_decide_eq_true_2.
Qed.

Lemma verify_code_mismatch now (users : gmap string User) phone u code :
  users !! phone = Some u →
  is_verification_code_expired now u = false →
  verification_code u ≠ code →
  verify_code now users phone code = (users, (false, None, Some "invalid")).
Proof.
  intros Hu He Hc. unfold verify_code. rewrite Hu, He.
  by rewrite bool_decide_eq_false_2.
Qed.

Lemma not_expired_within_five_minutes now u T :
  verification_code_sent_at u = Some T →
  now ≤ T + timedelta 0 5 →
  is_verification_code_expired now u = false.
Proof.
  intros HT Hle. unfold is_verification_code_expired. rewrite HT. simpl.
  apply bool_decide_eq_false_2. lia.
Qed.

Lemma expired_after_five_minutes now u T :
  verification_code_sent_at u = Some T →
  T + timedelta 0 5 < now →
  is_verification_code_expired now u = true.
Proof.
  intros HT Hlt. unfold is_verification_code_expired. rewrite HT. simpl.
  by apply bool_decide_eq_true_2.
Qed.

(** C1, as the code has it: a code issued by [send_verification_code] and
    submitted within five minutes verifies the user; any later call of
    [verify_code] with the same code, at whatever time, fails, and the error
    it reports is "expired" (the success cleared the time stamp, and the
    expiry test comes before the comparison of codes). *)
Theorem verify_code_single_use cfg gw now entropy (users : gmap string User)
    phone t1 t2 :
  t1 ≤ now + timedelta 0 5 →
  let users1 := (send_verification_code cfg gw now entropy users phone).1 in
  let code := issued_code entropy in
  ∃ u users2,
    verify_code t1 users1 phone code = (users2, (true, Some u, None))
    ∧ users2 !! phone = Some u
    ∧ is_verified u = true
    ∧ verify_code t2 users2 phone code = (users2, (false, None, Some "expired")).
Proof.
  intros Ht users1 code.
  destruct (send_verification_code_stores cfg gw now entropy users phone)
    as (u1 & Hu1 & Hcode & Hsent).
  fold users1 in Hu1. unfold code. rewrite <- Hcode.
  eexists _, _. split.
  { apply verify_code_match; [exact Hu1|].
    by apply (not_expired_within_five_minutes _ _ now). }
  split; [by rewrite lookup_insert_eq|]. split; [done|].
  eapply verify_code_expired; [by rewrite lookup_insert_eq|done].
Qed.

Lemma verify_code_single_use_witness :
  ∃ u users2,
    verify_code 1
      (send_verification_code (mkSettings "" "" "" "") (λ _ _ _, MessageId "m")
                              0 123456 ∅ "+15550100").1
      "+15550100" (issued_code 123456) = (users2, (true, Some u, None))
    ∧ users2 !! "+15550100" = Some u
    ∧ is_verified u = true
    ∧ verify_code 2 users2 "+15550100" (issued_code 123456)
      = (users2, (false, None, Some "expired")).
Proof.
  apply (verify_code_single_use (mkSettings "" "" "" "")
           (λ _ _ _, MessageId "m") 0 123456 ∅ "+15550100" 1 2).
  vm_compute. discriminate.
Defined.

(** C1 as stated fails: the second call does not report "invalid". *)
Lemma verify_code_reuse_reports_expired :
  let users1 :=
    (send_verification_code (mkSettings "" "" "" "") (λ _ _ _, MessageId "m")
                            0 123456 ∅ "+15550100").1 in
  let code := issued_code 123456 in
  let first := verify_code 1 users1 "+15550100" code in
  let second := verify_code 2 first.1 "+15550100" code in
  code = "123456"
  ∧ first.2.1.1 = true
  ∧ second.2 = (false, None, Some "expired")
  ∧ second.2.2 ≠ Some "invalid".
Proof. vm_compute. repeat split; discriminate. Qed.

(** C7: once more than five minutes have passed since the code was issued,
    [verify_code] fails with "expired", whatever code is submitted; so it
    does one second after the five minutes. *)
Theorem verify_code_expires now (users : gmap string User) phone u T code :
  users !! phone = Some u →
  verification_code_sent_at u = Some T →
  T + timedelta 0 5 < now →
  verify_code now users phone code = (users, (false, None, Some "expired"))
  ∧ verify_code (T + timedelta 0 5 + seconds 1) users phone code
    = (users, (false, None, Some "expired")).
Proof.
  intros Hu HT Hlt. split.
  - eapply verify_code_expired; [done|]. by apply (expired_after_five_minutes _ _ T).
  - eapply verify_code_expired; [done|].
    apply (expired_after_five_minutes _ _ T); [done|]. unfold seconds. lia.
Qed.

Lemma verify_code_expires_witness :
  let u := mkUser "+15550100" "Ada" "123456" (Some 1000) false in
  let users : gmap string User := {["+15550100" := u]} in
  verify_code (1000 + timedelta 0 5 + 1) users "+15550100" "123456"
  = (users, (false, None, Some "expired"))
  ∧ verify_code (1000 + timedelta 0 5 + seconds 1) users "+15550100" "123456"
    = (users, (false, None, Some "expired")).
Proof.
  intros u users.
  apply (verify_code_expires (1000 + timedelta 0 5 + 1) users "+15550100" u
           1000 "123456").
  - reflexivity.
  - reflexivity.
  - lia.
Defined.

(** The time stamp [send_verification_code] leaves is the [T] of C7. *)
Lemma issued_code_expires cfg gw T entropy (users : gmap string User) phone
    now code :
  T + timedelta 0 5 < now →
  let users1 := (send_verification_code cfg gw T entropy users phone).1 in
  verify_code now users1 phone code = (users1, (false, None, Some "expired")).
Proof.
  intros Hlt users1.
  destruct (send_verification_code_stores cfg gw T entropy users phone)
    as (u1 & Hu1 & _ & Hsent).
  eapply verify_code_expired; [exact Hu1|].
  by apply (expired_after_five_minutes _ _ T).
Qed.

(** A failing call returns the table it was given. *)
Lemma verify_code_failure_cases now (users : gmap string User) phone code :
  (verify_code now users phone code).2.1.1 = false →
  (verify_code now users phone code).1 = users
  ∧ (verify_code now users phone code).2.1.2 = None
  ∧ (verify_code now users phone code).2.2
    ∈ [Some "not_found"; Some "expired"; Some "invalid"].
Proof.
  unfold verify_code.
  destruct (users !! phone) as [u|]; simpl.
  - destruct (is_verification_code_expired now u); simpl.
    + intros _. repeat split. set_solver.
    + case_bool_decide; simpl; [discriminate|].
      intros _. repeat split. set_solver.
  - intros _. repeat split. set_solver.
Qed.

(** C10: a call of [verify_code] that fails leaves the table of users as it
    was (no field of any row is written), returns no user, and reports one of
    the three errors; so only the success outcome changes a row. *)
Theorem verify_code_failure_is_atomic now (users : gmap string User) phone code :
  (verify_code now users phone code).2.1.1 = false →
  (verify_code now users phone code).1 = users
  ∧ (verify_code now users phone code).1 !! phone = users !! phone
  ∧ (verify_code now users phone code).2.1.2 = None
  ∧ (verify_code now users phone code).2.2
    ∈ [Some "not_found"; Some "expired"; Some "invalid"].
Proof.
  intros Hfail.
  destruct (verify_code_failure_cases now users phone code Hfail) as (H1 & H2 & H3).
  rewrite H1. done.
Qed.

Lemma verify_code_failure_is_atomic_witness :
  let u := mkUser "+15550100" "Ada" "123456" (Some 1000) false in
  let users : gmap string User := {["+15550100" := u]} in
  (verify_code 2000 users "+15550100" "000000").1 = users
  ∧ (verify_code 2000 users "+15550100" "000000").1 !! "+15550100"
    = users !! "+15550100"
  ∧ (verify_code 2000 users "+15550100" "000000").2.1.2 = None
  ∧ (verify_code 2000 users "+15550100" "000000").2.2
    ∈ [Some "not_found"; Some "expired"; Some "invalid"].
Proof.
  intros u users.
  apply (verify_code_failure_is_atomic 2000 users "+15550100" "000000").
  reflexivity.
Defined.

(** The other direction of C10: only a success changes the table. *)
Lemma verify_code_mutates_only_on_success now (users : gmap string User)
    phone code :
  (verify_code now users phone code).1 ≠ users →
  (verify_code now users phone code).2.1.1 = true.
Proof.
  intros Hne. destruct ((verify_code now users phone code).2.1.1) eqn:E; [done|].
  by apply verify_code_failure_cases in E as [? _].
Qed.

(** *** Further properties of the verification service *)

Lemma string_app_cons c s1 s2 : String c s1 +:+ s2 = String c (s1 +:+ s2).
Proof. reflexivity. Qed.

Lemma string_length_app s1 s2 :
  String.length (s1 +:+ s2) = (String.length s1 + String.length s2)%nat.
Proof.
  induction s1 as [|c s1 IH]; [done|].
  rewrite string_app_cons. simpl. by rewrite IH.
Qed.

Lemma all_decimal_app s1 s2 :
  Py.all_decimal (s1 +:+ s2) = Py.all_decimal s1 && Py.all_decimal s2.
Proof.
  induction s1 as [|c s1 IH]; [done|].
  rewrite string_app_cons. simpl. by rewrite IH, andb_assoc.
Qed.

Lemma string_app_assoc s1 s2 s3 : (s1 +:+ s2) +:+ s3 = s1 +:+ (s2 +:+ s3).
Proof.
  induction s1 as [|c s1 IH]; [done|]. by rewrite !string_app_cons, IH.
Qed.

Lemma pretty_N_char_decimal x : Py.is_decimal (pretty_N_char x) = true.
Proof. unfold pretty_N_char. by repeat case_match. Qed.

(** The digits [pretty] writes in front of its accumulator: decimal, and no
    more than the bound on the number allows. *)
Lemma pretty_N_go_digits x :
  ∀ s k, (x < 10 ^ N.of_nat k)%N →
    ∃ d, pretty_N_go x s = d +:+ s
         ∧ Py.all_decimal d = true
         ∧ (String.length d ≤ k)%nat.
Proof.
  induction (N.lt_wf_0 x) as [x _ IH]; intros s k Hk.
  destruct (decide (x = 0%N)) as [->|Hx].
  - exists "". rewrite pretty_N_go_0. repeat split. simpl. lia.
  - rewrite pretty_N_go_step by lia.
    destruct k as [|k]; [simpl in Hk; lia|].
    destruct (IH (x `div` 10)%N) with
      (s := String (pretty_N_char (x `mod` 10)) s) (k := k)
      as (d & Hd & Hdec & Hlen).
    { apply N.div_lt; lia. }
    { apply N.Div0.div_lt_upper_bound.
      replace (N.of_nat (S k)) with (N.succ (N.of_nat k)) in Hk by lia.
      by rewrite N.pow_succ_r' in Hk. }
    exists (d +:+ String (pretty_N_char (x `mod` 10)) "").
    rewrite Hd, string_app_assoc. split; [done|]. split.
    + rewrite all_decimal_app, Hdec. simpl.
      by rewrite pretty_N_char_decimal.
    + rewrite string_length_app. simpl. lia.
Qed.

Lemma str_digits n k :
  (n < 10 ^ N.of_nat k)%N → (1 ≤ k)%nat →
  Py.all_decimal (Py.str n) = true ∧ (String.length (Py.str n) ≤ k)%nat.
Proof.
  intros Hn Hk. unfold Py.str, pretty, pretty_N. case_decide.
  - split; [done|]. simpl. lia.
  - destruct (pretty_N_go_digits n "" k Hn) as (d & -> & Hdec & Hlen).
    rewrite all_decimal_app, Hdec, string_length_app. simpl. split; [done|lia].
Qed.

Lemma zfill_digits width s :
  Py.all_decimal s = true → (String.length s ≤ width)%nat →
  Py.all_decimal (Py.zfill width s) = true
  ∧ String.length (Py.zfill width s) = width.
Proof.
  intros Hdec Hlen. unfold Py.zfill.
  assert (∀ n, Py.all_decimal (String.string_of_list_ascii (replicate n "0"%char)) = true
               ∧ String.length (String.string_of_list_ascii (replicate n "0"%char)) = n)
    as Hzeros.
  { induction n as [|n [IH1 IH2]]; simpl; [done|]. by rewrite IH1, IH2. }
  destruct (Hzeros (width - String.length s)%nat) as [Hz1 Hz2].
  rewrite all_decimal_app, string_length_app, Hz1, Hz2, Hdec. split; [done|lia].
Qed.

(** X1.  Every code [send_verification_code] issues, and stores, is a string
    of exactly six decimal digits. *)
Theorem issued_code_six_digits cfg gw now entropy (users : gmap string User)
    phone :
  ∃ u, (send_verification_code cfg gw now entropy users phone).1 !! phone = Some u
       ∧ String.length (verification_code u) = 6%nat
       ∧ Py.all_decimal (verification_code u) = true.
Proof.
  destruct (send_verification_code_stores cfg gw now entropy users phone)
    as (u & Hu & Hcode & _).
  exists u. split; [done|]. rewrite Hcode. unfold issued_code.
  destruct (str_digits (randbelow 1000000 entropy) 6) as [Hdec Hlen];
    [unfold randbelow; apply N.mod_lt; done|lia|].
  destruct (zfill_digits 6 _ Hdec Hlen) as [H1 H2]. done.
Qed.

(** X2.  Wrong guesses do not use the code up: whatever codes other than the
    stored one are tried, and whenever, each try fails and leaves the table
    as it was; the stored code, submitted within five minutes of its issue,
    still verifies the user afterwards. *)
Theorem wrong_guesses_keep_the_code (users : gmap string User) phone u T
    (guesses : list (datetime * string)) now :
  users !! phone = Some u →
  verification_code_sent_at u = Some T →
  Forall (λ g : datetime * string, g.2 ≠ verification_code u) guesses →
  now ≤ T + timedelta 0 5 →
  Forall (λ g : datetime * string,
            (verify_code g.1 users phone g.2).2.1.1 = false) guesses
  ∧ foldl (λ us (g : datetime * string), (verify_code g.1 us phone g.2).1)
          users guesses = users
  ∧ ∃ u', (verify_code now users phone (verification_code u)).2
          = (true, Some u', None).
Proof.
  intros Hu HT Hwrong Hnow.
  assert (∀ g : datetime * string, g.2 ≠ verification_code u →
            (verify_code g.1 users phone g.2).2.1.1 = false
            ∧ (verify_code g.1 users phone g.2).1 = users) as Hone.
  { intros g Hg. unfold verify_code. rewrite Hu.
    destruct (is_verification_code_expired g.1 u); [done|].
    by rewrite bool_decide_eq_false_2. }
  split; [|split].
  - eapply Forall_impl; [exact Hwrong|]. intros g Hg. by apply Hone.
  - induction Hwrong as [|g guesses Hg _ IH]; simpl; [done|].
    by rewrite (proj2 (Hone g Hg)).
  - rewrite (verify_code_match now users phone u Hu); [by eexists|].
    by apply (not_expired_within_five_minutes _ _ T).
Qed.

Lemma wrong_guesses_keep_the_code_witness :
  let u := mkUser "+15550100" "Ada" "123456" (Some 1000) false in
  let users : gmap string User := {["+15550100" := u]} in
  let guesses := [(2000, "000000"); (3000, "999999")] in
  Forall (λ g : datetime * string,
            (verify_code g.1 users "+15550100" g.2).2.1.1 = false) guesses
  ∧ foldl (λ us (g : datetime * string),
             (verify_code g.1 us "+15550100" g.2).1)
          users guesses = users
  ∧ ∃ u', (verify_code 4000 users "+15550100" (verification_code u)).2
          = (true, Some u', None).
Proof.
  intros u users guesses.
  apply (wrong_guesses_keep_the_code users "+15550100" u 1000 guesses 4000).
  - reflexivity.
  - reflexivity.
  - repeat constructor; simpl; discriminate.
  - vm_compute. discriminate.
Defined.

(** X3.  Sending again replaces the code and restarts the five minutes: after
    a second [send_verification_code] the code of the first one, when it
    differs, is refused as "invalid", and the new code verifies the user up
    to five minutes after the second sending, however long ago the first
    was. *)
Theorem resend_replaces_the_code cfg1 gw1 cfg2 gw2 T1 T2 entropy1 entropy2
    (users : gmap string User) phone now :
  now ≤ T2 + timedelta 0 5 →
  let users1 := (send_verification_code cfg1 gw1 T1 entropy1 users phone).1 in
  let users2 := (send_verification_code cfg2 gw2 T2 entropy2 users1 phone).1 in
  (issued_code entropy1 ≠ issued_code entropy2 →
   verify_code now users2 phone (issued_code entropy1)
   = (users2, (false, None, Some "invalid")))
  ∧ ∃ u, (verify_code now users2 phone (issued_code entropy2)).2
         = (true, Some u, None).
Proof.
  intros Hnow users1 users2.
  destruct (send_verification_code_stores cfg2 gw2 T2 entropy2 users1 phone)
    as (u2 & Hu2 & Hcode & Hsent).
  fold users2 in Hu2.
  pose proof (not_expired_within_five_minutes now u2 T2 Hsent Hnow) as Hfresh.
  split.
  - intros Hne. apply (verify_code_mismatch now users2 phone u2); [done..|].
    by rewrite Hcode.
  - rewrite <- Hcode. rewrite (verify_code_match now users2 phone u2); [|done..].
    by eexists.
Qed.

Lemma resend_replaces_the_code_witness :
  let cfg := mkSettings "" "" "" "" in
  let gw : Gateway := λ _ _ _, MessageId "m" in
  let users1 := (send_verification_code cfg gw 0 111111 ∅ "+15550100").1 in
  let users2 := (send_verification_code cfg gw (timedelta 1 0) 222222 users1 "+15550100").1 in
  (issued_code 111111 ≠ issued_code 222222 →
   verify_code (timedelta 1 1) users2 "+15550100" (issued_code 111111)
   = (users2, (false, None, Some "invalid")))
  ∧ ∃ u, (verify_code (timedelta 1 1) users2 "+15550100" (issued_code 222222)).2
         = (true, Some u, None).
Proof.
  apply (resend_replaces_the_code (mkSettings "" "" "" "") (λ _ _ _, MessageId "m")
           (mkSettings "" "" "" "") (λ _ _ _, MessageId "m")
           0 (timedelta 1 0) 111111 222222 ∅ "+15550100" (timedelta 1 1)).
  vm_compute. discriminate.
Defined.

(** X4.  [send_verification_code] stores the new code and its time stamp
    before it hands the message to the gateway, and keeps them whatever the
    gateway does: without credentials it reports (True, "debug") without
    asking the gateway; with credentials it reports success exactly when the
    gateway answers with a message id, and the gateway's error otherwise. *)
Theorem send_verification_code_delivery cfg gw now entropy
    (users : gmap string User) phone :
  let r := send_verification_code cfg gw now entropy users phone in
  let body := "Your verification code is " +:+ issued_code entropy +:+ "." in
  (∃ u, r.1 !! phone = Some u
        ∧ verification_code u = issued_code entropy
        ∧ verification_code_sent_at u = Some now)
  ∧ (has_credentials cfg = false → r.2 = (true, "debug"))
  ∧ (has_credentials cfg = true →
     match gw phone (origination_identity cfg) body with
     | MessageId id => r.2 = (true, id)
     | ClientError e | OtherException e => r.2 = (false, e)
     end).
Proof.
  intros r body. split; [apply send_verification_code_stores|].
  unfold r. rewrite send_verification_code_message. fold body. unfold deliver.
  split; intros ->; [done|]. by destruct (gw _ _ _).
Qed.

(** X5.  The verification service writes one row, that of the database
    value of its argument: whatever way the number is written,
    [send_verification_code] and [verify_code] leave the rows of all other
    database values alone; sending a code to a known number keeps its name
    and its verified flag, and a successful verification keeps the name.  On
    an argument that is its own database value this is the row of the
    argument. *)
Theorem verification_touches_one_row get_prep_value cfg gw now entropy
    (users : gmap string User) phone code :
  let key := get_prep_value phone in
  let sent := send_verification_code_raw get_prep_value cfg gw now entropy
                users phone in
  let verified := verify_code_raw get_prep_value now users phone code in
  (∀ other, other ≠ key →
     sent.1 !! other = users !! other ∧ verified.1 !! other = users !! other)
  ∧ (∀ u, users !! key = Some u →
       (∃ u1, sent.1 !! key = Some u1
              ∧ name u1 = name u ∧ is_verified u1 = is_verified u
              ∧ phone_number u1 = phone_number u)
       ∧ (∃ u2, verified.1 !! key = Some u2
                ∧ name u2 = name u ∧ phone_number u2 = phone_number u
                ∧ (is_verified u = true → is_verified u2 = true)))
  ∧ (key = phone →
     sent = send_verification_code cfg gw now entropy users phone
     ∧ verified = verify_code now users phone code).
Proof.
  intros key sent verified. split_and!.
  - intros other Hother. split.
    + unfold sent, send_verification_code_raw. simpl.
      by rewrite lookup_insert_ne.
    + unfold verified, verify_code_raw, verify_code. fold key.
      destruct (users !! key) as [u|]; [|done].
      destruct (is_verification_code_expired now u); [done|].
      case_bool_decide; [|done]. simpl. by rewrite lookup_insert_ne.
  - intros u Hu. split.
    + unfold sent, send_verification_code_raw. simpl. fold key.
      rewrite Hu. simpl. eexists. rewrite lookup_insert_eq. by split.
    + unfold verified, verify_code_raw, verify_code. fold key. rewrite Hu.
      destruct (is_verification_code_expired now u); [by exists u|].
      case_bool_decide; [|by exists u]. simpl.
      eexists. rewrite lookup_insert_eq. by split.
  - intros Hkey. unfold sent, verified, send_verification_code_raw,
      verify_code_raw, send_verification_code. fold key. by rewrite Hkey.
Qed.

(** A number written in another way reaches the row of its database value:
    the code for "(555) 0100" is stored in the row of [ada], and no row is
    made for the argument as it was written. *)
Example another_spelling_reaches_the_row :
  let users := Samples.people in
  let sent := send_verification_code_raw Samples.one_spelling
                Samples.auth_settings Samples.gateway_up 0 42 users
                "(555) 0100" in
  (verification_code <$> sent.1 !! Samples.ada) = Some (issued_code 42)
  ∧ sent.1 !! "(555) 0100" = None
  ∧ (verify_code_raw Samples.one_spelling 1 sent.1 "(555) 0100"
                     (issued_code 42)).2.1.1 = true.
Proof. split_and!; vm_compute; reflexivity. Qed.

End VerificationService.


(** ** Rows that keep their co-organizers *)

Section SameOrganizers.
Import Models.

Lemma same_organizers_refl m : System.same_organizers m m.
Proof. intros id e' He'. by exists e'. Qed.

Lemma same_organizers_trans m1 m2 m3 :
  System.same_organizers m1 m2 → System.same_organizers m2 m3 →
  System.same_organizers m1 m3.
Proof.
  intros H12 H23 id e3 He3.
  destruct (H23 id e3 He3) as (e2 & He2 & Ho2).
  destruct (H12 id e2 He2) as (e1 & He1 & Ho1).
  exists e1. split; [done|congruence].
Qed.

Lemma same_organizers_at_most n db db' :
  System.same_organizers (events db) (events db') →
  System.organizers_at_most n db → System.organizers_at_most n db'.
Proof.
  intros Hsame Hcap id e' He'. destruct (Hsame id e' He') as (e & He & ->).
  by apply (Hcap id e).
Qed.

End SameOrganizers.


(** ** Scheduled reminder job *)

Section ReminderJob.
Import Models Tasks.

Lemma events_with_events v db : events (with_events v db) = v.
Proof. reflexivity. Qed.

(** Setting either flag keeps a flag that is set. *)
Lemma mark_keeps_sent kind kind' e :
  reminder_sent kind e = true →
  reminder_sent kind (mark_reminder_sent kind' e) = true.
Proof. by destruct kind, kind'. Qed.

Lemma mark_sets_sent kind e : reminder_sent kind (mark_reminder_sent kind e) = true.
Proof. by destruct kind. Qed.

(** An event selected by the query is a row of the table, and is due. *)
Lemma elem_of_due_events kind now db id e :
  (id, e) ∈ due_events kind now db ↔ events db !! id = Some e ∧ due kind now e = true.
Proof.
  unfold due_events. rewrite list_elem_of_filter, elem_of_map_to_list. simpl.
  rewrite Is_true_true. tauto.
Qed.

Lemma due_not_sent kind now e : due kind now e = true → reminder_sent kind e = false.
Proof.
  unfold due. rewrite !andb_true_iff, negb_true_iff. tauto.
Qed.

(** One reminder writes no table; its log entry is for the event and the
    batch it is sent for. *)
Lemma remind_recipient_spec env kind id e run phone :
  run_db (remind_recipient env kind id e run phone) = run_db run
  ∧ ∃ d, run_log (remind_recipient env kind id e run phone) = run_log run ++ [d]
         ∧ delivery_event d = id ∧ delivery_kind d = kind.
Proof.
  unfold remind_recipient.
  destruct (Auth.send_event_update _ _ _ _) as [[] ?]; simpl;
    (split; [done|]; eexists; split; [done|]; done).
Qed.

(** So does the inner loop. *)
Lemma remind_recipients_spec env kind id e phones run :
  let run' := foldl (remind_recipient env kind id e) run phones in
  run_db run' = run_db run
  ∧ ∃ new, run_log run' = run_log run ++ new
           ∧ Forall (λ d, delivery_event d = id ∧ delivery_kind d = kind) new.
Proof.
  revert run. induction phones as [|phone phones IH]; intros run; simpl.
  - split; [done|]. exists []. by rewrite app_nil_r.
  - destruct (IH (remind_recipient env kind id e run phone)) as (Hdb & new & Hlog & Hnew).
    destruct (remind_recipient_spec env kind id e run phone) as (Hdb1 & d & Hlog1 & Hd).
    split; [congruence|]. exists (d :: new).
    rewrite Hlog, Hlog1, <- app_assoc. split; [done|]. by constructor.
Qed.

Lemma remind_event_spec env kind run kv :
  let run' := remind_event env kind run kv in
  events (run_db run')
  = <[kv.1 := mark_reminder_sent kind kv.2]> (events (run_db run))
  ∧ ∃ new, run_log run' = run_log run ++ new
           ∧ Forall (λ d, delivery_event d = kv.1 ∧ delivery_kind d = kind) new.
Proof.
  unfold remind_event. simpl.
  destruct (remind_recipients_spec env kind kv.1 kv.2
              (rsvps_with_status (run_db run) kv.1 "attending") run)
    as (Hdb & new & Hlog & Hnew).
  simpl in *. rewrite Hdb. split; [done|]. by exists new.
Qed.

(** The outer loop over any list of selected events: its log entries. *)
Lemma remind_events_log env kind l run :
  ∃ new, run_log (foldl (remind_event env kind) run l) = run_log run ++ new
         ∧ Forall (λ d, delivery_kind d = kind
                        ∧ ∃ e, (delivery_event d, e) ∈ l) new.
Proof.
  revert run. induction l as [|kv l IH]; intros run; simpl.
  - exists []. by rewrite app_nil_r.
  - destruct (IH (remind_event env kind run kv)) as (new2 & Hlog2 & Hnew2).
    destruct (remind_event_spec env kind run kv) as (_ & new1 & Hlog1 & Hnew1).
    exists (new1 ++ new2). rewrite Hlog2, Hlog1, <- app_assoc. split; [done|].
    apply Forall_app. split.
    + eapply Forall_impl; [exact Hnew1|]. intros d [Hid Hk]. split; [done|].
      exists kv.2. rewrite Hid. destruct kv. apply list_elem_of_here.
    + eapply Forall_impl; [exact Hnew2|]. intros d [Hk [e He]]. split; [done|].
      exists e. by apply list_elem_of_further.
Qed.

(** The outer loop keeps a property of a row that every save of that row
    establishes. *)
Lemma remind_events_row env kind (P : Event → Prop) id l run e :
  (∀ ev, (id, ev) ∈ l → P (mark_reminder_sent kind ev)) →
  events (run_db run) !! id = Some e → P e →
  ∃ e', events (run_db (foldl (remind_event env kind) run l)) !! id = Some e'
        ∧ P e'.
Proof.
  revert run e. induction l as [|kv l IH]; intros run e Hsave Hrow HP; simpl.
  - by exists e.
  - destruct (remind_event_spec env kind run kv) as (Hev & _).
    destruct (decide (kv.1 = id)) as [Heq|Hne].
    + apply (IH _ (mark_reminder_sent kind kv.2)).
      * intros ev Hin. apply Hsave. by apply list_elem_of_further.
      * rewrite Hev, Heq. apply lookup_insert_eq.
      * apply Hsave. rewrite <- Heq. destruct kv. apply list_elem_of_here.
    + apply (IH _ e).
      * intros ev Hin. apply Hsave. by apply list_elem_of_further.
      * rewrite Hev. by rewrite lookup_insert_ne.
      * done.
Qed.

(** Every event the loop goes through has its flag set afterwards. *)
Lemma remind_events_marks env kind id ev l run :
  (id, ev) ∈ l →
  ∃ e', events (run_db (foldl (remind_event env kind) run l)) !! id = Some e'
        ∧ reminder_sent kind e' = true.
Proof.
  revert run. induction l as [|kv l IH]; intros run Hin; simpl.
  - by apply elem_of_nil in Hin.
  - apply elem_of_cons in Hin as [Heq|Hin]; [|by apply IH].
    destruct (remind_event_spec env kind run kv) as (Hev & _).
    apply (remind_events_row env kind (λ e, reminder_sent kind e = true) id l _
             (mark_reminder_sent kind ev)).
    + intros. apply mark_sets_sent.
    + rewrite Hev, <- Heq. simpl. apply lookup_insert_eq.
    + apply mark_sets_sent.
Qed.

(** One pass of the job, of either kind, on an event whose [kind] flag is
    set: the flag stays set and nothing of that batch is sent for it. *)
Lemma remind_pass_latch env kind' now run kind id e :
  events (run_db run) !! id = Some e →
  reminder_sent kind e = true →
  (∃ e', events (run_db (remind_pass env kind' now run)) !! id = Some e'
         ∧ reminder_sent kind e' = true)
  ∧ ∃ new, run_log (remind_pass env kind' now run) = run_log run ++ new
           ∧ Forall (λ d, ¬ (delivery_event d = id ∧ delivery_kind d = kind)) new.
Proof.
  intros Hrow Hsent. unfold remind_pass. split.
  - apply (remind_events_row env kind' (λ e, reminder_sent kind e = true) id _ _ e);
      [|done|done].
    intros ev Hin. apply elem_of_due_events in Hin as [Hrow' _].
    rewrite Hrow in Hrow'. injection Hrow' as <-. by apply mark_keeps_sent.
  - destruct (remind_events_log env kind' (due_events kind' now (run_db run)) run)
      as (new & Hlog & Hnew).
    exists new. split; [done|].
    eapply Forall_impl; [exact Hnew|].
    intros d [Hk [ev Hin]] [Hid Hkind].
    rewrite Hid in Hin. apply elem_of_due_events in Hin as [Hrow' Hdue].
    rewrite Hrow in Hrow'. injection Hrow' as <-.
    apply due_not_sent in Hdue. congruence.
Qed.

(** The same for a whole run of the job. *)
Lemma send_event_reminders_latch env now db kind id e :
  events db !! id = Some e →
  reminder_sent kind e = true →
  (∀ d, d ∈ run_log (send_event_reminders env now db).1 →
        ¬ (delivery_event d = id ∧ delivery_kind d = kind))
  ∧ ∃ e', events (run_db (send_event_reminders env now db).1) !! id = Some e'
          ∧ reminder_sent kind e' = true.
Proof.
  intros Hrow Hsent. unfold send_event_reminders. simpl.
  destruct (remind_pass_latch env Reminder24h now (mkRun db [] 0 0) kind id e)
    as ((e1 & Hrow1 & Hsent1) & new1 & Hlog1 & Hnew1); [done..|].
  destruct (remind_pass_latch env Reminder1h now
              (remind_pass env Reminder24h now (mkRun db [] 0 0)) kind id e1)
    as ((e2 & Hrow2 & Hsent2) & new2 & Hlog2 & Hnew2); [done..|].
  split; [|by exists e2].
  intros d Hd. rewrite Hlog2, Hlog1 in Hd. simpl in Hd.
  apply elem_of_app in Hd as [Hd|Hd].
  - by apply (proj1 (Forall_forall _ _) Hnew1).
  - by apply (proj1 (Forall_forall _ _) Hnew2).
Qed.

(** Setting one flag does not change whether the event is due for the
    other batch. *)
Lemma due_mark_other kind kind' now e :
  kind ≠ kind' →
  due kind now (mark_reminder_sent kind' e) = due kind now e.
Proof. by destruct kind, kind'. Qed.

(** A run sets the flag of every event it found due. *)
Lemma send_event_reminders_marks env now db kind id e :
  events db !! id = Some e →
  due kind now e = true →
  ∃ e', events (run_db (send_event_reminders env now db).1) !! id = Some e'
        ∧ reminder_sent kind e' = true.
Proof.
  intros Hrow Hdue. unfold send_event_reminders. simpl.
  set (run0 := mkRun db [] 0 0).
  destruct kind.
  - destruct (remind_events_marks env Reminder24h id e
                (due_events Reminder24h now db) run0) as (e1 & Hrow1 & Hsent1).
    { by apply elem_of_due_events. }
    by destruct (remind_pass_latch env Reminder1h now
                   (remind_pass env Reminder24h now run0) Reminder24h id e1)
      as [? _].
  - destruct (remind_events_row env Reminder24h
                (λ e', due Reminder1h now e' = true) id
                (due_events Reminder24h now db) run0 e) as (e1 & Hrow1 & Hdue1);
      [|done|done|].
    { intros ev Hin. apply elem_of_due_events in Hin as [Hrow' _].
      simpl in Hrow'. rewrite Hrow in Hrow'. injection Hrow' as <-.
      by rewrite due_mark_other. }
    apply (remind_events_marks env Reminder1h id e1).
    by apply elem_of_due_events.
Qed.

(** The job changes nobody's co-organizers and adds no event. *)
Lemma organizers_mark_reminder_sent kind e :
  organizers (mark_reminder_sent kind e) = organizers e.
Proof. by destruct kind. Qed.

Lemma remind_events_same_organizers env kind m0 l run :
  (∀ id ev, (id, ev) ∈ l → m0 !! id = Some ev) →
  System.same_organizers m0 (events (run_db run)) →
  System.same_organizers m0
    (events (run_db (foldl (remind_event env kind) run l))).
Proof.
  revert run. induction l as [|kv l IH]; intros run Hl Hrun; simpl; [done|].
  apply IH.
  - intros id ev Hin. apply Hl. by apply list_elem_of_further.
  - destruct (remind_event_spec env kind run kv) as (-> & _).
    intros id e'. destruct (decide (kv.1 = id)) as [<-|Hne].
    + rewrite lookup_insert_eq. intros [= <-]. exists kv.2. split.
      * apply Hl. destruct kv. apply list_elem_of_here.
      * apply organizers_mark_reminder_sent.
    + rewrite lookup_insert_ne by done. apply Hrun.
Qed.

Lemma remind_pass_same_organizers env kind now run :
  System.same_organizers (events (run_db run))
    (events (run_db (remind_pass env kind now run))).
Proof.
  apply remind_events_same_organizers; [|apply same_organizers_refl].
  intros id ev Hin. by apply elem_of_due_events in Hin as [? _].
Qed.

Lemma send_event_reminders_same_organizers env now db :
  System.same_organizers (events db)
    (events (run_db (send_event_reminders env now db).1)).
Proof.
  unfold send_event_reminders. simpl.
  eapply same_organizers_trans; [|apply remind_pass_same_organizers].
  apply (remind_pass_same_organizers env Reminder24h now (mkRun db [] 0 0)).
Qed.

(** C5: an event whose reminder flag (24h or 1h) is set, or that the job
    finds due and therefore sets the flag of, gets nothing of that batch from
    a second run of the job, whenever that run happens and whatever the
    gateway answers; and the flag is still set after it.  An event whose flag
    was already set gets nothing from the first run either. *)
Theorem reminder_flag_is_a_latch env1 env2 now1 now2 db kind id e :
  events db !! id = Some e →
  reminder_sent kind e = true ∨ due kind now1 e = true →
  let first := (send_event_reminders env1 now1 db).1 in
  let second := (send_event_reminders env2 now2 (run_db first)).1 in
  (reminder_sent kind e = true →
   ∀ d, d ∈ run_log first → ¬ (delivery_event d = id ∧ delivery_kind d = kind))
  ∧ (∃ e1, events (run_db first) !! id = Some e1 ∧ reminder_sent kind e1 = true)
  ∧ (∀ d, d ∈ run_log second → ¬ (delivery_event d = id ∧ delivery_kind d = kind))
  ∧ (∃ e2, events (run_db second) !! id = Some e2 ∧ reminder_sent kind e2 = true).
Proof.
  intros Hrow Hor first second.
  assert (∃ e1, events (run_db first) !! id = Some e1
                ∧ reminder_sent kind e1 = true) as (e1 & Hrow1 & Hsent1).
  { destruct Hor as [Hsent|Hdue].
    - by destruct (send_event_reminders_latch env1 now1 db kind id e).
    - by apply (send_event_reminders_marks env1 now1 db kind id e). }
  split; [|split; [by exists e1|]].
  - intros Hsent. by destruct (send_event_reminders_latch env1 now1 db kind id e).
  - by destruct (send_event_reminders_latch env2 now2 (run_db first) kind id e1).
Qed.

Lemma reminder_flag_is_a_latch_witness :
  let db := Samples.db_party None ∅ Samples.bob_attends ∅ in
  let first := (send_event_reminders Samples.task_env 0 db).1 in
  let second := (send_event_reminders Samples.task_env 1 (run_db first)).1 in
  (reminder_sent Reminder24h (Samples.party None) = true →
   ∀ d, d ∈ run_log first →
        ¬ (delivery_event d = 7%N ∧ delivery_kind d = Reminder24h))
  ∧ (∃ e1, events (run_db first) !! 7%N = Some e1
           ∧ reminder_sent Reminder24h e1 = true)
  ∧ (∀ d, d ∈ run_log second →
          ¬ (delivery_event d = 7%N ∧ delivery_kind d = Reminder24h))
  ∧ (∃ e2, events (run_db second) !! 7%N = Some e2
           ∧ reminder_sent Reminder24h e2 = true).
Proof.
  apply (reminder_flag_is_a_latch Samples.task_env Samples.task_env 0 1
           (Samples.db_party None ∅ Samples.bob_attends ∅) Reminder24h 7%N (Samples.party None)).
  - reflexivity.
  - right. vm_compute. reflexivity.
Defined.

(** On the sample data the first run sends the one reminder and the second
    run, a second later, sends none. *)
Example reminder_runs_twice :
  let first := (send_event_reminders Samples.task_env 0 (Samples.db_party None ∅ Samples.bob_attends ∅)).1 in
  let second := (send_event_reminders Samples.task_env 1 (run_db first)).1 in
  (delivery_phone <$> run_log first) = [Samples.bob]
  ∧ run_log second = [].
Proof. vm_compute. done. Qed.

End ReminderJob.


(** ** Image pipeline *)

Section ImagePipeline.
Import Models Tasks.

Lemma keeps_rows_ret {A : Type} (a : A) : keeps_rows (mret a).
Proof. by intros db i. Qed.

Lemma keeps_rows_raise {A : Type} exc : keeps_rows (@raise A exc).
Proof. by intros db i. Qed.

Lemma keeps_rows_bind {A B : Type} (c : Job A) (f : A → Job B) :
  keeps_rows c → (∀ a, keeps_rows (f a)) → keeps_rows (c ≫= f).
Proof.
  intros Hc Hf db i Hi. unfold mbind, Job_bind.
  specialize (Hc db i Hi). destruct (c db) as [db' [exc|a]]; simpl in *.
  - done.
  - by apply Hf.
Qed.

Lemma keeps_rows_may_raise o : keeps_rows (may_raise o).
Proof. destruct o; [apply keeps_rows_raise|apply keeps_rows_ret]. Qed.

Lemma keeps_rows_best_effort c : keeps_rows c → keeps_rows (best_effort c).
Proof.
  intros Hc db i Hi. unfold best_effort. specialize (Hc db i Hi).
  by destruct (c db) as [db' [exc|a]].
Qed.

Lemma keeps_rows_update_instance id f : keeps_rows (update_instance id f).
Proof.
  intros db i [e He]. unfold update_instance. simpl.
  rewrite lookup_alter. case_decide; simplify_eq; rewrite He; by eexists.
Qed.

Lemma keeps_rows_get_event id : keeps_rows (get_event id).
Proof. intros db i Hi. unfold get_event. by destruct (events db !! id). Qed.

Create HintDb rows.

#[local] Hint Resolve keeps_rows_ret keeps_rows_raise keeps_rows_may_raise
  keeps_rows_best_effort keeps_rows_update_instance keeps_rows_get_event
  : rows.

Lemma process_body_keeps_rows cfg w model_type id path :
  keeps_rows (process_body cfg w model_type id path).
Proof.
  unfold process_body.
  repeat (apply keeps_rows_bind; [|intros]); auto with rows.
  - case_bool_decide; [|auto with rows].
    apply keeps_rows_bind; [|intros]; auto with rows.
  - destruct (temp_file_exists w); auto with rows.
Qed.

(** The [except] block marks an existing event failed. *)
Lemma mark_failed_status id db e :
  events db !! id = Some e →
  events (mark_failed "event" id db).1 !! id
  = Some (set_processing_status "failed" e).
Proof.
  intros He. unfold mark_failed, best_effort, mbind, Job_bind, get_event,
    update_instance. simpl. rewrite He. simpl.
  rewrite lookup_alter. case_decide; [|done]. by rewrite He.
Qed.

(** What an execution does once its [try] block has raised. *)
Lemma process_uploaded_image_on_raise cfg w retries model_type id path db exc :
  (process_body cfg w model_type id path db).2 = inl exc →
  process_uploaded_image cfg w retries model_type id path db
  = ((mark_failed model_type id (process_body cfg w model_type id path db).1).1,
     if bool_decide (retries < max_retries)%nat
     then RetryScheduled exc (countdown retries)
     else Returned (ImageFailure exc)).
Proof.
  intros Hraise. unfold process_uploaded_image.
  destruct (process_body cfg w model_type id path db) as [db' [exc'|[a b]]];
    simpl in *; [|done].
  injection Hraise as ->. by case_bool_decide.
Qed.

Lemma failed_status_after_raise cfg w retries id path db e exc :
  events db !! id = Some e →
  (process_body cfg w "event" id path db).2 = inl exc →
  ∃ e', events (process_uploaded_image cfg w retries "event" id path db).1 !! id
        = Some e'
        ∧ cover_photo_processing_status e' = "failed".
Proof.
  intros He Hraise.
  rewrite (process_uploaded_image_on_raise _ _ _ _ _ _ _ _ Hraise). simpl.
  destruct (process_body_keeps_rows cfg w "event" id path db id) as [e1 He1];
    [by eexists|].
  rewrite (mark_failed_status _ _ _ He1). by eexists.
Qed.

(** A staged file that exists but is not an image makes the [try] block
    raise what [img.verify()] raised. *)
Lemma process_body_corrupt cfg w id path db e exc :
  events db !! id = Some e →
  temp_file_exists w = true →
  verify_raises w = Some exc →
  (process_body cfg w "event" id path db).2 = inl exc.
Proof.
  intros He Hfile Hverify.
  unfold process_body, mbind, Job_bind, get_event, update_instance. simpl.
  rewrite He, Hfile, Hverify. reflexivity.
Qed.

(** The job changes nobody's co-organizers and adds no event. *)
Lemma keeps_organizers_ret {A : Type} (a : A) : System.keeps_organizers (mret a).
Proof. intros db. apply same_organizers_refl. Qed.

Lemma keeps_organizers_raise {A : Type} exc :
  System.keeps_organizers (@raise A exc).
Proof. intros db. apply same_organizers_refl. Qed.

Lemma keeps_organizers_bind {A B : Type} (c : Job A) (f : A → Job B) :
  System.keeps_organizers c → (∀ a, System.keeps_organizers (f a)) →
  System.keeps_organizers (c ≫= f).
Proof.
  intros Hc Hf db. unfold mbind, Job_bind.
  specialize (Hc db). destruct (c db) as [db' [exc|a]]; simpl in *; [done|].
  eapply same_organizers_trans; [exact Hc|apply Hf].
Qed.

Lemma keeps_organizers_may_raise o : System.keeps_organizers (may_raise o).
Proof.
  destruct o; [apply keeps_organizers_raise|apply keeps_organizers_ret].
Qed.

Lemma keeps_organizers_best_effort c :
  System.keeps_organizers c → System.keeps_organizers (best_effort c).
Proof.
  intros Hc db. unfold best_effort. specialize (Hc db).
  by destruct (c db) as [db' [exc|a]].
Qed.

Lemma keeps_organizers_update_instance id f :
  (∀ e, organizers (f e) = organizers e) →
  System.keeps_organizers (update_instance id f).
Proof.
  intros Hf db i e'. unfold update_instance. simpl.
  rewrite lookup_alter. case_decide as Hi; [|by exists e'].
  subst i. destruct (events db !! id) as [e|]; [|done]. simpl.
  intros [= <-]. by exists e.
Qed.

Lemma keeps_organizers_get_event id : System.keeps_organizers (get_event id).
Proof.
  intros db. unfold get_event.
  destruct (events db !! id); apply same_organizers_refl.
Qed.

#[local] Hint Resolve keeps_organizers_ret keeps_organizers_raise
  keeps_organizers_may_raise keeps_organizers_best_effort
  keeps_organizers_get_event : rows.

Lemma process_body_keeps_organizers cfg w model_type id path :
  System.keeps_organizers (process_body cfg w model_type id path).
Proof.
  unfold process_body.
  repeat (apply keeps_organizers_bind; [|intros]); auto with rows.
  - case_bool_decide; [|auto with rows].
    apply keeps_organizers_bind; [|intros]; auto with rows.
  - by apply keeps_organizers_update_instance.
  - destruct (temp_file_exists w); auto with rows.
  - by apply keeps_organizers_update_instance.
Qed.

Lemma mark_failed_keeps_organizers model_type id :
  System.keeps_organizers (mark_failed model_type id).
Proof.
  unfold mark_failed. apply keeps_organizers_best_effort.
  case_bool_decide; [|auto with rows].
  apply keeps_organizers_bind; [auto with rows|intros].
  by apply keeps_organizers_update_instance.
Qed.

Lemma process_uploaded_image_same_organizers cfg w retries model_type id path db :
  System.same_organizers (events db)
    (events (process_uploaded_image cfg w retries model_type id path db).1).
Proof.
  unfold process_uploaded_image.
  pose proof (process_body_keeps_organizers cfg w model_type id path db) as Hbody.
  destruct (process_body cfg w model_type id path db) as [db1 [exc|[avif webp]]];
    simpl in *; [|done].
  pose proof (mark_failed_keeps_organizers model_type id db1) as Hfailed.
  case_bool_decide; simpl; by eapply same_organizers_trans.
Qed.

(** *** The failure policy, against a database that can fail *)

(** When every query is answered, the job is the one above. *)
Lemma process_uploaded_image_db_no_faults cfg w retries model_type id path db :
  process_body_db no_faults cfg w model_type id path db
  = process_body cfg w model_type id path db
  ∧ mark_failed_db no_faults model_type id db = mark_failed model_type id db
  ∧ process_uploaded_image_db no_faults cfg w retries model_type id path db
    = process_uploaded_image cfg w retries model_type id path db.
Proof.
  assert (∀ db', process_body_db no_faults cfg w model_type id path db'
                 = process_body cfg w model_type id path db') as Hbody.
  { intros db'. unfold process_body_db, process_body, mbind, Job_bind. simpl.
    case_bool_decide; [|done]. unfold get_event.
    destruct (events db' !! id); done. }
  assert (∀ db', mark_failed_db no_faults model_type id db'
                 = mark_failed model_type id db') as Hfailed.
  { intros db'. unfold mark_failed_db, mark_failed, best_effort, mbind, Job_bind.
    simpl. case_bool_decide; [|done]. unfold get_event.
    destruct (events db' !! id); done. }
  split_and!; [apply Hbody|apply Hfailed|].
  unfold process_uploaded_image_db, process_uploaded_image. rewrite Hbody.
  destruct (process_body cfg w model_type id path db) as [db' [exc|[avif webp]]];
    [|done].
  by rewrite Hfailed.
Qed.

(** What an execution does once its [try] block has raised. *)
Lemma process_uploaded_image_db_on_raise faults cfg w retries model_type id path
    db exc :
  (process_body_db faults cfg w model_type id path db).2 = inl exc →
  process_uploaded_image_db faults cfg w retries model_type id path db
  = ((mark_failed_db faults model_type id
        (process_body_db faults cfg w model_type id path db).1).1,
     if bool_decide (retries < max_retries)%nat
     then RetryScheduled exc (countdown retries)
     else Returned (ImageFailure exc)).
Proof.
  intros Hraise. unfold process_uploaded_image_db.
  destruct (process_body_db faults cfg w model_type id path db)
    as [db' [exc'|[a b]]]; simpl in *; [|done].
  injection Hraise as ->. by case_bool_decide.
Qed.

(** The row of the event when the [try] block has raised: the block had
    marked it "processing", unless its first two queries did not both go
    through. *)
Lemma process_body_db_raised faults cfg w id path db e exc :
  events db !! id = Some e →
  (process_body_db faults cfg w "event" id path db).2 = inl exc →
  events (process_body_db faults cfg w "event" id path db).1 !! id
  = Some (match get_raises faults, save_processing_raises faults with
          | None, None => set_processing_status "processing" e
          | _, _ => e
          end).
Proof.
  intros He. unfold process_body_db, mbind, Job_bind, get_event, update_instance,
    best_effort. simpl.
  destruct (get_raises faults); simpl; [done|]. rewrite He. simpl.
  destruct (save_processing_raises faults); simpl; [done|].
  assert (alter (set_processing_status "processing") id (events db) !! id
          = Some (set_processing_status "processing" e)) as Hrow.
  { rewrite lookup_alter, decide_True by done. by rewrite He. }
  destruct (temp_file_exists w); simpl; [|done].
  destruct (verify_raises w); simpl; [done|].
  destruct (remove_gps_raises w); simpl;
    (destruct (resize_raises w); simpl; [done|]);
    (destruct (avif_raises w); simpl; [done|]);
    (destruct (webp_raises w); simpl; [done|]);
    (destruct (store_raises w); simpl; [done|]);
    (destruct (save_complete_raises faults); simpl; [done|]);
    destruct (remove_temp_raises w); simpl; discriminate.
Qed.

(** The [except] block: it marks the event "failed" when its two queries go
    through, and writes nothing when one of them raises. *)
Lemma mark_failed_db_row faults id db e :
  events db !! id = Some e →
  (get_failed_raises faults = None → save_failed_raises faults = None →
   events (mark_failed_db faults "event" id db).1 !! id
   = Some (set_processing_status "failed" e))
  ∧ (get_failed_raises faults ≠ None ∨ save_failed_raises faults ≠ None →
     (mark_failed_db faults "event" id db).1 = db).
Proof.
  intros He. unfold mark_failed_db, best_effort, mbind, Job_bind, get_event,
    update_instance. simpl.
  destruct (get_failed_raises faults); simpl.
  - split; [done|]. done.
  - rewrite He. simpl. destruct (save_failed_raises faults); simpl.
    + split; [done|]. done.
    + split; [|by intros [?|?]]. intros _ _.
      rewrite lookup_alter, decide_True by done. by rewrite He.
Qed.

(** C6, as the code has it: an execution of the job whose [try] block raises
    [exc], be it for the file, the image library, the storage or the
    database, asks for a retry after 60 * 2^retries seconds while fewer than
    three retries were made, and returns the failure dictionary carrying
    [exc], instead of raising, once the three retries are used up.  Before
    that it marks the event "failed" (so not "processing") if the two queries
    of its [except] block go through; if one of them raises, the exception is
    only logged and the status stays what the [try] block left: "processing"
    when the block had saved that status, the status before the execution
    when it had not. *)
Theorem image_job_failure_policy faults cfg w retries id path db e exc :
  events db !! id = Some e →
  (process_body_db faults cfg w "event" id path db).2 = inl exc →
  let result := process_uploaded_image_db faults cfg w retries "event" id path db in
  ((retries < 3)%nat →
   result.2 = RetryScheduled exc (60 * 2 ^ Z.of_nat retries))
  ∧ ((3 ≤ retries)%nat → result.2 = Returned (ImageFailure exc))
  ∧ (get_failed_raises faults = None → save_failed_raises faults = None →
     ∃ e', events result.1 !! id = Some e'
           ∧ cover_photo_processing_status e' = "failed"
           ∧ cover_photo_processing_status e' ≠ "processing")
  ∧ (get_failed_raises faults ≠ None ∨ save_failed_raises faults ≠ None →
     ∃ e', events result.1 !! id = Some e'
           ∧ cover_photo_processing_status e'
             = match get_raises faults, save_processing_raises faults with
               | None, None => "processing"
               | _, _ => cover_photo_processing_status e
               end).
Proof.
  intros He Hraise result.
  pose proof (process_body_db_raised faults cfg w id path db e exc He Hraise)
    as Hrow.
  destruct (mark_failed_db_row faults id _ _ Hrow) as [Hmarked Hlogged].
  unfold result.
  rewrite (process_uploaded_image_db_on_raise _ _ _ _ _ _ _ _ _ Hraise).
  cbn [fst snd]. unfold max_retries, countdown.
  split_and!.
  - intros Hr. by rewrite bool_decide_eq_true_2.
  - intros Hr. rewrite bool_decide_eq_false_2; [done|lia].
  - intros Hget Hsave. rewrite (Hmarked Hget Hsave).
    eexists. split; [done|]. by split.
  - intros Hfault. rewrite (Hlogged Hfault), Hrow.
    eexists. split; [done|].
    by destruct (get_raises faults), (save_processing_raises faults).
Qed.

Lemma image_job_failure_policy_witness :
  let db := Samples.db_party None ∅ Samples.bob_attends ∅ in
  let result :=
    process_uploaded_image_db Samples.failed_write_fails Samples.storage
      Samples.corrupt 3 "event" 7 "/tmp/upload.jpg" db in
  ((3 < 3)%nat →
   result.2 = RetryScheduled "cannot identify image file" (60 * 2 ^ Z.of_nat 3))
  ∧ ((3 ≤ 3)%nat → result.2 = Returned (ImageFailure "cannot identify image file"))
  ∧ (get_failed_raises Samples.failed_write_fails = None →
     save_failed_raises Samples.failed_write_fails = None →
     ∃ e', events result.1 !! 7%N = Some e'
           ∧ cover_photo_processing_status e' = "failed"
           ∧ cover_photo_processing_status e' ≠ "processing")
  ∧ (get_failed_raises Samples.failed_write_fails ≠ None
     ∨ save_failed_raises Samples.failed_write_fails ≠ None →
     ∃ e', events result.1 !! 7%N = Some e'
           ∧ cover_photo_processing_status e'
             = match get_raises Samples.failed_write_fails,
                     save_processing_raises Samples.failed_write_fails with
               | None, None => "processing"
               | _, _ => cover_photo_processing_status (Samples.party None)
               end).
Proof.
  refine (image_job_failure_policy Samples.failed_write_fails Samples.storage
            Samples.corrupt 3 7%N "/tmp/upload.jpg"
            (Samples.db_party None ∅ Samples.bob_attends ∅) (Samples.party None)
            "cannot identify image file" _ _).
  - reflexivity.
  - vm_compute. reflexivity.
Defined.

(** C6 as stated fails when the write of "failed" does: the file is corrupt,
    the three retries are used up, the job returns the failure dictionary,
    and the event is left "processing". *)
Lemma failed_write_leaves_processing :
  let db := Samples.db_party None ∅ Samples.bob_attends ∅ in
  let result :=
    process_uploaded_image_db Samples.failed_write_fails Samples.storage
      Samples.corrupt 3 "event" 7 "/tmp/upload.jpg" db in
  (process_body_db Samples.failed_write_fails Samples.storage Samples.corrupt
     "event" 7 "/tmp/upload.jpg" db).2 = inl "cannot identify image file"
  ∧ result.2 = Returned (ImageFailure "cannot identify image file")
  ∧ (cover_photo_processing_status <$> events db !! 7%N) = Some "pending"
  ∧ (cover_photo_processing_status <$> events result.1 !! 7%N)
    = Some "processing".
Proof. vm_compute. done. Qed.

(** With the database answering, the same execution leaves it "failed". *)
Example answered_write_marks_failed :
  let db := Samples.db_party None ∅ Samples.bob_attends ∅ in
  let result :=
    process_uploaded_image_db no_faults Samples.storage Samples.corrupt 3
      "event" 7 "/tmp/upload.jpg" db in
  result.2 = Returned (ImageFailure "cannot identify image file")
  ∧ (cover_photo_processing_status <$> events result.1 !! 7%N) = Some "failed".
Proof. vm_compute. done. Qed.

(** C2, as the code has it: a staged file that fails image validation makes
    the execution mark the event "failed", and it is retried like any other
    failure: a retry after 60 * 2^retries seconds while fewer than three
    retries were made, the failure dictionary after that. *)
Theorem corrupt_file_is_retried cfg w retries id path db e exc :
  events db !! id = Some e →
  temp_file_exists w = true →
  verify_raises w = Some exc →
  let result := process_uploaded_image cfg w retries "event" id path db in
  (∃ e', events result.1 !! id = Some e'
         ∧ cover_photo_processing_status e' = "failed")
  ∧ result.2 = (if bool_decide (retries < 3)%nat
                then RetryScheduled exc (60 * 2 ^ Z.of_nat retries)
                else Returned (ImageFailure exc)).
Proof.
  intros He Hfile Hverify result.
  pose proof (process_body_corrupt cfg w id path db e exc He Hfile Hverify)
    as Hraise.
  split.
  - apply (failed_status_after_raise cfg w retries id path db e exc He Hraise).
  - unfold result.
    by rewrite (process_uploaded_image_on_raise _ _ _ _ _ _ _ _ Hraise).
Qed.

Lemma corrupt_file_is_retried_witness :
  let db := Samples.db_party None ∅ Samples.bob_attends ∅ in
  let result :=
    process_uploaded_image Samples.storage Samples.corrupt 1 "event" 7
                           "/tmp/upload.jpg" db in
  (∃ e', events result.1 !! 7%N = Some e'
         ∧ cover_photo_processing_status e' = "failed")
  ∧ result.2 = (if bool_decide (1 < 3)%nat
                then RetryScheduled "cannot identify image file"
                                    (60 * 2 ^ Z.of_nat 1)
                else Returned (ImageFailure "cannot identify image file")).
Proof.
  apply (corrupt_file_is_retried Samples.storage Samples.corrupt 1 7%N
           "/tmp/upload.jpg" (Samples.db_party None ∅ Samples.bob_attends ∅) (Samples.party None)
           "cannot identify image file"); reflexivity.
Defined.

(** C2 as stated fails: the first execution on a corrupt file asks for a
    retry in 60 seconds. *)
Lemma corrupt_file_first_execution_retries :
  temp_file_exists Samples.corrupt = true
  ∧ verify_raises Samples.corrupt = Some "cannot identify image file"
  ∧ (process_uploaded_image Samples.storage Samples.corrupt 0 "event" 7
       "/tmp/upload.jpg" (Samples.db_party None ∅ Samples.bob_attends ∅)).2
    = RetryScheduled "cannot identify image file" 60
  ∧ ¬ ∃ result,
        (process_uploaded_image Samples.storage Samples.corrupt 0 "event" 7
           "/tmp/upload.jpg" (Samples.db_party None ∅ Samples.bob_attends ∅)).2
        = Returned result.
Proof.
  repeat split. intros [result H]. vm_compute in H. discriminate.
Qed.

(** How one execution ends, for an event that exists. *)
Lemma process_uploaded_image_cases cfg w retries id path db e :
  events db !! id = Some e →
  let result := process_uploaded_image cfg w retries "event" id path db in
  (∃ avif webp e',
      result.2 = Returned (ImageSuccess avif webp)
      ∧ events result.1 !! id = Some e')
  ∨ (∃ exc e',
        result.2 = (if bool_decide (retries < max_retries)%nat
                    then RetryScheduled exc (countdown retries)
                    else Returned (ImageFailure exc))
        ∧ events result.1 !! id = Some e'
        ∧ cover_photo_processing_status e' = "failed").
Proof.
  intros He result.
  destruct ((process_body cfg w "event" id path db).2) as [exc|[avif webp]] eqn:Hbody.
  - right.
    destruct (failed_status_after_raise cfg w retries id path db e exc He Hbody)
      as (e' & He' & Hst).
    exists exc, e'. split; [|done]. unfold result.
    by rewrite (process_uploaded_image_on_raise _ _ _ _ _ _ _ _ Hbody).
  - left.
    destruct (process_body_keeps_rows cfg w "event" id path db id) as [e' He'];
      [by eexists|].
    exists avif, webp, e'. unfold result, process_uploaded_image.
    destruct (process_body cfg w "event" id path db) as [db' [?|[? ?]]];
      simpl in *; [done|]. by injection Hbody as -> ->.
Qed.

(** The queue's side, from any number of retries already made. *)
Lemma run_job_from cfg worlds id path budget :
  ∀ retries db e,
    (retries + budget = 4)%nat → (1 ≤ budget)%nat →
    events db !! id = Some e →
    ∃ db' delays result,
      run_job budget cfg worlds retries "event" id path db
      = (db', delays, Some result)
      ∧ (∀ error, result = ImageFailure error →
           delays = countdown <$> seq retries (3 - retries)
           ∧ ∃ e', events db' !! id = Some e'
                   ∧ cover_photo_processing_status e' = "failed").
Proof.
  induction budget as [|budget IH]; intros retries db e Hsum Hpos He; [lia|].
  simpl.
  destruct (process_uploaded_image_cases cfg (worlds retries) retries id path db e He)
    as [(avif & webp & e' & Hout & He')|(exc & e' & Hout & He' & Hst)];
    destruct (process_uploaded_image cfg (worlds retries) retries "event" id path db)
      as [db1 out]; simpl in *; subst out.
  - eexists _, _, _. split; [done|]. intros error Herr. discriminate.
  - unfold max_retries. case_bool_decide as Hlt.
    + destruct (IH (S retries) db1 e') as (db' & delays & result & Hrun & Hres);
        [lia|lia|done|].
      rewrite Hrun. eexists _, _, _. split; [done|].
      intros error Herr. destruct (Hres error Herr) as (-> & Hfailed).
      split; [|done].
      replace (3 - retries)%nat with (S (3 - S retries)) by lia. done.
    + eexists _, _, _. split; [done|]. intros error _.
      replace (3 - retries)%nat with 0%nat by lia. split; [done|].
      by exists e'.
Qed.

(** Started with no retries made, the job has returned after at most four
    executions; when what it returns is the failure dictionary, the three
    retries were asked for after 60, 120 and 240 seconds and the event is
    left "failed". *)
Lemma run_job_returns cfg worlds id path db e :
  events db !! id = Some e →
  ∃ db' delays result,
    run_job 4 cfg worlds 0 "event" id path db = (db', delays, Some result)
    ∧ (∀ error, result = ImageFailure error →
         delays = [60; 120; 240]
         ∧ ∃ e', events db' !! id = Some e'
                 ∧ cover_photo_processing_status e' = "failed").
Proof.
  intros He.
  destruct (run_job_from cfg worlds id path 4 0 db e) as
    (db' & delays & result & Hrun & Hres); [lia|lia|done|].
  by exists db', delays, result.
Qed.

(** A file that stays corrupt uses up the three retries. *)
Example corrupt_file_run :
  (run_job 4 Samples.storage (λ _, Samples.corrupt) 0 "event" 7
           "/tmp/upload.jpg" (Samples.db_party None ∅ Samples.bob_attends ∅)).1.2 = [60; 120; 240]
  ∧ (run_job 4 Samples.storage (λ _, Samples.corrupt) 0 "event" 7
             "/tmp/upload.jpg" (Samples.db_party None ∅ Samples.bob_attends ∅)).2
    = Some (ImageFailure "cannot identify image file").
Proof. vm_compute. done. Qed.

(** When every step works the event ends "complete". *)
Example fine_file_run :
  let result :=
    process_uploaded_image Samples.storage Samples.fine 0 "event" 7
                           "/tmp/upload.jpg" (Samples.db_party None ∅ Samples.bob_attends ∅) in
  result.2 = Returned (ImageSuccess "/media/event_covers/2026/01/01/a1.avif"
                                    "/media/event_covers/2026/01/01/b2.webp")
  ∧ cover_photo_processing_status <$> events result.1 !! 7%N = Some "complete".
Proof. vm_compute. done. Qed.

(** *** Further properties of the image pipeline *)

(** An execution in a world where the pipeline works. *)
Lemma process_uploaded_image_works cfg w retries id path db e :
  events db !! id = Some e →
  pipeline_works w →
  let avif_url := derivative_url cfg w (avif_uuid w +:+ ".avif") in
  let webp_url := derivative_url cfg w (webp_uuid w +:+ ".webp") in
  let result := process_uploaded_image cfg w retries "event" id path db in
  result.2 = Returned (ImageSuccess avif_url webp_url)
  ∧ events result.1 !! id
    = Some (set_processing_status "complete"
              (set_derivative_urls avif_url webp_url e)).
Proof.
  intros He (Hfile & Hverify & Hresize & Havif & Hwebp & Hstore).
  unfold process_uploaded_image, process_body, derivative_url.
  unfold mbind, Job_bind, get_event, update_instance, best_effort. simpl.
  rewrite He, Hfile, Hverify, Hresize, Havif, Hwebp, Hstore. simpl.
  destruct (remove_gps_raises w); simpl;
    destruct (remove_temp_raises w); simpl;
    rewrite !lookup_alter, !decide_True by done; simpl;
    rewrite ?lookup_alter, ?decide_True by done; rewrite He; simpl;
    (split; [done|]); by destruct e.
Qed.

(** X9.  When the event exists, the staged file is there and no step that can
    fail the job raises, an execution succeeds whatever [retries] is and
    whatever the status was: it returns the two URLs (on the bucket in
    production, under [MEDIA_URL] otherwise), and leaves the event "complete"
    with these URLs.  A failure to strip the GPS data or to remove the staged
    file changes nothing of this. *)
Theorem image_job_success cfg w retries id path db e :
  events db !! id = Some e →
  pipeline_works w →
  let avif_url := derivative_url cfg w (avif_uuid w +:+ ".avif") in
  let webp_url := derivative_url cfg w (webp_uuid w +:+ ".webp") in
  let result := process_uploaded_image cfg w retries "event" id path db in
  result.2 = Returned (ImageSuccess avif_url webp_url)
  ∧ events result.1 !! id
    = Some (set_processing_status "complete"
              (set_derivative_urls avif_url webp_url e))
  ∧ (∀ w', remove_gps_raises w' ≠ remove_gps_raises w
           ∨ remove_temp_raises w' ≠ remove_temp_raises w →
           pipeline_works w' → production w' = production w →
           avif_uuid w' = avif_uuid w → webp_uuid w' = webp_uuid w →
           date_path w' = date_path w →
           process_uploaded_image cfg w' retries "event" id path db = result).
Proof.
  intros He Hw avif_url webp_url result.
  destruct (process_uploaded_image_works cfg w retries id path db e He Hw)
    as [Hout Hrow].
  split; [done|]. split; [done|].
  intros w' _ (Hfile' & Hverify' & Hresize' & Havif' & Hwebp' & Hstore')
    Hprod Hau Hwu Hdp.
  destruct Hw as (Hfile & Hverify & Hresize & Havif & Hwebp & Hstore).
  unfold result, process_uploaded_image, process_body.
  unfold mbind, Job_bind, get_event, update_instance, best_effort. simpl.
  rewrite He, Hfile, Hverify, Hresize, Havif, Hwebp, Hstore.
  rewrite Hfile', Hverify', Hresize', Havif', Hwebp', Hstore'.
  rewrite Hprod, Hau, Hwu, Hdp. simpl.
  by destruct (remove_gps_raises w), (remove_gps_raises w'),
       (remove_temp_raises w), (remove_temp_raises w').
Qed.

Lemma image_job_success_witness :
  let db := Samples.db_party None ∅ Samples.bob_attends ∅ in
  let avif_url := derivative_url Samples.storage Samples.fine
                    (avif_uuid Samples.fine +:+ ".avif") in
  let webp_url := derivative_url Samples.storage Samples.fine
                    (webp_uuid Samples.fine +:+ ".webp") in
  let result := process_uploaded_image Samples.storage Samples.fine 2 "event" 7
                  "/tmp/upload.jpg" db in
  result.2 = Returned (ImageSuccess avif_url webp_url)
  ∧ events result.1 !! 7%N
    = Some (set_processing_status "complete"
              (set_derivative_urls avif_url webp_url (Samples.party None)))
  ∧ (∀ w', remove_gps_raises w' ≠ remove_gps_raises Samples.fine
           ∨ remove_temp_raises w' ≠ remove_temp_raises Samples.fine →
           pipeline_works w' → production w' = production Samples.fine →
           avif_uuid w' = avif_uuid Samples.fine →
           webp_uuid w' = webp_uuid Samples.fine →
           date_path w' = date_path Samples.fine →
           process_uploaded_image Samples.storage w' 2 "event" 7
             "/tmp/upload.jpg" db = result).
Proof.
  apply (image_job_success Samples.storage Samples.fine 2 7%N "/tmp/upload.jpg"
           (Samples.db_party None ∅ Samples.bob_attends ∅) (Samples.party None)).
  - reflexivity.
  - repeat split.
Defined.

Lemma image_frame_refl id db : image_frame id db db.
Proof.
  repeat split; try done. destruct (events db !! id) as [e|]; [|done].
  exists (cover_photo_processing_status e), (cover_photo_avif_url e),
         (cover_photo_webp_url e). by destruct e.
Qed.

Lemma image_frame_trans id db1 db2 db3 :
  image_frame id db1 db2 → image_frame id db2 db3 → image_frame id db1 db3.
Proof.
  intros (Hu & Hq & Hr & Ha & Ho & Hrow) (Hu' & Hq' & Hr' & Ha' & Ho' & Hrow').
  repeat split; try congruence.
  - intros i Hi. by rewrite Ho', Ho.
  - destruct (events db1 !! id) as [e1|], (events db2 !! id) as [e2|],
      (events db3 !! id) as [e3|]; try done.
    destruct Hrow as (s1 & a1 & w1 & ->), Hrow' as (s2 & a2 & w2 & ->).
    exists s2, a2, w2. by destruct e1.
Qed.

Lemma image_frame_update id db f :
  (∀ e, ∃ status avif webp,
          f e = set_processing_status status (set_derivative_urls avif webp e)) →
  image_frame id db (update_instance id f db).1.
Proof.
  intros Hf. unfold update_instance, image_frame. simpl.
  repeat split; try done.
  - intros i Hi. by rewrite lookup_alter_ne.
  - rewrite lookup_alter_eq. destruct (events db !! id) as [e|]; simpl; [|done].
    apply Hf.
Qed.

(** Every block of the job stays within the frame of its event. *)
Lemma process_body_frame cfg w model_type id path db :
  image_frame id db (process_body cfg w model_type id path db).1.
Proof.
  assert (∀ {A B} (c : Job A) (f : A → Job B),
            (∀ db, image_frame id db (c db).1) →
            (∀ a db, image_frame id db (f a db).1) →
            ∀ db, image_frame id db ((c ≫= f) db).1) as Hbind.
  { intros A B c f Hc Hf db0. unfold mbind, Job_bind.
    specialize (Hc db0). destruct (c db0) as [db1 [exc|a]]; simpl in *; [done|].
    eapply image_frame_trans; [exact Hc|apply Hf]. }
  assert (∀ o db, image_frame id db (may_raise o db).1) as Hmay.
  { intros [exc|] db0; apply image_frame_refl. }
  assert (∀ c, (∀ db, image_frame id db (c db).1) →
               ∀ db, image_frame id db (best_effort c db).1) as Hbest.
  { intros c Hc db0. unfold best_effort. specialize (Hc db0).
    by destruct (c db0) as [db1 [exc|a]]. }
  revert db. unfold process_body.
  repeat (apply Hbind; [|intros ?]); auto.
  - case_bool_decide; [|intros db; apply image_frame_refl].
    apply Hbind; [|intros ? db; apply image_frame_refl].
    intros db. unfold get_event.
    destruct (events db !! id); apply image_frame_refl.
  - intros db. apply image_frame_update. intros e.
    exists "processing", (cover_photo_avif_url e), (cover_photo_webp_url e).
    by destruct e.
  - intros db. destruct (temp_file_exists w); apply image_frame_refl.
  - intros db. apply image_frame_update. intros e. by eexists _, _, _.
  - intros db. apply image_frame_refl.
Qed.

Lemma mark_failed_frame model_type id db :
  image_frame id db (mark_failed model_type id db).1.
Proof.
  unfold mark_failed, best_effort, mbind, Job_bind, get_event.
  case_bool_decide; [|apply image_frame_refl].
  destruct (events db !! id) as [e|] eqn:He; simpl; [|apply image_frame_refl].
  apply (image_frame_update id db (set_processing_status "failed")).
  intros e0.
  exists "failed", (cover_photo_avif_url e0), (cover_photo_webp_url e0).
  by destruct e0.
Qed.

(** X10.  Whatever happens, an execution of the job writes only the
    processing status and the two derivative URLs of the event it was started
    for: every other table, every other event and every other column of that
    event are as before, and no event is added or removed.  When there is no
    such event, or the content type is not "event", it writes nothing at all
    and fails with the matching exception. *)
Theorem image_job_frame cfg w retries model_type id path db :
  let result := process_uploaded_image cfg w retries model_type id path db in
  image_frame id db result.1
  ∧ (model_type ≠ "event" ∨ events db !! id = None →
     result.1 = db
     ∧ ∃ exc,
         exc = (if bool_decide (model_type = "event")
                then "Event matching query does not exist."
                else "Invalid model_type: " +:+ model_type)
         ∧ result.2 = (if bool_decide (retries < 3)%nat
                       then RetryScheduled exc (60 * 2 ^ Z.of_nat retries)
                       else Returned (ImageFailure exc))).
Proof.
  intros result. split.
  - unfold result, process_uploaded_image.
    pose proof (process_body_frame cfg w model_type id path db) as Hbody.
    destruct (process_body cfg w model_type id path db) as [db1 [exc|[avif webp]]];
      simpl in *; [|done].
    pose proof (mark_failed_frame model_type id db1) as Hfailed.
    case_bool_decide; simpl; by eapply image_frame_trans.
  - intros Hmissing. unfold result, process_uploaded_image, process_body.
    unfold mbind, Job_bind, get_event, mark_failed, best_effort.
    case_bool_decide as Hmt; simpl.
    + destruct Hmissing as [?|Hnone]; [done|]. rewrite Hnone. simpl.
      unfold mbind, Job_bind, get_event. rewrite Hnone. simpl.
      split; [by case_bool_decide|]. eexists. split; [done|].
      unfold max_retries, countdown. by case_bool_decide.
    + split; [by case_bool_decide|]. eexists. split; [done|].
      unfold max_retries, countdown. by case_bool_decide.
Qed.

(** X11.  The job recovers on a retry: when its first execution fails and
    the second meets a world where the pipeline works, the job asked for one
    retry (after 60 seconds), returns the two URLs, and the event that the
    first execution had marked "failed" ends "complete". *)
Theorem image_job_recovers cfg worlds id path db e exc :
  events db !! id = Some e →
  (process_body cfg (worlds 0%nat) "event" id path db).2 = inl exc →
  pipeline_works (worlds 1%nat) →
  let w := worlds 1%nat in
  let avif_url := derivative_url cfg w (avif_uuid w +:+ ".avif") in
  let webp_url := derivative_url cfg w (webp_uuid w +:+ ".webp") in
  ∃ db',
    run_job 4 cfg worlds 0 "event" id path db
    = (db', [60], Some (ImageSuccess avif_url webp_url))
    ∧ (cover_photo_processing_status
         <$> events (process_uploaded_image cfg (worlds 0%nat) 0 "event" id
                       path db).1 !! id) = Some "failed"
    ∧ (cover_photo_processing_status <$> events db' !! id) = Some "complete".
Proof.
  intros He Hraise Hworks w avif_url webp_url.
  destruct (failed_status_after_raise cfg (worlds 0%nat) 0 id path db e exc He Hraise)
    as (e1 & He1 & Hst1).
  pose proof (process_uploaded_image_on_raise cfg (worlds 0%nat) 0 "event" id
                path db exc Hraise) as Hfirst.
  destruct (process_uploaded_image_works cfg w 1 id path
              (process_uploaded_image cfg (worlds 0%nat) 0 "event" id path db).1
              e1 He1 Hworks) as [Hout Hrow].
  fold w in Hout, Hrow.
  cbn [run_job]. rewrite Hfirst. cbn [fst snd]. fold w.
  rewrite Hfirst in Hout, Hrow, He1. cbn [fst snd] in Hout, Hrow, He1.
  destruct (process_uploaded_image cfg w 1 "event" id path _) as [db2 out2].
  cbn [fst snd] in Hout, Hrow. subst out2.
  exists db2. split; [done|]. split; [by rewrite He1; cbn; rewrite Hst1|].
  by rewrite Hrow.
Qed.

Lemma image_job_recovers_witness :
  let w := Samples.corrupt_then_fine 1%nat in
  let avif_url := derivative_url Samples.storage w (avif_uuid w +:+ ".avif") in
  let webp_url := derivative_url Samples.storage w (webp_uuid w +:+ ".webp") in
  ∃ db',
    run_job 4 Samples.storage Samples.corrupt_then_fine 0 "event" 7
      "/tmp/upload.jpg" (Samples.db_party None ∅ Samples.bob_attends ∅)
    = (db', [60], Some (ImageSuccess avif_url webp_url))
    ∧ (cover_photo_processing_status
         <$> events (process_uploaded_image Samples.storage
                       (Samples.corrupt_then_fine 0%nat) 0 "event" 7
                       "/tmp/upload.jpg"
                       (Samples.db_party None ∅ Samples.bob_attends ∅)).1 !! 7%N)
      = Some "failed"
    ∧ (cover_photo_processing_status <$> events db' !! 7%N) = Some "complete".
Proof.
  refine (image_job_recovers Samples.storage Samples.corrupt_then_fine
            7%N "/tmp/upload.jpg" (Samples.db_party None ∅ Samples.bob_attends ∅)
            (Samples.party None) "cannot identify image file" _ _ _).
  - reflexivity.
  - vm_compute. reflexivity.
  - repeat split.
Defined.

End ImagePipeline.


(** ** Organizers *)

Section Organizers.
Import Models Views.

Lemma organizers_set_organizers v e : organizers (set_organizers v e) = v.
Proof. reflexivity. Qed.

(** [invite_organizer] leaves the events alone or adds one co-organizer to
    one event that had fewer than five. *)
Lemma invite_organizer_events env req event_id db :
  events (result_db (invite_organizer env req event_id db)) = events db
  ∨ ∃ event invitee,
      events db !! event_id = Some event
      ∧ (size (organizers event) < 5)%nat
      ∧ (invitee ∉ organizers event)
      ∧ created_by event ≠ invitee
      ∧ events (result_db (invite_organizer env req event_id db))
        = <[event_id := set_organizers (organizers event ∪ {[invitee]}) event]>
            (events db).
Proof.
  unfold invite_organizer.
  destruct (logged_in req) as [user_phone|]; [|by left].
  destruct (get_active_event db event_id) as [event|] eqn:Hev; [|by left].
  destruct (users db !! user_phone); [|by left].
  destruct (is_organizer event user_phone); [|by left]. simpl.
  destruct (can_invite_organizer event) eqn:Hcan; [|by left]. simpl.
  case_bool_decide; [|by left].
  destruct (Py.truthy _); [|by left]. simpl.
  destruct (normalize_phone_number env _) as [formatted_number|]; [|by left].
  destruct (Py.truthy formatted_number); [|by left]. simpl.
  destruct (users db !! formatted_number); [|by left].
  case_bool_decide as Hcreator; [by left|].
  case_bool_decide as Hmember; [by left|].
  right. exists event, formatted_number. simpl.
  unfold get_active_event in Hev.
  destruct (events db !! event_id) as [e0|]; [|done].
  destruct (is_active e0); [|done]. injection Hev as ->.
  unfold can_invite_organizer in Hcan. apply bool_decide_eq_true_1 in Hcan.
  done.
Qed.

(** [leave_event] leaves the events alone or removes one co-organizer. *)
Lemma leave_event_events req event_id db :
  events (result_db (leave_event req event_id db)) = events db
  ∨ ∃ event user_phone,
      events db !! event_id = Some event
      ∧ events (result_db (leave_event req event_id db))
        = <[event_id := set_organizers (organizers event ∖ {[user_phone]}) event]>
            (events db).
Proof.
  unfold leave_event.
  case_bool_decide; [|by left]. simpl.
  destruct (logged_in req) as [user_phone|]; [|by left].
  destruct (get_active_event db event_id) as [event|] eqn:Hev; [|by left].
  destruct (users db !! user_phone); [|by left].
  case_bool_decide; [by left|].
  case_bool_decide; [|by left]. simpl.
  right. exists event, user_phone.
  unfold get_active_event in Hev.
  destruct (events db !! event_id) as [e0|]; [|done].
  destruct (is_active e0); [|done]. by injection Hev as ->.
Qed.

Lemma events_store_rsvp user_phone event_id status qs qa db :
  events (store_rsvp user_phone event_id status qs qa db) = events db.
Proof. unfold store_rsvp. by case_bool_decide. Qed.

(** [rsvp_event] writes no event. *)
Lemma rsvp_event_events env req event_id db :
  events (result_db (rsvp_event env req event_id db)) = events db.
Proof.
  assert (∀ event db' msgs sms trigger,
            events db' = events db →
            events (result_db (_rsvp_response req event_id event db' msgs sms trigger))
            = events db) as Hresponse.
  { intros event db' msgs sms trigger Hdb'.
    unfold _rsvp_response, _build_event_user_state.
    repeat case_match; simpl; done. }
  unfold rsvp_event. cbv zeta.
  repeat case_match; simpl; try done; apply Hresponse; try done.
  all: apply events_store_rsvp.
Qed.

(** Each operation keeps the limit of five co-organizers. *)
Lemma step_at_most_five db db' :
  System.step db db' →
  System.organizers_at_most 5 db → System.organizers_at_most 5 db'.
Proof.
  intros Hstep Hcap.
  destruct Hstep as [cfg gw now entropy phone db|now phone code db
                    |env req event_id db|env req event_id db|req event_id db
                    |env now db|cfg w retries model_type instance_id path db].
  - done.
  - done.
  - intros id e'. rewrite rsvp_event_events. apply Hcap.
  - intros id e'.
    destruct (invite_organizer_events env req event_id db)
      as [->|(event & invitee & Hev & Hlt & Hnew & _ & ->)]; [by apply Hcap|].
    destruct (decide (event_id = id)) as [->|Hne].
    + rewrite lookup_insert_eq. intros [= <-]. simpl.
      rewrite size_union, size_singleton by (by apply disjoint_singleton_r). lia.
    + rewrite lookup_insert_ne by done. apply Hcap.
  - intros id e'.
    destruct (leave_event_events req event_id db)
      as [->|(event & user_phone & Hev & ->)]; [by apply Hcap|].
    destruct (decide (event_id = id)) as [->|Hne].
    + rewrite lookup_insert_eq. intros [= <-]. simpl.
      etransitivity; [apply subseteq_size|by apply (Hcap id event)].
      by apply subseteq_difference_l.
    + rewrite lookup_insert_ne by done. apply Hcap.
  - eapply same_organizers_at_most; [|exact Hcap].
    apply send_event_reminders_same_organizers.
  - eapply same_organizers_at_most; [|exact Hcap].
    apply process_uploaded_image_same_organizers.
Qed.

Lemma all_organizers_size e :
  (size (all_organizers e) ≤ S (size (organizers e)))%nat.
Proof.
  unfold all_organizers. rewrite size_union_alt, size_singleton.
  assert (size (organizers e ∖ {[created_by e]}) ≤ size (organizers e))%nat.
  { apply subseteq_size. by apply subseteq_difference_l. }
  lia.
Qed.

(** C4, as the code has it: the limit of five is on the co-organizers, the
    creator not counted.  Through any sequence of operations of the
    application (verifications, RSVPs, invitations, departures, reminder and
    image jobs) no event gets more than five co-organizers, so no more than
    six organizers with its creator; and an invitation to an event that has
    five co-organizers adds nobody and queues no message: an organizer who
    sends it is told that the maximum is reached. *)
Theorem co_organizers_never_exceed_five db db' :
  System.organizers_at_most 5 db →
  rtc System.step db db' →
  System.organizers_at_most 5 db'
  ∧ (∀ id e, events db' !! id = Some e → (size (all_organizers e) ≤ 6)%nat)
  ∧ (∀ env req id e,
       events db' !! id = Some e → size (organizers e) = 5%nat →
       let r := invite_organizer env req id db' in
       result_db r = db'
       ∧ queued_sms r = []
       ∧ (∀ user_phone user,
            logged_in req = Some user_phone →
            is_active e = true →
            users db' !! user_phone = Some user →
            is_organizer e user_phone = true →
            flashed r
            = [MsgError "You've reached the maximum number of organizers (5 total)."])).
Proof.
  intros Hcap Hsteps.
  assert (System.organizers_at_most 5 db') as Hcap'.
  { induction Hsteps as [|db1 db2 db3 Hstep _ IH]; [done|].
    apply IH. by apply (step_at_most_five db1). }
  split; [done|]. split.
  - intros id e He. pose proof (Hcap' id e He). pose proof (all_organizers_size e).
    lia.
  - intros env req id e He Hfive r.
    assert (can_invite_organizer e = false) as Hcan.
    { unfold can_invite_organizer. rewrite Hfive. done. }
    unfold r, invite_organizer, get_active_event. rewrite He.
    split; [|split].
    + destruct (logged_in req); [|done].
      destruct (is_active e); [|done].
      destruct (users db' !! _); [|done].
      destruct (is_organizer e _); [|done]. simpl. by rewrite Hcan.
    + destruct (logged_in req); [|done].
      destruct (is_active e); [|done].
      destruct (users db' !! _); [|done].
      destruct (is_organizer e _); [|done]. simpl. by rewrite Hcan.
    + intros user_phone user -> -> -> ->. simpl. by rewrite Hcan.
Qed.

Lemma co_organizers_never_exceed_five_witness :
  let db := Samples.db_organized in
  let db' :=
    result_db (invite_organizer Samples.view_env
                 (Samples.post Samples.ada false [("phone_number", Samples.fay)])
                 7 db) in
  System.organizers_at_most 5 db'
  ∧ (∀ id e, events db' !! id = Some e → (size (all_organizers e) ≤ 6)%nat)
  ∧ (∀ env req id e,
       events db' !! id = Some e → size (organizers e) = 5%nat →
       let r := invite_organizer env req id db' in
       result_db r = db'
       ∧ queued_sms r = []
       ∧ (∀ user_phone user,
            logged_in req = Some user_phone →
            is_active e = true →
            users db' !! user_phone = Some user →
            is_organizer e user_phone = true →
            flashed r
            = [MsgError "You've reached the maximum number of organizers (5 total)."])).
Proof.
  apply (co_organizers_never_exceed_five Samples.db_organized).
  - intros id e He. unfold Samples.db_organized in He. simpl in He.
    apply lookup_singleton_Some in He as [_ <-]. vm_compute. lia.
  - eapply rtc_l; [apply System.step_invite_organizer|apply rtc_refl].
Defined.

(** On the sample data: with five co-organizers the next invitation is
    turned down. *)
Example seventh_organizer_is_refused :
  let invite phone := Samples.post Samples.ada false [("phone_number", phone)] in
  let r1 := invite_organizer Samples.view_env (invite Samples.fay) 7 Samples.db_organized in
  let r2 := invite_organizer Samples.view_env (invite Samples.ada) 7 (result_db r1) in
  flashed r2 = [MsgError "You've reached the maximum number of organizers (5 total)."]
  ∧ result_db r2 = result_db r1.
Proof. vm_compute. done. Qed.

(** C4 as stated fails: an event with its creator and four co-organizers
    has five organizers; the invitation of a sixth is accepted. *)
Lemma sixth_organizer_is_accepted :
  let req := Samples.post Samples.ada false [("phone_number", Samples.fay)] in
  let r := invite_organizer Samples.view_env req 7 Samples.db_organized in
  (all_organizers <$> events Samples.db_organized !! 7%N)
  = Some {[Samples.ada; Samples.bob; Samples.cyd; Samples.dee; Samples.eli]}
  ∧ flashed r = [MsgSuccess "You've invited your organizer!"]
  ∧ (size ∘ all_organizers <$> events (result_db r) !! 7%N) = Some 6%nat.
Proof. vm_compute. done. Qed.

End Organizers.


(** ** RSVP engine *)

Section RsvpEngine.
Import Models Views.

Lemma truthy_false s : Py.truthy s = false ↔ s = "".
Proof. by destruct s. Qed.

(** A question left out of the form, or left empty, has no answer. *)
Lemma submitted_answer_missing req qid :
  POST req !! question_field qid = None ∨ POST req !! question_field qid = Some "" →
  submitted_answer req qid = "".
Proof. unfold submitted_answer. by intros [->| ->]. Qed.

(** For anyone but the creator, responding writes nothing. *)
Lemma build_event_user_state_guest req event_id event db user_phone :
  logged_in req = Some user_phone →
  created_by event ≠ user_phone →
  _build_event_user_state req event_id event db = db.
Proof.
  intros Hlogin Hguest. unfold _build_event_user_state. rewrite Hlogin.
  destruct (users db !! user_phone); [|done].
  by rewrite bool_decide_eq_false_2.
Qed.

Lemma rsvp_response_guest req event_id event db msgs sms trigger user_phone :
  logged_in req = Some user_phone →
  created_by event ≠ user_phone →
  _rsvp_response req event_id event db msgs sms trigger
  = mkResult db msgs sms None
      (if hx_request req
       then Render "events/partials/rsvp_refresh.html" trigger
       else Redirect "event_detail" (Some event_id)).
Proof.
  intros Hlogin Hguest. unfold _rsvp_response.
  rewrite (build_event_user_state_guest _ _ _ _ _ Hlogin Hguest).
  by destruct (hx_request req).
Qed.

(** The questions of an event are the rows of the table that point to it;
    an id names one row. *)
Lemma elem_of_event_questions db event_id qid q :
  (qid, q) ∈ event_questions db event_id
  ↔ questions db !! qid = Some q ∧ question_event q = event_id.
Proof.
  unfold event_questions. rewrite merge_sort_Permutation.
  rewrite list_elem_of_filter, elem_of_map_to_list. simpl. tauto.
Qed.

Lemma event_questions_functional db event_id qid q1 q2 :
  (qid, q1) ∈ event_questions db event_id →
  (qid, q2) ∈ event_questions db event_id →
  q1 = q2.
Proof.
  rewrite !elem_of_event_questions. intros [H1 _] [H2 _]. congruence.
Qed.

(** The dictionary of answers holds the stripped answer of every question
    of the list. *)
Lemma collect_answers_lookup req (l : list (N * EventQuestion)) qid q :
  (qid, q) ∈ l →
  collect_answers req l !! qid = Some (submitted_answer req qid).
Proof.
  unfold collect_answers.
  induction l as [|x l IH] using rev_ind; intros Hin.
  - by apply elem_of_nil in Hin.
  - rewrite foldl_snoc.
    destruct (decide (x.1 = qid)) as [<-|Hne].
    + by rewrite lookup_insert_eq.
    + rewrite lookup_insert_ne by done. apply IH.
      apply elem_of_app in Hin as [Hin|Hin]; [done|].
      apply list_elem_of_singleton in Hin. by subst x.
Qed.

(** A required question without an answer is among the missing ones. *)
Lemma missing_questions_required req (l : list (N * EventQuestion)) qid q :
  (qid, q) ∈ l → is_required q = true → submitted_answer req qid = "" →
  question_text q ∈ missing_questions l (collect_answers req l).
Proof.
  intros Hin Hreq Hempty. unfold missing_questions.
  apply (list_elem_of_fmap_2 (λ q : N * EventQuestion, question_text q.2) _ (qid, q)).
  apply list_elem_of_filter. split; [|done]. simpl. split; [done|].
  rewrite (collect_answers_lookup req l qid q Hin). simpl.
  by apply truthy_false.
Qed.

(** The view on a form posted by a logged-in, registered user who did not
    create the (active) event: look the rows up and simplify the
    responses. *)
Ltac rsvp_guest_form Hpost Hlogin Hevent Huser Hguest :=
  unfold rsvp_event; cbv zeta;
  rewrite Hlogin, Hevent, Huser;
  rewrite (bool_decide_eq_true_2 _ Hpost), (bool_decide_eq_false_2 _ Hguest);
  rewrite !(rsvp_response_guest _ _ _ _ _ _ _ _ Hlogin Hguest); simpl.

Ltac solve_refused :=
  unfold refused; simpl; split; [by eexists|done].

Lemma valid_status_iff status :
  valid_status status = true
  ↔ status = "attending" ∨ status = "maybe" ∨ status = "not_attending".
Proof.
  unfold valid_status. rewrite !orb_true_iff, !bool_decide_eq_true. tauto.
Qed.

(** A required question without an answer: the RSVP is refused. *)
Lemma required_answer_refused env req event_id db user_phone event user qid q :
  method req = "POST" →
  logged_in req = Some user_phone →
  get_active_event db event_id = Some event →
  users db !! user_phone = Some user →
  created_by event ≠ user_phone →
  requested_status req = "attending" ∨ requested_status req = "maybe" →
  (qid, q) ∈ event_questions db event_id →
  is_required q = true →
  submitted_answer req qid = "" →
  refused db (rsvp_event env req event_id db)
  ∧ (allow_rsvp event = true →
     (requested_status req = "maybe" → allow_maybe_rsvp event = true) →
     ∃ text, flashed (rsvp_event env req event_id db) = [MsgError text]
             ∧ (text = "Please answer all required questions before submitting your RSVP."
                ∨ ∃ question, text = "Please answer the required question: " +:+ question)).
Proof.
  intros Hpost Hlogin Hevent Huser Hguest Hst Hin Hreq Hempty.
  rsvp_guest_form Hpost Hlogin Hevent Huser Hguest.
  pose proof (missing_questions_required req _ qid q Hin Hreq Hempty) as Hmiss.
  assert (bool_decide (requested_status req = "attending")
          || bool_decide (requested_status req = "maybe") = true) as ->.
  { apply orb_true_iff. rewrite !bool_decide_eq_true. tauto. }
  assert (event_questions db event_id ≠ []) as Hne.
  { intros E. rewrite E in Hin. by apply elem_of_nil in Hin. }
  rewrite (bool_decide_eq_false_2 _ Hne). simpl.
  assert (valid_status (requested_status req) = true) as ->.
  { apply valid_status_iff. tauto. }
  simpl.
  destruct (missing_questions _ _) as [|only [|second rest]].
  - by apply elem_of_nil in Hmiss.
  - rewrite !(rsvp_response_guest _ _ _ _ _ _ _ _ Hlogin Hguest). split.
    + repeat case_match; solve_refused.
    + intros Hallow Hmaybe. rewrite Hallow. simpl.
      destruct (bool_decide (requested_status req = "maybe")) eqn:Hm; simpl.
      * apply bool_decide_eq_true in Hm. rewrite (Hmaybe Hm). simpl. eauto.
      * eauto.
  - split.
    + repeat case_match; solve_refused.
    + intros Hallow Hmaybe. rewrite Hallow. simpl.
      destruct (bool_decide (requested_status req = "maybe")) eqn:Hm; simpl.
      * apply bool_decide_eq_true in Hm. rewrite (Hmaybe Hm). simpl. eauto.
      * eauto.
Qed.

Lemma rsvps_store_rsvp user_phone event_id status qs qa db :
  rsvps (store_rsvp user_phone event_id status qs qa db)
  = <[(user_phone, event_id) := status]> (rsvps db).
Proof. unfold store_rsvp. by case_bool_decide. Qed.

(** Declining needs no answers: the only refusal left is that of an event
    whose RSVPs are closed, to a user who holds none. *)
Lemma not_attending_outcome env req event_id db user_phone event user :
  method req = "POST" →
  logged_in req = Some user_phone →
  get_active_event db event_id = Some event →
  users db !! user_phone = Some user →
  created_by event ≠ user_phone →
  requested_status req = "not_attending" →
  (accepted (rsvp_event env req event_id db)
   ∨ flashed (rsvp_event env req event_id db)
     = [MsgError "This event has closed RSVPs."])
  ∧ (allow_rsvp event = true ∨ is_Some (rsvps db !! (user_phone, event_id)) →
     accepted (rsvp_event env req event_id db)
     ∧ rsvps (result_db (rsvp_event env req event_id db)) !! (user_phone, event_id)
       = Some "not_attending").
Proof.
  intros Hpost Hlogin Hevent Huser Hguest Hst.
  rsvp_guest_form Hpost Hlogin Hevent Huser Hguest.
  rewrite Hst.
  rewrite (bool_decide_eq_true_2 ("not_attending" = "not_attending")) by done.
  rewrite (bool_decide_eq_false_2 ("not_attending" = "attending")) by done.
  rewrite (bool_decide_eq_false_2 ("not_attending" = "maybe")) by done.
  assert (valid_status "not_attending" = true) as -> by done. simpl.
  split.
  - destruct (negb (allow_rsvp event) && _); [by right|]. left. by eexists.
  - intros Hopen.
    assert (negb (allow_rsvp event)
            && negb (bool_decide (is_Some (rsvps db !! (user_phone, event_id))))
            = false) as ->.
    { apply andb_false_iff. destruct Hopen as [->|Hsome]; [by left|right].
      by rewrite bool_decide_eq_true_2. }
    simpl. split; [by eexists|].
    rewrite ?rsvps_store_rsvp. apply lookup_insert_eq.
Qed.

(** C8, as the code has it: when a user other than the event's creator
    posts "attending" or "maybe" and some required question of the event has
    no answer (none, an empty one, or white space only), the RSVP is refused:
    one error is flashed and nothing is written; when RSVPs are open (and
    "maybe" is allowed, if that is the status) the error is the one about
    required questions.  Posting "not_attending" is never refused for a
    missing answer: it is accepted unless RSVPs are closed and the user holds
    none. *)
Theorem required_answers_enforced env req event_id db user_phone event user :
  method req = "POST" →
  logged_in req = Some user_phone →
  get_active_event db event_id = Some event →
  users db !! user_phone = Some user →
  created_by event ≠ user_phone →
  let r := rsvp_event env req event_id db in
  (requested_status req = "attending" ∨ requested_status req = "maybe" →
   ∀ qid q,
     (qid, q) ∈ event_questions db event_id →
     is_required q = true →
     submitted_answer req qid = "" →
     refused db r
     ∧ (allow_rsvp event = true →
        (requested_status req = "maybe" → allow_maybe_rsvp event = true) →
        ∃ text, flashed r = [MsgError text]
                ∧ (text = "Please answer all required questions before submitting your RSVP."
                   ∨ ∃ question,
                       text = "Please answer the required question: " +:+ question)))
  ∧ (requested_status req = "not_attending" →
     (accepted r ∨ flashed r = [MsgError "This event has closed RSVPs."])
     ∧ (allow_rsvp event = true ∨ is_Some (rsvps db !! (user_phone, event_id)) →
        accepted r
        ∧ rsvps (result_db r) !! (user_phone, event_id) = Some "not_attending")).
Proof.
  intros Hpost Hlogin Hevent Huser Hguest r. split.
  - intros Hst qid q Hin Hreq Hempty.
    by apply (required_answer_refused env req event_id db user_phone event user qid q).
  - intros Hst.
    by apply (not_attending_outcome env req event_id db user_phone event user).
Qed.

Lemma required_answers_enforced_witness :
  let db := Samples.db_party None Samples.both_questions ∅ ∅ in
  let req := Samples.post Samples.bob true [("status", "maybe"); ("question_2", "none")] in
  let r := rsvp_event Samples.view_env req 7 db in
  (requested_status req = "attending" ∨ requested_status req = "maybe" →
   ∀ qid q,
     (qid, q) ∈ event_questions db 7 →
     is_required q = true →
     submitted_answer req qid = "" →
     refused db r
     ∧ (allow_rsvp (Samples.party None) = true →
        (requested_status req = "maybe" → allow_maybe_rsvp (Samples.party None) = true) →
        ∃ text, flashed r = [MsgError text]
                ∧ (text = "Please answer all required questions before submitting your RSVP."
                   ∨ ∃ question,
                       text = "Please answer the required question: " +:+ question)))
  ∧ (requested_status req = "not_attending" →
     (accepted r ∨ flashed r = [MsgError "This event has closed RSVPs."])
     ∧ (allow_rsvp (Samples.party None) = true
        ∨ is_Some (rsvps db !! (Samples.bob, 7%N)) →
        accepted r
        ∧ rsvps (result_db r) !! (Samples.bob, 7%N) = Some "not_attending")).
Proof.
  apply (required_answers_enforced Samples.view_env
           (Samples.post Samples.bob true [("status", "maybe"); ("question_2", "none")])
           7%N (Samples.db_party None Samples.both_questions ∅ ∅)
           Samples.bob (Samples.party None) (Samples.registered Samples.bob)).
  - reflexivity.
  - reflexivity.
  - reflexivity.
  - vm_compute. reflexivity.
  - vm_compute. discriminate.
Defined.

(** On the sample data: the required question 1 is left out and the RSVP is
    refused with the message naming it. *)
Example required_answer_missing :
  let db := Samples.db_party None Samples.both_questions ∅ ∅ in
  let req := Samples.post Samples.bob true [("status", "maybe"); ("question_2", "none")] in
  flashed (rsvp_event Samples.view_env req 7 db)
  = [MsgError "Please answer the required question: Dress code?"]
  ∧ rsvps (result_db (rsvp_event Samples.view_env req 7 db)) = ∅.
Proof. vm_compute. done. Qed.

(** C8 as stated fails for the creator of the event: the view answers her
    before it looks at the questions, and over HTMX the response writes her
    "attending" RSVP. *)
Lemma creator_is_not_asked :
  let db := Samples.db_party None Samples.both_questions ∅ ∅ in
  let req := Samples.post Samples.ada true [("status", "attending")] in
  let r := rsvp_event Samples.view_env req 7 db in
  created_by (Samples.party None) = Samples.ada
  ∧ (1%N, Samples.dress_code) ∈ event_questions db 7
  ∧ is_required Samples.dress_code = true
  ∧ POST req !! question_field 1 = None
  ∧ flashed r = []
  ∧ rsvps db !! (Samples.ada, 7%N) = None
  ∧ rsvps (result_db r) !! (Samples.ada, 7%N) = Some "attending".
Proof.
  vm_compute. repeat split; try done. apply list_elem_of_here.
Qed.

(** The holders of an RSVP of a given status to an event, each once. *)
Lemma elem_of_rsvps_with_status db event_id status user_phone :
  user_phone ∈ rsvps_with_status db event_id status
  ↔ rsvps db !! (user_phone, event_id) = Some status.
Proof.
  unfold rsvps_with_status. split.
  - intros Hin.
    apply list_elem_of_fmap in Hin as (k & -> & Hin).
    apply list_elem_of_fmap in Hin as ([[u e] st] & -> & Hkv).
    apply elem_of_map_to_list in Hkv.
    apply map_lookup_filter_Some in Hkv as [Hrow [He Hst]]. simpl in *.
    by subst.
  - intros Hrow.
    apply (list_elem_of_fmap_2' _ _ (user_phone, event_id)); [|done].
    apply (list_elem_of_fmap_2' _ _ (user_phone, event_id, status)); [|done].
    apply elem_of_map_to_list. by apply map_lookup_filter_Some.
Qed.

Lemma NoDup_rsvps_with_status db event_id status :
  NoDup (rsvps_with_status db event_id status).
Proof.
  unfold rsvps_with_status.
  apply NoDup_fmap_2_strong; [|apply NoDup_fst_map_to_list].
  intros [u1 e1] [u2 e2] H1 H2 Heq. simpl in Heq. subst u2.
  apply list_elem_of_fmap in H1 as ([k1 v1] & E1 & H1).
  apply list_elem_of_fmap in H2 as ([k2 v2] & E2 & H2).
  simpl in *. subst k1 k2.
  apply elem_of_map_to_list, map_lookup_filter_Some in H1 as [_ [He1 _]].
  apply elem_of_map_to_list, map_lookup_filter_Some in H2 as [_ [He2 _]].
  simpl in *. by subst.
Qed.

(** [is_full] for an event with a positive capacity. *)
Lemma is_full_positive db event_id event n :
  max_attendees event = Some n → (0 < n)%N →
  is_full db event_id event = bool_decide (n ≤ attendee_count db event_id)%N.
Proof.
  intros Hmax Hpos. unfold is_full. rewrite Hmax.
  rewrite bool_decide_eq_false_2; [done|lia].
Qed.

Lemma attendee_count_rsvps db db' event_id :
  rsvps db' = rsvps db → attendee_count db' event_id = attendee_count db event_id.
Proof. intros H. unfold attendee_count, rsvps_with_status. by rewrite H. Qed.

(** A full event refuses a newcomer. *)
Lemma full_event_refuses env req event_id db user_phone event user n :
  method req = "POST" →
  logged_in req = Some user_phone →
  get_active_event db event_id = Some event →
  users db !! user_phone = Some user →
  created_by event ≠ user_phone →
  requested_status req = "attending" →
  max_attendees event = Some n → (0 < n)%N →
  (n ≤ attendee_count db event_id)%N →
  rsvps db !! (user_phone, event_id) ≠ Some "attending" →
  refused db (rsvp_event env req event_id db)
  ∧ (allow_rsvp event = true → unanswered req db event_id = [] →
     flashed (rsvp_event env req event_id db) = [MsgError "This event is full."]).
Proof.
  intros Hpost Hlogin Hevent Huser Hguest Hst Hmax Hpos Hfull Hnew.
  unfold unanswered.
  rsvp_guest_form Hpost Hlogin Hevent Huser Hguest.
  rewrite (is_full_positive _ _ _ _ Hmax Hpos), (bool_decide_eq_true_2 _ Hfull).
  rewrite (bool_decide_eq_false_2 _ Hnew).
  rewrite Hst.
  rewrite (bool_decide_eq_true_2 ("attending" = "attending")) by done.
  rewrite (bool_decide_eq_false_2 ("attending" = "maybe")) by done.
  assert (valid_status "attending" = true) as -> by done. simpl.
  split.
  - repeat case_match;
      rewrite ?(rsvp_response_guest _ _ _ _ _ _ _ _ Hlogin Hguest);
      solve_refused.
  - intros -> Hnone. simpl. rewrite Hnone. by destruct (negb _).
Qed.

(** It does not refuse a user who attends already. *)
Lemma full_event_keeps_attendee env req event_id db user_phone event user :
  method req = "POST" →
  logged_in req = Some user_phone →
  get_active_event db event_id = Some event →
  users db !! user_phone = Some user →
  created_by event ≠ user_phone →
  requested_status req = "attending" →
  rsvps db !! (user_phone, event_id) = Some "attending" →
  (MsgError "This event is full." ∉ flashed (rsvp_event env req event_id db))
  ∧ (allow_rsvp event = true → unanswered req db event_id = [] →
     accepted (rsvp_event env req event_id db)
     ∧ rsvps (result_db (rsvp_event env req event_id db)) = rsvps db
     ∧ attendee_count (result_db (rsvp_event env req event_id db)) event_id
       = attendee_count db event_id).
Proof.
  intros Hpost Hlogin Hevent Huser Hguest Hst Hold.
  unfold unanswered.
  rsvp_guest_form Hpost Hlogin Hevent Huser Hguest.
  rewrite (bool_decide_eq_true_2 _ Hold).
  rewrite Hst.
  rewrite (bool_decide_eq_true_2 ("attending" = "attending")) by done.
  rewrite (bool_decide_eq_false_2 ("attending" = "maybe")) by done.
  assert (valid_status "attending" = true) as -> by done. simpl.
  rewrite andb_false_r.
  split.
  - repeat case_match;
      rewrite ?(rsvp_response_guest _ _ _ _ _ _ _ _ Hlogin Hguest); simpl;
      rewrite list_elem_of_singleton; discriminate.
  - intros -> Hnone. simpl. rewrite Hnone.
    assert (store_rsvp user_phone event_id "attending" (event_questions db event_id)
              (collect_answers req (event_questions db event_id)) db
            = with_answers
                (save_answers user_phone event_id (event_questions db event_id)
                   (collect_answers req (event_questions db event_id)) (answers db))
                db) as Hstore.
    { unfold store_rsvp. rewrite bool_decide_eq_false_2 by done.
      rewrite insert_id by done. by destruct db. }
    destruct (negb _); simpl; rewrite Hstore;
      (split; [by eexists|split; [by apply insert_id|done]]).
Qed.

(** C3, as the code has it: on an event whose capacity N is at least 1 and
    that N or more users attend, "attending" posted by a further user who is
    not the creator is refused (one error flashed, nothing written), with the
    error that the event is full whenever RSVPs are open and the required
    questions answered; "attending" posted again by a user who attends
    already is never refused as full, and when accepted leaves the RSVPs and
    the count of attendees as they were. *)
Theorem capacity_is_enforced env req event_id db user_phone event user n :
  method req = "POST" →
  logged_in req = Some user_phone →
  get_active_event db event_id = Some event →
  users db !! user_phone = Some user →
  created_by event ≠ user_phone →
  requested_status req = "attending" →
  max_attendees event = Some n → (0 < n)%N →
  (n ≤ attendee_count db event_id)%N →
  let r := rsvp_event env req event_id db in
  (rsvps db !! (user_phone, event_id) ≠ Some "attending" →
   refused db r
   ∧ (allow_rsvp event = true → unanswered req db event_id = [] →
      flashed r = [MsgError "This event is full."]))
  ∧ (rsvps db !! (user_phone, event_id) = Some "attending" →
     (MsgError "This event is full." ∉ flashed r)
     ∧ (allow_rsvp event = true → unanswered req db event_id = [] →
        accepted r
        ∧ rsvps (result_db r) = rsvps db
        ∧ attendee_count (result_db r) event_id = attendee_count db event_id)).
Proof.
  intros Hpost Hlogin Hevent Huser Hguest Hst Hmax Hpos Hfull r. split.
  - intros Hnew.
    by apply (full_event_refuses env req event_id db user_phone event user n).
  - intros Hold.
    by apply (full_event_keeps_attendee env req event_id db user_phone event user).
Qed.

Lemma capacity_is_enforced_witness :
  let db := Samples.db_party (Some 1%N) ∅ Samples.bob_attends ∅ in
  let req := Samples.post Samples.cyd false [("status", "attending")] in
  let r := rsvp_event Samples.view_env req 7 db in
  (rsvps db !! (Samples.cyd, 7%N) ≠ Some "attending" →
   refused db r
   ∧ (allow_rsvp (Samples.party (Some 1%N)) = true → unanswered req db 7 = [] →
      flashed r = [MsgError "This event is full."]))
  ∧ (rsvps db !! (Samples.cyd, 7%N) = Some "attending" →
     (MsgError "This event is full." ∉ flashed r)
     ∧ (allow_rsvp (Samples.party (Some 1%N)) = true → unanswered req db 7 = [] →
        accepted r
        ∧ rsvps (result_db r) = rsvps db
        ∧ attendee_count (result_db r) 7 = attendee_count db 7)).
Proof.
  apply (capacity_is_enforced Samples.view_env
           (Samples.post Samples.cyd false [("status", "attending")]) 7%N
           (Samples.db_party (Some 1%N) ∅ Samples.bob_attends ∅)
           Samples.cyd (Samples.party (Some 1%N)) (Samples.registered Samples.cyd) 1%N).
  - reflexivity.
  - reflexivity.
  - reflexivity.
  - vm_compute. reflexivity.
  - vm_compute. discriminate.
  - reflexivity.
  - reflexivity.
  - lia.
  - vm_compute. discriminate.
Defined.

(** The scenario of the specification: capacity 1; [bob] attends; [cyd] is
    refused; [bob] posts "attending" again and is accepted. *)
Example capacity_scenario :
  let attending := [("status", "attending")] in
  let db0 := Samples.db_party (Some 1%N) ∅ ∅ ∅ in
  let r1 := rsvp_event Samples.view_env (Samples.post Samples.bob false attending) 7 db0 in
  let r2 := rsvp_event Samples.view_env (Samples.post Samples.cyd false attending) 7
              (result_db r1) in
  let r3 := rsvp_event Samples.view_env (Samples.post Samples.bob false attending) 7
              (result_db r2) in
  flashed r1 = [MsgSuccess "We've added your RSVP!"]
  ∧ flashed r2 = [MsgError "This event is full."]
  ∧ flashed r3 = [MsgSuccess "We've updated your RSVP!"]
  ∧ attendee_count (result_db r3) 7 = 1%N.
Proof. vm_compute. done. Qed.

(** C3 as stated fails for the capacity 0: [is_full] takes it for no limit,
    and an event with capacity 0 and no attendee accepts one. *)
Lemma zero_capacity_is_no_limit :
  let db := Samples.db_party (Some 0%N) ∅ ∅ ∅ in
  let req := Samples.post Samples.cyd false [("status", "attending")] in
  let r := rsvp_event Samples.view_env req 7 db in
  (max_attendees <$> events db !! 7%N) = Some (Some 0%N)
  ∧ attendee_count db 7 = 0%N
  ∧ (created_by <$> events db !! 7%N) ≠ Some Samples.cyd
  ∧ flashed r = [MsgSuccess "We've added your RSVP!"]
  ∧ rsvps (result_db r) !! (Samples.cyd, 7%N) = Some "attending"
  ∧ attendee_count (result_db r) 7 = 1%N.
Proof. vm_compute. repeat split; discriminate. Qed.

(** An accepted RSVP came from a logged-in user who did not create the
    event, and wrote what [store_rsvp] writes. *)
Lemma rsvp_event_accepted_inv env req event_id db user_phone :
  logged_in req = Some user_phone →
  accepted (rsvp_event env req event_id db) →
  valid_status (requested_status req) = true
  ∧ result_db (rsvp_event env req event_id db)
    = store_rsvp user_phone event_id (requested_status req)
        (event_questions db event_id)
        (collect_answers req (event_questions db event_id)) db.
Proof.
  intros Hlogin [text Hflash]. revert Hflash.
  unfold rsvp_event. cbv zeta. rewrite Hlogin.
  case_bool_decide; simpl; [|done].
  destruct (get_active_event db event_id) as [event|]; [|done].
  destruct (users db !! user_phone); [|done].
  case_bool_decide as Hguest.
  { unfold _rsvp_response. by destruct (hx_request req). }
  rewrite !(rsvp_response_guest _ _ _ _ _ _ _ _ Hlogin Hguest).
  destruct (valid_status (requested_status req)); simpl; [|done].
  destruct (negb (allow_rsvp event) && _); [done|].
  destruct (bool_decide _ && negb _); [done|].
  destruct (if _ && _ then _ else _) as [|only [|second rest]].
  - destruct (_ && negb _); [done|]. done.
  - by rewrite !(rsvp_response_guest _ _ _ _ _ _ _ _ Hlogin Hguest).
  - done.
Qed.

(** Declining deletes the answers of the RSVP, and those only. *)
Lemma delete_answers_lookup (user_phone : string) (event_id : N)
    (table : gmap (string * N * N) string) (k : string * N * N) :
  delete_answers user_phone event_id table !! k
  = if decide (k.1 = (user_phone, event_id)) then None else table !! k.
Proof.
  unfold delete_answers. case_decide as Hk.
  - apply map_lookup_filter_None. right. intros text _ Hne. by apply Hne.
  - destruct (table !! k) as [text|] eqn:Hrow.
    + by apply map_lookup_filter_Some.
    + apply map_lookup_filter_None. by left.
Qed.

(** The loop over the questions touches the answers of this RSVP only. *)
Lemma save_answers_other (user_phone : string) (event_id : N)
    (l : list (N * EventQuestion)) (qa : gmap N string)
    (table : gmap (string * N * N) string) (k : string * N * N) :
  k.1 ≠ (user_phone, event_id) →
  save_answers user_phone event_id l qa table !! k = table !! k.
Proof.
  intros Hk. unfold save_answers. revert table.
  induction l as [|x l IH]; intros table; simpl; [done|].
  rewrite IH. destruct (_ || _).
  - apply lookup_insert_ne. intros <-. by apply Hk.
  - apply lookup_delete_ne. intros <-. by apply Hk.
Qed.

(** After the loop, the answer of a question of the list is the text that was
    submitted for it when there is one or the question is required, and is
    absent otherwise. *)
Lemma save_answers_lookup (user_phone : string) (event_id : N) (req : Request)
    (l : list (N * EventQuestion)) (table : gmap (string * N * N) string)
    (qid : N) (q : EventQuestion) :
  (∀ q1 q2, (qid, q1) ∈ l → (qid, q2) ∈ l → q1 = q2) →
  (qid, q) ∈ l →
  ∀ qa : gmap N string, qa !! qid = Some (submitted_answer req qid) →
  save_answers user_phone event_id l qa table !! (user_phone, event_id, qid)
  = if Py.truthy (submitted_answer req qid) || is_required q
    then Some (submitted_answer req qid) else None.
Proof.
  unfold save_answers.
  induction l as [|x l IH] using rev_ind; intros Hfun Hin qa Hqa.
  - by apply elem_of_nil in Hin.
  - rewrite foldl_snoc. destruct x as [xid x].
    destruct (decide (xid = qid)) as [->|Hne]; simpl.
    + assert (x = q) as ->.
      { apply Hfun; [|done]. apply elem_of_app. right. apply list_elem_of_here. }
      rewrite Hqa. simpl. destruct (_ || _).
      * apply lookup_insert_eq.
      * apply lookup_delete_eq.
    + assert ((qid, q) ∈ l) as Hin'.
      { apply elem_of_app in Hin as [Hin|Hin]; [done|].
        apply list_elem_of_singleton in Hin. congruence. }
      rewrite <- (IH (λ q1 q2 H1 H2, Hfun q1 q2 (proj2 (elem_of_app _ _ _) (or_introl H1))
                                          (proj2 (elem_of_app _ _ _) (or_introl H2)))
                    Hin' qa Hqa).
      destruct (Py.truthy (default "" (qa !! xid)) || is_required x).
      * apply lookup_insert_ne. congruence.
      * apply lookup_delete_ne. congruence.
Qed.

Lemma truthy_true s : Py.truthy s = true ↔ s ≠ "".
Proof. by destruct s. Qed.

(** C9, as the code has it: an accepted RSVP is stored with the status that
    was posted.  When that status is "not_attending", the RSVP has no answer
    left.  Otherwise, for each question of the event, with the text taken to
    be what was submitted for it stripped of surrounding white space: the
    answer of the RSVP is that text when it is not empty or the question is
    required, and there is no answer when the text is empty and the question
    is not required.  The answers of other RSVPs stay as they were. *)
Theorem answers_follow_submission env req event_id db user_phone :
  logged_in req = Some user_phone →
  accepted (rsvp_event env req event_id db) →
  let r := rsvp_event env req event_id db in
  rsvps (result_db r) !! (user_phone, event_id) = Some (requested_status req)
  ∧ (requested_status req = "not_attending" →
     ∀ qid, answers (result_db r) !! (user_phone, event_id, qid) = None)
  ∧ (requested_status req ≠ "not_attending" →
     ∀ qid q,
       (qid, q) ∈ event_questions db event_id →
       (submitted_answer req qid ≠ "" ∨ is_required q = true →
        answers (result_db r) !! (user_phone, event_id, qid)
        = Some (submitted_answer req qid))
       ∧ (submitted_answer req qid = "" → is_required q = false →
          answers (result_db r) !! (user_phone, event_id, qid) = None))
  ∧ (∀ k : string * N * N,
       k.1 ≠ (user_phone, event_id) →
       answers (result_db r) !! k = answers db !! k).
Proof.
  intros Hlogin Hacc r.
  destruct (rsvp_event_accepted_inv env req event_id db user_phone Hlogin Hacc)
    as [_ Hdb].
  unfold r. rewrite Hdb. clear Hdb.
  split; [by rewrite rsvps_store_rsvp, lookup_insert_eq|].
  unfold store_rsvp. case_bool_decide as Hst; simpl.
  - split; [|split; [done|]].
    + intros _ qid. rewrite delete_answers_lookup. simpl. by case_decide.
    + intros k Hk. rewrite delete_answers_lookup. by case_decide.
  - split; [done|]. split.
    + intros _ qid q Hin.
      rewrite (save_answers_lookup user_phone event_id req _ _ qid q);
        [|intros q1 q2; apply event_questions_functional|done
         |by apply (collect_answers_lookup req _ qid q)].
      split.
      * intros [Htext|Hreq].
        -- apply truthy_true in Htext. by rewrite Htext.
        -- rewrite Hreq. by rewrite orb_true_r.
      * intros Htext Hreq. apply truthy_false in Htext. by rewrite Htext, Hreq.
    + intros k Hk. by apply save_answers_other.
Qed.

Lemma answers_follow_submission_witness :
  let db := Samples.db_party None Samples.both_questions ∅ ∅ in
  let req :=
    Samples.post Samples.bob false
      [("status", "attending"); ("question_1", " black tie ")] in
  let r := rsvp_event Samples.view_env req 7 db in
  rsvps (result_db r) !! (Samples.bob, 7%N) = Some (requested_status req)
  ∧ (requested_status req = "not_attending" →
     ∀ qid, answers (result_db r) !! (Samples.bob, 7%N, qid) = None)
  ∧ (requested_status req ≠ "not_attending" →
     ∀ qid q,
       (qid, q) ∈ event_questions db 7 →
       (submitted_answer req qid ≠ "" ∨ is_required q = true →
        answers (result_db r) !! (Samples.bob, 7%N, qid)
        = Some (submitted_answer req qid))
       ∧ (submitted_answer req qid = "" → is_required q = false →
          answers (result_db r) !! (Samples.bob, 7%N, qid) = None))
  ∧ (∀ k : string * N * N,
       k.1 ≠ (Samples.bob, 7%N) →
       answers (result_db r) !! k = answers db !! k).
Proof.
  apply (answers_follow_submission Samples.view_env
           (Samples.post Samples.bob false
              [("status", "attending"); ("question_1", " black tie ")])
           7%N (Samples.db_party None Samples.both_questions ∅ ∅) Samples.bob).
  - reflexivity.
  - exists "We've added your RSVP!". vm_compute. reflexivity.
Defined.

(** On the sample data: the required answer is stored stripped, the optional
    question that was left out gets no answer. *)
Example answers_stored :
  let db := Samples.db_party None Samples.both_questions ∅ ∅ in
  let req :=
    Samples.post Samples.bob false
      [("status", "attending"); ("question_1", " black tie ")] in
  let r := rsvp_event Samples.view_env req 7 db in
  answers (result_db r) !! (Samples.bob, 7%N, 1%N) = Some "black tie"
  ∧ answers (result_db r) !! (Samples.bob, 7%N, 2%N) = None.
Proof. vm_compute. done. Qed.

(** C9 as stated fails for a text of white space: question 2 is not
    required, the text submitted for it is one space, which is not empty,
    and the RSVP is accepted; yet no answer is stored for it, and the answer
    the RSVP had is deleted. *)
Lemma blank_answer_is_not_stored :
  let db :=
    Samples.db_party None Samples.both_questions Samples.bob_attends
      {[(Samples.bob, 7%N, 2%N) := "nuts"]} in
  let req :=
    Samples.post Samples.bob false
      [("status", "attending"); ("question_1", "black tie"); ("question_2", " ")] in
  let r := rsvp_event Samples.view_env req 7 db in
  flashed r = [MsgSuccess "We've updated your RSVP!"]
  ∧ (is_required <$> questions db !! 2%N) = Some false
  ∧ POST req !! question_field 2 = Some " "
  ∧ " " ≠ ""
  ∧ answers db !! (Samples.bob, 7%N, 2%N) = Some "nuts"
  ∧ answers (result_db r) !! (Samples.bob, 7%N, 2%N) = None.
Proof. vm_compute. repeat split; discriminate. Qed.

(** *** What the view writes, and when *)

Lemma with_rsvps_id db : with_rsvps (rsvps db) db = db.
Proof. by destruct db. Qed.

(** The three ways [rsvp_event] can end: it writes nothing and queues
    nothing; it is the creator's request over HTMX, and the response puts the
    creator among the attendees; or it accepts the RSVP of a user who is not
    the creator. *)
Lemma rsvp_event_cases env req event_id db :
  let r := rsvp_event env req event_id db in
  (result_db r = db ∧ queued_sms r = [] ∧ ¬ accepted r)
  ∨ (∃ event,
       get_active_event db event_id = Some event
       ∧ logged_in req = Some (created_by event)
       ∧ is_Some (users db !! created_by event)
       ∧ method req = "POST" ∧ hx_request req = true
       ∧ result_db r
         = with_rsvps (<[(created_by event, event_id) := "attending"]> (rsvps db)) db
       ∧ queued_sms r = [] ∧ flashed r = [])
  ∨ (∃ user_phone event,
       logged_in req = Some user_phone
       ∧ get_active_event db event_id = Some event
       ∧ is_Some (users db !! user_phone)
       ∧ created_by event ≠ user_phone
       ∧ method req = "POST"
       ∧ accepted r
       ∧ result_db r
         = store_rsvp user_phone event_id (requested_status req)
             (event_questions db event_id)
             (collect_answers req (event_questions db event_id)) db
       ∧ queued_sms r
         = [(user_phone,
             "You're RSVPed as '" +:+ requested_status req +:+ "' for "
             +:+ title event +:+ " on "
             +:+ strftime env (event_state_date event) +:+ ". "
             +:+ get_short_url (SITE_DOMAIN env) event)]).
Proof.
  assert (∀ r0, flashed r0 = [] ∨ (∃ text, flashed r0 = [MsgError text]) →
                ¬ accepted r0) as Hno.
  { intros r0 [H|[t H]] [text Hacc]; rewrite H in Hacc; discriminate. }
  unfold rsvp_event. cbv zeta.
  case_bool_decide as Hpost; simpl;
    [|left; split_and!; [done..|apply Hno; by left]].
  destruct (logged_in req) as [user_phone|] eqn:Hlogin;
    [|left; split_and!; [done..|apply Hno; right; by eexists]].
  destruct (get_active_event db event_id) as [event|] eqn:Hevent;
    [|left; split_and!; [done..|apply Hno; by left]].
  destruct (users db !! user_phone) as [user|] eqn:Huser;
    [|left; split_and!; [done..|apply Hno; by left]].
  case_bool_decide as Hguest.
  - unfold _rsvp_response, _build_event_user_state.
    rewrite Hlogin, Huser, (bool_decide_eq_true_2 _ Hguest). simpl.
    destruct (hx_request req) eqn:Hhx; simpl;
      [|left; split_and!; [done..|apply Hno; by left]].
    right; left. exists event. subst user_phone.
    split_and!; try done.
    case_bool_decide as Hattending; simpl; [|done].
    by rewrite insert_id, with_rsvps_id.
  - rewrite !(rsvp_response_guest _ _ _ _ _ _ _ _ Hlogin Hguest).
    destruct (valid_status (requested_status req)); simpl;
      [|left; split_and!; [done..|apply Hno; right; by eexists]].
    destruct (negb (allow_rsvp event) && _);
      [left; split_and!; [done..|apply Hno; right; by eexists]|].
    destruct (bool_decide _ && negb _);
      [left; split_and!; [done..|apply Hno; right; by eexists]|].
    destruct (if _ && _ then _ else _) as [|only [|second rest]].
    + destruct (_ && negb _);
        [left; split_and!; [done..|apply Hno; right; by eexists]|].
      right; right. exists user_phone, event. simpl.
      split_and!; try done. by eexists.
    + rewrite !(rsvp_response_guest _ _ _ _ _ _ _ _ Hlogin Hguest).
      left; split_and!; [done..|apply Hno; right; by eexists].
    + left; split_and!; [done..|apply Hno; right; by eexists].
Qed.

Lemma store_rsvp_tables user_phone event_id status qs qa db :
  users (store_rsvp user_phone event_id status qs qa db) = users db
  ∧ questions (store_rsvp user_phone event_id status qs qa db) = questions db.
Proof. unfold store_rsvp. by case_bool_decide. Qed.

Lemma answers_store_rsvp_other user_phone event_id status qs qa db
    (k : string * N * N) :
  k.1 ≠ (user_phone, event_id) →
  answers (store_rsvp user_phone event_id status qs qa db) !! k = answers db !! k.
Proof.
  intros Hk. unfold store_rsvp. case_bool_decide; simpl.
  - rewrite delete_answers_lookup. by case_decide.
  - by apply save_answers_other.
Qed.

(** X12.  Whatever the request, [rsvp_event] leaves the users, the events
    and the questions as they were; the only RSVP it can write is that of the
    logged-in user for the event of the request, and the only answers those
    of that RSVP; and a message it queues goes to that user, for an RSVP it
    accepted. *)
Theorem rsvp_event_footprint env req event_id db :
  let r := rsvp_event env req event_id db in
  users (result_db r) = users db
  ∧ events (result_db r) = events db
  ∧ questions (result_db r) = questions db
  ∧ (∀ k : string * N,
       logged_in req ≠ Some k.1 ∨ k.2 ≠ event_id →
       rsvps (result_db r) !! k = rsvps db !! k)
  ∧ (∀ k : string * N * N,
       logged_in req ≠ Some k.1.1 ∨ k.1.2 ≠ event_id →
       answers (result_db r) !! k = answers db !! k)
  ∧ (∀ recipient text,
       (recipient, text) ∈ queued_sms r →
       logged_in req = Some recipient ∧ accepted r).
Proof.
  intros r.
  destruct (rsvp_event_cases env req event_id db)
    as [(Hdb & Hsms & _)
       |[(event & _ & Hlogin & _ & _ & _ & Hdb & Hsms & _)
        |(user_phone & event & Hlogin & _ & _ & _ & _ & Hacc & Hdb & Hsms)]];
    fold r in Hdb, Hsms; rewrite Hdb, Hsms.
  - split_and!; try done. intros ? ? Hin. by apply elem_of_nil in Hin.
  - split_and!; try done.
    + intros [u e] Hk. simpl in *. apply lookup_insert_ne.
      intros [= <- <-]. destruct Hk as [Hk|Hk]; [by rewrite Hlogin in Hk|done].
    + intros ? ? Hin. by apply elem_of_nil in Hin.
  - destruct (store_rsvp_tables user_phone event_id (requested_status req)
                (event_questions db event_id)
                (collect_answers req (event_questions db event_id)) db)
      as [Husers Hquestions].
    split_and!; try done.
    + apply events_store_rsvp.
    + intros [u e] Hk. simpl in *. rewrite rsvps_store_rsvp.
      apply lookup_insert_ne.
      intros [= <- <-]. destruct Hk as [Hk|Hk]; [by rewrite Hlogin in Hk|done].
    + intros [[u e] q] Hk. simpl in *. apply answers_store_rsvp_other. simpl.
      intros [= <- <-]. destruct Hk as [Hk|Hk]; [by rewrite Hlogin in Hk|done].
    + intros recipient text Hin. apply list_elem_of_singleton in Hin.
      injection Hin as -> _. done.
Qed.

(** X13.  [rsvp_event] stores an RSVP exactly when it flashes its success
    message, and then it queues one confirmation, to the user, that names the
    status stored.  When it does not accept it queues nothing, and it writes
    nothing, except that a response to the creator over HTMX puts the creator
    among the attendees. *)
Theorem rsvp_event_confirms_what_it_stores env req event_id db :
  let r := rsvp_event env req event_id db in
  (accepted r →
   ∃ user_phone event,
     logged_in req = Some user_phone
     ∧ get_active_event db event_id = Some event
     ∧ created_by event ≠ user_phone
     ∧ rsvps (result_db r) !! (user_phone, event_id) = Some (requested_status req)
     ∧ queued_sms r
       = [(user_phone,
           "You're RSVPed as '" +:+ requested_status req +:+ "' for "
           +:+ title event +:+ " on "
           +:+ strftime env (event_state_date event) +:+ ". "
           +:+ get_short_url (SITE_DOMAIN env) event)])
  ∧ (¬ accepted r →
     queued_sms r = []
     ∧ (result_db r = db
        ∨ ∃ event,
            get_active_event db event_id = Some event
            ∧ logged_in req = Some (created_by event)
            ∧ hx_request req = true
            ∧ result_db r
              = with_rsvps (<[(created_by event, event_id) := "attending"]> (rsvps db))
                           db)).
Proof.
  intros r.
  destruct (rsvp_event_cases env req event_id db)
    as [(Hdb & Hsms & Hno)
       |[(event & Hevent & Hlogin & _ & _ & Hhx & Hdb & Hsms & Hflash)
        |(user_phone & event & Hlogin & Hevent & _ & Hguest & _ & Hacc & Hdb & Hsms)]];
    fold r in Hdb, Hsms.
  - split; [done|]. intros _. split; [done|by left].
  - split.
    + intros [text Hacc]. fold r in Hflash. rewrite Hflash in Hacc. discriminate.
    + intros _. split; [done|]. right. by exists event.
  - split; [|done]. intros _. exists user_phone, event.
    split_and!; try done.
    rewrite Hdb, rsvps_store_rsvp. apply lookup_insert_eq.
Qed.

Ltac decide_status :=
  repeat match goal with
         | |- context [bool_decide (?a = ?b)] =>
             first [rewrite (bool_decide_eq_true_2 (a = b)) by done
                   |rewrite (bool_decide_eq_false_2 (a = b)) by done]
         end.

Ltac rsvp_decided :=
  split;
  [intros [text Hflash]; try discriminate Hflash; clear Hflash;
   split_and!; auto; done
  |intros H; try (by eexists); exfalso; naive_solver].

(** When [rsvp_event] accepts the form of a user who is not the creator. *)
Lemma rsvp_event_accepted_iff env req event_id db user_phone event user :
  method req = "POST" →
  logged_in req = Some user_phone →
  get_active_event db event_id = Some event →
  users db !! user_phone = Some user →
  created_by event ≠ user_phone →
  let status := requested_status req in
  accepted (rsvp_event env req event_id db)
  ↔ valid_status status = true
    ∧ (allow_rsvp event = true
       ∨ (status = "not_attending" ∧ is_Some (rsvps db !! (user_phone, event_id))))
    ∧ (status = "maybe" → allow_maybe_rsvp event = true)
    ∧ (status ≠ "not_attending" → unanswered req db event_id = [])
    ∧ (status = "attending" →
       is_full db event_id event = false
       ∨ rsvps db !! (user_phone, event_id) = Some "attending").
Proof.
  intros Hpost Hlogin Hevent Huser Hguest status. unfold unanswered, accepted.
  rsvp_guest_form Hpost Hlogin Hevent Huser Hguest.
  subst status. generalize (requested_status req). intros status.
  set (qs := event_questions db event_id).
  set (miss := missing_questions qs (collect_answers req qs)).
  assert ((if negb (bool_decide (qs = [])) then miss else []) = miss) as Hmiss.
  { case_bool_decide as Hqs; simpl; [|done]. unfold miss. by rewrite Hqs. }
  destruct (valid_status status) eqn:Hvalid; simpl;
    [|split; [by intros [? ?]|by intros [? _]]].
  apply valid_status_iff in Hvalid as [-> | [-> | ->]]; decide_status; simpl;
    rewrite ?Hmiss; clear Hmiss; clearbody miss.
  - destruct (decide (rsvps db !! (user_phone, event_id) = Some "attending"))
      as [Hold|Hold];
      [rewrite ?(bool_decide_eq_true_2 _ Hold)
      |rewrite ?(bool_decide_eq_false_2 _ Hold)];
      destruct (allow_rsvp event), miss as [|only [|second rest]],
        (is_full db event_id event); simpl;
      rewrite ?(rsvp_response_guest _ _ _ _ _ _ _ _ Hlogin Hguest); simpl;
      rsvp_decided.
  - destruct (allow_rsvp event), (allow_maybe_rsvp event),
      miss as [|only [|second rest]]; simpl;
      rewrite ?(rsvp_response_guest _ _ _ _ _ _ _ _ Hlogin Hguest); simpl;
      rsvp_decided.
  - destruct (decide (is_Some (rsvps db !! (user_phone, event_id))))
      as [Hold|Hold];
      [rewrite ?(bool_decide_eq_true_2 _ Hold)
      |rewrite ?(bool_decide_eq_false_2 _ Hold)];
      destruct (allow_rsvp event); simpl;
      rsvp_decided.
Qed.

(** X14.  The decision of [rsvp_event], under its limiter, on a form posted
    by a registered user who did not create the (active) event: the RSVP is
    accepted exactly when the limiter has counted fewer than twenty POSTs in
    the hour; the status is one of the three; RSVPs are open, or the user
    declines and holds an RSVP already; "maybe" is allowed if that is the
    status; unless the user declines, no required question is left
    unanswered; and, for "attending", the event is not full or the user
    attends already.  Once the limiter has counted twenty, the view is not
    called: the request is answered with [Ratelimited], and nothing is
    written, flashed or queued. *)
Theorem rsvp_event_decision env counted req event_id db user_phone event user :
  method req = "POST" →
  logged_in req = Some user_phone →
  get_active_event db event_id = Some event →
  users db !! user_phone = Some user →
  created_by event ≠ user_phone →
  let status := requested_status req in
  let r := rsvp_event_limited env counted req event_id db in
  (accepted r
   ↔ (counted < 20)%nat
     ∧ valid_status status = true
     ∧ (allow_rsvp event = true
        ∨ (status = "not_attending" ∧ is_Some (rsvps db !! (user_phone, event_id))))
     ∧ (status = "maybe" → allow_maybe_rsvp event = true)
     ∧ (status ≠ "not_attending" → unanswered req db event_id = [])
     ∧ (status = "attending" →
        is_full db event_id event = false
        ∨ rsvps db !! (user_phone, event_id) = Some "attending"))
  ∧ ((counted < 20)%nat → r = rsvp_event env req event_id db)
  ∧ ((20 ≤ counted)%nat →
     r = mkResult db [] [] None (Raised "Ratelimited")).
Proof.
  intros Hpost Hlogin Hevent Huser Hguest status r.
  pose proof (rsvp_event_accepted_iff env req event_id db user_phone event user
                Hpost Hlogin Hevent Huser Hguest) as Hbody.
  cbv zeta in Hbody. fold status in Hbody.
  unfold r, rsvp_event_limited, ratelimit.
  rewrite (bool_decide_eq_true_2 _ Hpost). cbn [andb].
  case_bool_decide as Hlimit.
  - split_and!; [|lia|done].
    split; [by intros [text Hflash]|]. intros [Hcount _]. lia.
  - split_and!; [|done|lia].
    rewrite Hbody. split; [|tauto]. intros H. split; [lia|done].
Qed.

Lemma rsvp_event_decision_witness :
  let db := Samples.db_party (Some 1%N) Samples.both_questions Samples.bob_attends ∅ in
  let req := Samples.post Samples.cyd false
               [("status", "maybe"); ("question_1", "black tie")] in
  let status := requested_status req in
  let r := rsvp_event_limited Samples.view_env 19 req 7 db in
  (accepted r
   ↔ (19 < 20)%nat
     ∧ valid_status status = true
     ∧ (allow_rsvp (Samples.party (Some 1%N)) = true
        ∨ (status = "not_attending" ∧ is_Some (rsvps db !! (Samples.cyd, 7%N))))
     ∧ (status = "maybe" → allow_maybe_rsvp (Samples.party (Some 1%N)) = true)
     ∧ (status ≠ "not_attending" → unanswered req db 7 = [])
     ∧ (status = "attending" →
        is_full db 7 (Samples.party (Some 1%N)) = false
        ∨ rsvps db !! (Samples.cyd, 7%N) = Some "attending"))
  ∧ ((19 < 20)%nat → r = rsvp_event Samples.view_env req 7 db)
  ∧ ((20 ≤ 19)%nat → r = mkResult db [] [] None (Raised "Ratelimited")).
Proof.
  refine (rsvp_event_decision Samples.view_env 19
            (Samples.post Samples.cyd false
               [("status", "maybe"); ("question_1", "black tie")]) 7%N
            (Samples.db_party (Some 1%N) Samples.both_questions Samples.bob_attends ∅)
            Samples.cyd (Samples.party (Some 1%N)) (Samples.registered Samples.cyd)
            _ _ _ _ _).
  - reflexivity.
  - reflexivity.
  - reflexivity.
  - vm_compute. reflexivity.
  - vm_compute. discriminate.
Defined.

(** The same form, accepted as the twentieth POST of the hour and turned
    away as the twenty-first. *)
Example twenty_first_post_is_turned_away :
  let db := Samples.db_party None ∅ ∅ ∅ in
  let req := Samples.post Samples.cyd false [("status", "attending")] in
  flashed (rsvp_event_limited Samples.view_env 19 req 7 db)
  = [MsgSuccess "We've added your RSVP!"]
  ∧ rsvp_event_limited Samples.view_env 20 req 7 db
    = mkResult db [] [] None (Raised "Ratelimited").
Proof. split; vm_compute; reflexivity. Qed.

(** *** The count of attendees *)

(** The attendees after one RSVP was written. *)
Lemma attendees_after_insert db db' user_phone event_id status :
  rsvps db' = <[(user_phone, event_id) := status]> (rsvps db) →
  (∀ other, other ≠ event_id →
            attendee_count db' other = attendee_count db other)
  ∧ (attendee_count db' event_id ≤ attendee_count db event_id + 1)%N
  ∧ (status ≠ "attending" →
     (attendee_count db' event_id ≤ attendee_count db event_id)%N)
  ∧ (status = "attending" →
     rsvps db !! (user_phone, event_id) ≠ Some "attending" →
     attendee_count db' event_id = (attendee_count db event_id + 1)%N).
Proof.
  intros Hrows. unfold attendee_count.
  assert (∀ u e, (u, e) ≠ (user_phone, event_id) →
                 u ∈ rsvps_with_status db' e "attending"
                 ↔ u ∈ rsvps_with_status db e "attending") as Hother.
  { intros u e Hne. rewrite !elem_of_rsvps_with_status, Hrows.
    by rewrite lookup_insert_ne. }
  assert (user_phone ∈ rsvps_with_status db' event_id "attending"
          ↔ status = "attending") as Hself.
  { rewrite elem_of_rsvps_with_status, Hrows, lookup_insert_eq.
    split; [by intros [= ->]|by intros ->]. }
  split_and!.
  - intros other Hne. f_equal. apply Permutation_length.
    apply NoDup_Permutation; [apply NoDup_rsvps_with_status..|].
    intros u. apply Hother. congruence.
  - assert (rsvps_with_status db' event_id "attending"
            ⊆+ user_phone :: rsvps_with_status db event_id "attending") as Hsub.
    { apply NoDup_submseteq; [apply NoDup_rsvps_with_status|].
      intros u Hu. destruct (decide (u = user_phone)) as [->|Hne].
      - apply list_elem_of_here.
      - apply list_elem_of_further. apply Hother; [congruence|done]. }
    apply submseteq_length in Hsub. simpl in Hsub. lia.
  - intros Hst.
    assert (rsvps_with_status db' event_id "attending"
            ⊆+ rsvps_with_status db event_id "attending") as Hsub.
    { apply NoDup_submseteq; [apply NoDup_rsvps_with_status|].
      intros u Hu. destruct (decide (u = user_phone)) as [->|Hne].
      - by apply Hself in Hu.
      - apply Hother; [congruence|done]. }
    apply submseteq_length in Hsub. lia.
  - intros Hst Hnew.
    assert (rsvps_with_status db' event_id "attending"
            ≡ₚ user_phone :: rsvps_with_status db event_id "attending") as Hperm.
    { apply NoDup_Permutation.
      - apply NoDup_rsvps_with_status.
      - apply NoDup_cons. split; [|apply NoDup_rsvps_with_status].
        by rewrite elem_of_rsvps_with_status.
      - intros u. rewrite elem_of_cons.
        destruct (decide (u = user_phone)) as [->|Hne].
        + rewrite Hself. tauto.
        + rewrite (Hother u event_id) by congruence. tauto. }
    apply Permutation_length in Hperm. simpl in Hperm. lia.
Qed.

Lemma get_active_event_Some db event_id event :
  get_active_event db event_id = Some event →
  events db !! event_id = Some event ∧ is_active event = true.
Proof.
  unfold get_active_event. destruct (events db !! event_id) as [e|]; [|done].
  destruct (is_active e) eqn:Hactive; [|done]. by intros [= <-].
Qed.

(** X15.  RSVPs never fill an event beyond its capacity: on an event with a
    capacity of [n] (at least 1), a request of anyone but the creator leaves
    at most [n] attendees, or as many as there were if these were more
    already; and it leaves the count of every other event as it was. *)
Theorem rsvp_event_respects_capacity env req event_id db event n :
  events db !! event_id = Some event →
  max_attendees event = Some n → (0 < n)%N →
  logged_in req ≠ Some (created_by event) →
  let r := rsvp_event env req event_id db in
  (attendee_count (result_db r) event_id ≤ N.max n (attendee_count db event_id))%N
  ∧ (∀ other, other ≠ event_id →
              attendee_count (result_db r) other = attendee_count db other).
Proof.
  intros Hrow Hmax Hpos Hnot_creator r.
  destruct (rsvp_event_cases env req event_id db)
    as [(Hdb & _ & _)
       |[(event' & Hevent & Hlogin & _ & _ & _ & _)
        |(user_phone & event' & Hlogin & Hevent & [user Huser] & Hguest & Hpost
          & Hacc & Hdb & _)]];
    try fold r in Hdb.
  - rewrite Hdb. split; [lia|done].
  - apply get_active_event_Some in Hevent as [Hevent _].
    rewrite Hrow in Hevent. injection Hevent as <-. done.
  - pose proof Hevent as Hactive.
    apply get_active_event_Some in Hevent as [Hevent _].
    rewrite Hrow in Hevent. injection Hevent as <-.
    destruct (attendees_after_insert db (result_db r) user_phone event_id
                (requested_status req))
      as (Hother & Hle & Hdecline & Hnew).
    { by rewrite Hdb, rsvps_store_rsvp. }
    split; [|done].
    apply (rsvp_event_accepted_iff env req event_id db user_phone event user
             Hpost Hlogin Hactive Huser Hguest) in Hacc
      as (_ & _ & _ & _ & Hfull).
    destruct (decide (requested_status req = "attending")) as [Hst|Hst].
    + destruct (Hfull Hst) as [Hroom|Hold].
      * rewrite (is_full_positive _ _ _ _ Hmax Hpos) in Hroom.
        apply bool_decide_eq_false in Hroom. lia.
      * rewrite (attendee_count_rsvps db); [lia|].
        rewrite Hdb, rsvps_store_rsvp, Hst. by apply insert_id.
    + specialize (Hdecline Hst). lia.
Qed.

Lemma rsvp_event_respects_capacity_witness :
  let db := Samples.db_party (Some 1%N) ∅ Samples.bob_attends ∅ in
  let r := rsvp_event Samples.view_env
             (Samples.post Samples.cyd false [("status", "attending")]) 7 db in
  (attendee_count (result_db r) 7 ≤ N.max 1 (attendee_count db 7))%N
  ∧ (∀ other, other ≠ 7%N →
              attendee_count (result_db r) other = attendee_count db other).
Proof.
  refine (rsvp_event_respects_capacity Samples.view_env
            (Samples.post Samples.cyd false [("status", "attending")]) 7%N
            (Samples.db_party (Some 1%N) ∅ Samples.bob_attends ∅)
            (Samples.party (Some 1%N)) 1%N _ _ _ _).
  - reflexivity.
  - reflexivity.
  - lia.
  - vm_compute. discriminate.
Defined.

(** X16.  The creator is not handled like a guest: whatever the creator
    posts, nothing is flashed and no message is queued; a response over HTMX
    records the creator as attending, so that an event whose creator was not
    counted has one attendee more, whatever its capacity and whether its
    RSVPs are open; any other response writes nothing. *)
Theorem creator_attends_over_htmx env req event_id db event user :
  method req = "POST" →
  logged_in req = Some (created_by event) →
  get_active_event db event_id = Some event →
  users db !! created_by event = Some user →
  let r := rsvp_event env req event_id db in
  result_db r
  = (if hx_request req
     then with_rsvps (<[(created_by event, event_id) := "attending"]> (rsvps db)) db
     else db)
  ∧ flashed r = [] ∧ queued_sms r = []
  ∧ (hx_request req = true →
     rsvps db !! (created_by event, event_id) ≠ Some "attending" →
     attendee_count (result_db r) event_id = (attendee_count db event_id + 1)%N).
Proof.
  intros Hpost Hlogin Hevent Huser r.
  assert (result_db r
          = (if hx_request req
             then with_rsvps
                    (<[(created_by event, event_id) := "attending"]> (rsvps db)) db
             else db)
          ∧ flashed r = [] ∧ queued_sms r = []) as (Hdb & Hflash & Hsms).
  { unfold r, rsvp_event. cbv zeta.
    rewrite Hlogin, Hevent, Huser, (bool_decide_eq_true_2 _ Hpost).
    rewrite (bool_decide_eq_true_2 (created_by event = created_by event)) by done.
    simpl. unfold _rsvp_response, _build_event_user_state.
    rewrite Hlogin, Huser.
    rewrite (bool_decide_eq_true_2 (created_by event = created_by event)) by done.
    destruct (hx_request req); simpl; [|done].
    split; [|done].
    case_bool_decide as Hold; simpl; [|done].
    by rewrite insert_id, with_rsvps_id. }
  split_and!; try done.
  intros Hhx Hnew. rewrite Hhx in Hdb.
  by apply (attendees_after_insert db (result_db r) (created_by event) event_id
              "attending"); [rewrite Hdb|..].
Qed.

Lemma creator_attends_over_htmx_witness :
  let db := Samples.db_party (Some 1%N) ∅ Samples.bob_attends ∅ in
  let req := Samples.post Samples.ada true [("status", "not_attending")] in
  let r := rsvp_event Samples.view_env req 7 db in
  result_db r
  = (if hx_request req
     then with_rsvps
            (<[(created_by (Samples.party (Some 1%N)), 7%N) := "attending"]> (rsvps db))
            db
     else db)
  ∧ flashed r = [] ∧ queued_sms r = []
  ∧ (hx_request req = true →
     rsvps db !! (created_by (Samples.party (Some 1%N)), 7%N) ≠ Some "attending" →
     attendee_count (result_db r) 7 = (attendee_count db 7 + 1)%N).
Proof.
  refine (creator_attends_over_htmx Samples.view_env
            (Samples.post Samples.ada true [("status", "not_attending")]) 7%N
            (Samples.db_party (Some 1%N) ∅ Samples.bob_attends ∅)
            (Samples.party (Some 1%N)) (Samples.registered Samples.ada) _ _ _ _).
  - reflexivity.
  - reflexivity.
  - reflexivity.
  - vm_compute. reflexivity.
Defined.

End RsvpEngine.


(** ** Scheduled reminder job: further properties *)

Section ReminderExtras.
Import Models Tasks.

(** What one reminder does, exactly. *)
Lemma remind_recipient_exact env kind id e run phone :
  let d := mkDelivery id kind phone (reminder_message env kind e)
             (Auth.send_event_update (settings env) (gateway env) phone
                (reminder_message env kind e)).1 in
  let run' := remind_recipient env kind id e run phone in
  run_db run' = run_db run
  ∧ run_log run' = run_log run ++ [d]
  ∧ sent_count run'
    = (sent_count run + if delivery_success d then 1 else 0)%N
  ∧ error_count run'
    = (error_count run + if delivery_success d then 0 else 1)%N.
Proof.
  unfold remind_recipient.
  destruct (Auth.send_event_update _ _ _ _) as [[] result]; simpl;
    repeat split; lia.
Qed.

Lemma deliveries_cons env kind id e phone phones :
  deliveries env kind id e (phone :: phones)
  = mkDelivery id kind phone (reminder_message env kind e)
      (Auth.send_event_update (settings env) (gateway env) phone
         (reminder_message env kind e)).1
    :: deliveries env kind id e phones.
Proof. reflexivity. Qed.

(** The number of entries of a log that succeeded, or failed. *)
Lemma count_success_cons (b : bool) d (l : list Delivery) :
  delivery_success d = b →
  length (filter (λ d, delivery_success d = true) (d :: l))
  = ((if b then 1 else 0) + length (filter (λ d, delivery_success d = true) l))%nat
  ∧ length (filter (λ d, delivery_success d = false) (d :: l))
    = ((if b then 0 else 1) + length (filter (λ d, delivery_success d = false) l))%nat.
Proof.
  intros Hb. rewrite !filter_cons. rewrite Hb.
  destruct b; repeat case_decide; done.
Qed.

(** What the inner loop does, exactly. *)
Lemma remind_recipients_exact env kind id e phones run :
  let run' := foldl (remind_recipient env kind id e) run phones in
  run_db run' = run_db run
  ∧ run_log run' = run_log run ++ deliveries env kind id e phones
  ∧ sent_count run'
    = (sent_count run
       + N.of_nat (length (filter (λ d, delivery_success d = true)
                                  (deliveries env kind id e phones))))%N
  ∧ error_count run'
    = (error_count run
       + N.of_nat (length (filter (λ d, delivery_success d = false)
                                  (deliveries env kind id e phones))))%N.
Proof.
  revert run. induction phones as [|phone phones IH]; intros run.
  - cbn. rewrite app_nil_r. repeat split; lia.
  - rewrite deliveries_cons. cbn [foldl].
    destruct (IH (remind_recipient env kind id e run phone))
      as (Hdb & Hlog & Hsent & Herr).
    destruct (remind_recipient_exact env kind id e run phone)
      as (Hdb1 & Hlog1 & Hsent1 & Herr1).
    cbv zeta. rewrite Hdb, Hlog, Hsent, Herr, Hdb1, Hlog1, Hsent1, Herr1.
    rewrite <- app_assoc.
    edestruct (count_success_cons) as [-> ->]; [reflexivity|].
    cbn [delivery_success].
    destruct (Auth.send_event_update _ _ _ _).1; repeat split; try done; lia.
Qed.

Lemma remind_event_exact env kind run kv :
  let run' := remind_event env kind run kv in
  let new := deliveries env kind kv.1 kv.2
               (rsvps_with_status (run_db run) kv.1 "attending") in
  run_db run'
  = with_events (<[kv.1 := mark_reminder_sent kind kv.2]> (events (run_db run)))
                (run_db run)
  ∧ run_log run' = run_log run ++ new
  ∧ sent_count run'
    = (sent_count run
       + N.of_nat (length (filter (λ d, delivery_success d = true) new)))%N
  ∧ error_count run'
    = (error_count run
       + N.of_nat (length (filter (λ d, delivery_success d = false) new)))%N.
Proof.
  unfold remind_event. simpl.
  destruct (remind_recipients_exact env kind kv.1 kv.2
              (rsvps_with_status (run_db run) kv.1 "attending") run)
    as (Hdb & Hlog & Hsent & Herr).
  simpl in *. by rewrite Hdb.
Qed.

Lemma rsvps_with_status_ext db db' event_id status :
  rsvps db' = rsvps db →
  rsvps_with_status db' event_id status = rsvps_with_status db event_id status.
Proof. intros H. unfold rsvps_with_status. by rewrite H. Qed.

(** What the outer loop does to the log and to the tables other than
    [Event]. *)
Lemma remind_events_exact env kind l run :
  let run' := foldl (remind_event env kind) run l in
  users (run_db run') = users (run_db run)
  ∧ questions (run_db run') = questions (run_db run)
  ∧ rsvps (run_db run') = rsvps (run_db run)
  ∧ answers (run_db run') = answers (run_db run)
  ∧ run_log run' = run_log run ++ batch env kind (run_db run) l.
Proof.
  revert run. induction l as [|kv l IH]; intros run.
  - cbn. by rewrite app_nil_r.
  - cbn [foldl]. cbv zeta.
    destruct (IH (remind_event env kind run kv)) as (Hu & Hq & Hr & Ha & Hlog).
    destruct (remind_event_exact env kind run kv) as (Hdb & Hlog1 & _).
    rewrite Hu, Hq, Hr, Ha, Hlog, Hlog1, Hdb. simpl.
    repeat split; try done.
    by rewrite <- app_assoc.
Qed.

Lemma remind_event_tallied env kind run kv :
  tallied run → tallied (remind_event env kind run kv).
Proof.
  intros [Hs He].
  destruct (remind_event_exact env kind run kv) as (_ & Hlog & Hsent & Herr).
  unfold tallied. rewrite Hlog, Hsent, Herr, Hs, He.
  rewrite !filter_app, !length_app. lia.
Qed.

Lemma remind_events_tallied env kind l run :
  tallied run → tallied (foldl (remind_event env kind) run l).
Proof.
  revert run. induction l as [|kv l IH]; intros run Hrun; [done|].
  apply IH. by apply remind_event_tallied.
Qed.

(** The outer loop relates every row it leaves to the row it found, by any
    relation that setting the flag of a selected event respects. *)
Lemma remind_events_rows_back env kind (R : Event → Event → Prop)
    (m0 : gmap N Event) l run :
  (∀ id ev, (id, ev) ∈ l → m0 !! id = Some ev ∧ R ev (mark_reminder_sent kind ev)) →
  (∀ id e', events (run_db run) !! id = Some e' →
            ∃ e, m0 !! id = Some e ∧ (e' = e ∨ R e e')) →
  ∀ id e', events (run_db (foldl (remind_event env kind) run l)) !! id = Some e' →
           ∃ e, m0 !! id = Some e ∧ (e' = e ∨ R e e').
Proof.
  revert run. induction l as [|kv l IH]; intros run Hl Hrun; [done|].
  cbn [foldl]. apply IH.
  - intros id ev Hin. apply Hl. by apply list_elem_of_further.
  - destruct (remind_event_spec env kind run kv) as (-> & _).
    intros id e'. destruct (decide (kv.1 = id)) as [<-|Hne].
    + rewrite lookup_insert_eq. intros [= <-]. exists kv.2.
      destruct (Hl kv.1 kv.2) as [Hrow HR].
      { destruct kv. apply list_elem_of_here. }
      split; [done|by right].
    + rewrite lookup_insert_ne by done. apply Hrun.
Qed.

Lemma remind_pass_rows_back env kind now run id e' :
  events (run_db (remind_pass env kind now run)) !! id = Some e' →
  ∃ e, events (run_db run) !! id = Some e
       ∧ (e' = e ∨ (e' = mark_reminder_sent kind e ∧ due kind now e = true)).
Proof.
  apply (remind_events_rows_back env kind
           (λ e e', e' = mark_reminder_sent kind e ∧ due kind now e = true)).
  - intros id' ev Hin. by apply elem_of_due_events in Hin as [? ?].
  - intros id' e0 H0. exists e0. split; [done|by left].
Qed.

Lemma remind_pass_rows_forth env kind now run id e :
  events (run_db run) !! id = Some e →
  ∃ e', events (run_db (remind_pass env kind now run)) !! id = Some e'.
Proof.
  intros Hrow.
  destruct (remind_events_row env kind (λ _, True) id
              (due_events kind now (run_db run)) run e) as (e' & He' & _);
    [done..|]. by exists e'.
Qed.

(** The log of a whole run. *)
Lemma send_event_reminders_log env now db :
  let db1 := run_db (remind_pass env Reminder24h now (mkRun db [] 0 0)) in
  run_log (send_event_reminders env now db).1
  = batch env Reminder24h db (due_events Reminder24h now db)
    ++ batch env Reminder1h db (due_events Reminder1h now db1)
  ∧ rsvps db1 = rsvps db.
Proof.
  unfold send_event_reminders, remind_pass. simpl.
  destruct (remind_events_exact env Reminder24h (due_events Reminder24h now db)
              (mkRun db [] 0 0)) as (_ & _ & Hr1 & _ & Hlog1).
  destruct (remind_events_exact env Reminder1h
              (due_events Reminder1h now
                 (run_db (foldl (remind_event env Reminder24h) (mkRun db [] 0 0)
                                (due_events Reminder24h now db))))
              (foldl (remind_event env Reminder24h) (mkRun db [] 0 0)
                     (due_events Reminder24h now db)))
    as (_ & _ & _ & _ & Hlog2).
  simpl in *. rewrite Hlog2, Hlog1. split; [|done]. f_equal.
  unfold batch. apply list_bind_ext; [|done]. intros kv.
  by rewrite (rsvps_with_status_ext db).
Qed.

Lemma elem_of_batch env kind db l d :
  d ∈ batch env kind db l
  ↔ ∃ id e phone,
      (id, e) ∈ l
      ∧ rsvps db !! (phone, id) = Some "attending"
      ∧ d = mkDelivery id kind phone (reminder_message env kind e)
              (Auth.send_event_update (settings env) (gateway env) phone
                 (reminder_message env kind e)).1.
Proof.
  unfold batch, deliveries. rewrite list_elem_of_bind. split.
  - intros ([id e] & Hd & Hin). simpl in Hd.
    apply list_elem_of_fmap in Hd as (phone & -> & Hphone).
    apply elem_of_rsvps_with_status in Hphone. by exists id, e, phone.
  - intros (id & e & phone & Hin & Hrsvp & ->). exists (id, e).
    split; [|done]. simpl.
    apply list_elem_of_fmap. exists phone. split; [done|].
    by apply elem_of_rsvps_with_status.
Qed.

(** X6.  A run of the job attempts a reminder for exactly the "attending"
    RSVPs of the events it finds due for a batch: every call it makes is for
    an event of the table that is due (active, reminders enabled, start
    inside the window, flag not set) and for a holder of an "attending" RSVP
    to it; each such holder gets a call; and no holder gets two for the same
    event and batch. *)
Theorem reminders_go_to_attendees_of_due_events env now db :
  let run := (send_event_reminders env now db).1 in
  (∀ d, d ∈ run_log run →
        ∃ e, events db !! delivery_event d = Some e
             ∧ due (delivery_kind d) now e = true
             ∧ rsvps db !! (delivery_phone d, delivery_event d)
               = Some "attending")
  ∧ (∀ kind id e phone,
       events db !! id = Some e → due kind now e = true →
       rsvps db !! (phone, id) = Some "attending" →
       ∃ d, d ∈ run_log run ∧ delivery_key d = (id, kind, phone))
  ∧ NoDup (delivery_key <$> run_log run).
Proof.
  intros run. unfold run.
  destruct (send_event_reminders_log env now db) as [Hlog Hrsvps].
  cbv zeta in Hlog. rewrite Hlog. clear Hlog.
  set (db1 := run_db (remind_pass env Reminder24h now (mkRun db [] 0 0))) in *.
  assert (∀ id e1, (id, e1) ∈ due_events Reminder1h now db1 →
            ∃ e, events db !! id = Some e ∧ due Reminder1h now e = true) as Hback.
  { intros id e1 Hin. apply elem_of_due_events in Hin as [Hrow Hdue].
    apply remind_pass_rows_back in Hrow as (e & Hrow & [->|[-> _]]); exists e;
      [done|]. split; [done|]. by rewrite due_mark_other in Hdue. }
  assert (∀ id e, events db !! id = Some e → due Reminder1h now e = true →
            ∃ e1, (id, e1) ∈ due_events Reminder1h now db1) as Hforth.
  { intros id e Hrow Hdue.
    destruct (remind_events_row env Reminder24h
                (λ e', due Reminder1h now e' = true) id
                (due_events Reminder24h now db) (mkRun db [] 0 0) e)
      as (e1 & Hrow1 & Hdue1); [|done|done|].
    { intros ev Hin. apply elem_of_due_events in Hin as [Hrow' _].
      simpl in Hrow'. rewrite Hrow in Hrow'. injection Hrow' as <-.
      by rewrite due_mark_other. }
    exists e1. by apply elem_of_due_events. }
  split; [|split].
  - intros d Hd. apply elem_of_app in Hd as [Hd|Hd];
      apply elem_of_batch in Hd as (id & e & phone & Hin & Hrsvp & ->); simpl.
    + apply elem_of_due_events in Hin as [Hrow Hdue]. by exists e.
    + destruct (Hback id e Hin) as (e0 & Hrow & Hdue). by exists e0.
  - intros kind id e phone Hrow Hdue Hrsvp. destruct kind.
    + eexists. split.
      * apply elem_of_app. left. apply elem_of_batch.
        exists id, e, phone. split; [by apply elem_of_due_events|done].
      * done.
    + destruct (Hforth id e Hrow Hdue) as (e1 & Hin).
      eexists. split.
      * apply elem_of_app. right. apply elem_of_batch.
        by exists id, e1, phone.
      * done.
  - assert (∀ kind dbq, NoDup (delivery_key <$> batch env kind db
                                  (due_events kind now dbq))) as Hbatch.
    { intros kind dbq.
      apply NoDup_fmap_2_strong.
      - intros d1 d2 H1 H2 Hkey.
        apply elem_of_batch in H1 as (id1 & e1 & p1 & Hin1 & _ & ->).
        apply elem_of_batch in H2 as (id2 & e2 & p2 & Hin2 & _ & ->).
        injection Hkey as -> ->.
        apply elem_of_due_events in Hin1 as [Hrow1 _].
        apply elem_of_due_events in Hin2 as [Hrow2 _].
        rewrite Hrow1 in Hrow2. by injection Hrow2 as ->.
      - unfold batch. apply NoDup_bind.
        + intros [id1 e1] [id2 e2] d H1 H2 Hd1 Hd2. simpl in *.
          unfold deliveries in Hd1, Hd2.
          apply list_elem_of_fmap in Hd1 as (p1 & -> & _).
          apply list_elem_of_fmap in Hd2 as (p2 & [= <- _] & _).
          apply elem_of_due_events in H1 as [Hrow1 _].
          apply elem_of_due_events in H2 as [Hrow2 _].
          rewrite Hrow1 in Hrow2. by injection Hrow2 as ->.
        + intros [id e] _. simpl. unfold deliveries.
          apply NoDup_fmap_2_strong; [|apply NoDup_rsvps_with_status].
          by intros p1 p2 _ _ [= ->].
        + unfold due_events. apply NoDup_filter, NoDup_map_to_list. }
    rewrite fmap_app. apply NoDup_app. split; [apply Hbatch|].
    split; [|apply Hbatch].
    intros key H1 H2.
    apply list_elem_of_fmap in H1 as (d1 & -> & H1).
    apply list_elem_of_fmap in H2 as (d2 & Hkey & H2).
    apply elem_of_batch in H1 as (id1 & e1 & p1 & _ & _ & ->).
    apply elem_of_batch in H2 as (id2 & e2 & p2 & _ & _ & ->).
    discriminate Hkey.
Qed.

(** X7.  The numbers the job reports are those of its log: [sent_count] is
    the number of calls of [send_event_update] that succeeded, [error_count]
    the number that failed, and together they count every call. *)
Theorem reminder_counts_match_the_log env now db :
  let run := (send_event_reminders env now db).1 in
  tallied run
  ∧ (sent_count run + error_count run)%N = N.of_nat (length (run_log run))
  ∧ (send_event_reminders env now db).2
    = "Reminder task completed: " +:+ Py.str (sent_count run) +:+ " sent, "
      +:+ Py.str (error_count run) +:+ " errors".
Proof.
  intros run.
  assert (tallied run) as Htally.
  { unfold run, send_event_reminders, remind_pass. simpl.
    apply remind_events_tallied, remind_events_tallied. by split. }
  split; [done|]. split; [|done].
  destruct Htally as [-> ->].
  rewrite <- Nat2N.inj_add. f_equal.
  induction (run_log run) as [|d l IH]; [done|].
  destruct (count_success_cons (delivery_success d) d l) as [-> ->]; [done|].
  simpl. destruct (delivery_success d); lia.
Qed.

Lemma flags_raised_refl e : flags_raised e e.
Proof. by destruct e. Qed.

Lemma flags_raised_mark kind e : flags_raised e (mark_reminder_sent kind e).
Proof. by destruct kind, e. Qed.

Lemma flags_raised_trans e1 e2 e3 :
  flags_raised e1 e2 → flags_raised e2 e3 → flags_raised e1 e3.
Proof.
  intros (H12 & Ha & Hb) (H23 & Hc & Hd). split; [|split; auto].
  rewrite H23 at 1. rewrite H12 at 1. by destruct e1.
Qed.

(** X8.  The job writes nothing but reminder flags, and only raises them:
    users, questions, RSVPs and answers are as before; no event is added or
    removed; every event row is the row it was but for reminder flags that
    went from false to true; and an event that was due for neither batch is
    left exactly as it was. *)
Theorem reminders_only_raise_flags env now db :
  let db' := run_db (send_event_reminders env now db).1 in
  users db' = users db
  ∧ questions db' = questions db
  ∧ rsvps db' = rsvps db
  ∧ answers db' = answers db
  ∧ (∀ id, match events db !! id, events db' !! id with
           | Some e, Some e' =>
               flags_raised e e'
               ∧ (due Reminder24h now e = false → due Reminder1h now e = false →
                  e' = e)
           | None, None => True
           | _, _ => False
           end).
Proof.
  intros db'. unfold db', send_event_reminders, remind_pass. simpl.
  set (run0 := mkRun db [] 0 0).
  set (run1 := foldl (remind_event env Reminder24h) run0
                     (due_events Reminder24h now db)).
  destruct (remind_events_exact env Reminder24h (due_events Reminder24h now db) run0)
    as (Hu1 & Hq1 & Hr1 & Ha1 & _).
  destruct (remind_events_exact env Reminder1h
              (due_events Reminder1h now (run_db run1)) run1)
    as (Hu2 & Hq2 & Hr2 & Ha2 & _).
  fold run1 in Hu1, Hq1, Hr1, Ha1. cbv zeta in *.
  rewrite Hu2, Hq2, Hr2, Ha2, Hu1, Hq1, Hr1, Ha1.
  repeat split; try done.
  intros id.
  destruct (events (run_db (foldl (remind_event env Reminder1h) run1
                              (due_events Reminder1h now (run_db run1)))) !! id)
    as [e'|] eqn:Hafter.
  - apply (remind_pass_rows_back env Reminder1h now run1) in Hafter
      as (e1 & Hrow1 & H2).
    apply (remind_pass_rows_back env Reminder24h now run0) in Hrow1
      as (e & Hrow & H1).
    simpl in Hrow. rewrite Hrow. split.
    + apply (flags_raised_trans e e1 e').
      * destruct H1 as [->|[-> _]];
          [apply flags_raised_refl|apply flags_raised_mark].
      * destruct H2 as [->|[-> _]];
          [apply flags_raised_refl|apply flags_raised_mark].
    + intros Hn24 Hn1.
      destruct H1 as [->|[_ Hdue]]; [|congruence].
      destruct H2 as [->|[_ Hdue]]; [done|congruence].
  - destruct (events db !! id) as [e|] eqn:Hrow; [|done].
    destruct (remind_pass_rows_forth env Reminder24h now run0 id e Hrow)
      as (e1 & Hrow1).
    destruct (remind_pass_rows_forth env Reminder1h now
                (remind_pass env Reminder24h now run0) id e1 Hrow1)
      as (e2 & Hrow2).
    unfold remind_pass in Hrow2. simpl in Hrow2. fold run1 in Hrow2.
    congruence.
Qed.

End ReminderExtras.


(** ** Joining and leaving the organizing team *)

Section OrganizerTeam.
Import Models Views.

Lemma with_events_id db : with_events (events db) db = db.
Proof. by destruct db. Qed.

Lemma is_organizer_all_organizers e user :
  is_organizer e user = true ↔ user ∈ all_organizers e.
Proof.
  unfold is_organizer, all_organizers.
  rewrite orb_true_iff, !bool_decide_eq_true. set_solver.
Qed.

(** The two ways [invite_organizer] can end: nothing is written or queued,
    or an organizer's form added a registered user to the team. *)
Lemma invite_organizer_cases env req event_id db :
  let r := invite_organizer env req event_id db in
  (result_db r = db ∧ queued_sms r = [] ∧ ∀ text, flashed r ≠ [MsgSuccess text])
  ∨ ∃ inviter event invitee,
      method req = "POST"
      ∧ logged_in req = Some inviter
      ∧ get_active_event db event_id = Some event
      ∧ is_Some (users db !! inviter)
      ∧ is_organizer event inviter = true
      ∧ (size (organizers event) < 5)%nat
      ∧ normalize_phone_number env
          (Py.strip (default "" (POST req !! "phone_number"))) = Some invitee
      ∧ invitee ≠ ""
      ∧ is_Some (users db !! invitee)
      ∧ created_by event ≠ invitee
      ∧ (invitee ∉ organizers event)
      ∧ result_db r
        = with_events
            (<[event_id := set_organizers (organizers event ∪ {[invitee]}) event]>
               (events db)) db
      ∧ queued_sms r
        = [(invitee,
            "You've been added as an organizer for '" +:+ title event
            +:+ "' on " +:+ strftime env (event_state_date event) +:+ ". "
            +:+ get_short_url (SITE_DOMAIN env) event)]
      ∧ flashed r = [MsgSuccess "You've invited your organizer!"].
Proof.
  unfold invite_organizer.
  destruct (logged_in req) as [inviter|] eqn:Hlogin; [|by left].
  destruct (get_active_event db event_id) as [event|] eqn:Hevent; [|by left].
  destruct (users db !! inviter) as [user|] eqn:Huser; [|by left].
  destruct (is_organizer event inviter) eqn:Horg; [|by left]. simpl.
  destruct (can_invite_organizer event) eqn:Hcan; [|by left]. simpl.
  case_bool_decide as Hpost; [|by left].
  destruct (Py.truthy (Py.strip _)) eqn:Htyped; [|by left]. simpl.
  destruct (normalize_phone_number env _) as [invitee|] eqn:Hparse; [|by left].
  destruct (Py.truthy invitee) eqn:Hinvitee; [|by left]. simpl.
  destruct (users db !! invitee) as [row|] eqn:Hrow; [|by left].
  case_bool_decide as Hcreator; [by left|].
  case_bool_decide as Hmember; [by left|].
  right. exists inviter, event, invitee. simpl.
  apply bool_decide_eq_true_1 in Hcan.
  split_and!; try done. by destruct invitee.
Qed.

(** X17.  Only the form of an organizer of the event changes its team, and
    it does so by one user: a registered user who was neither its creator nor
    among its co-organizers, who is told by a message and who is an organizer
    afterwards; who else is an organizer does not change, and no other event
    and no other table is written.  Any other request writes nothing and
    queues nothing. *)
Theorem invite_organizer_adds_a_registered_user env req event_id db :
  let r := invite_organizer env req event_id db in
  (result_db r = db ∧ queued_sms r = [])
  ∨ ∃ inviter event invitee text event',
      method req = "POST"
      ∧ logged_in req = Some inviter
      ∧ events db !! event_id = Some event
      ∧ is_organizer event inviter = true
      ∧ is_Some (users db !! invitee)
      ∧ is_organizer event invitee = false
      ∧ queued_sms r = [(invitee, text)]
      ∧ result_db r = with_events (<[event_id := event']> (events db)) db
      ∧ set_organizers (organizers event) event' = event
      ∧ (∀ user, is_organizer event' user
                 = (is_organizer event user || bool_decide (user = invitee))).
Proof.
  intros r.
  destruct (invite_organizer_cases env req event_id db)
    as [(Hdb & Hsms & _)
       |(inviter & event & invitee & Hpost & Hlogin & Hevent & _ & Horg & _ & _
         & _ & Hrow & Hcreator & Hmember & Hdb & Hsms & _)];
    [by left|right].
  apply get_active_event_Some in Hevent as [Hevent _].
  exists inviter, event, invitee. eexists. eexists.
  split_and!; try done.
  - unfold is_organizer. by rewrite !bool_decide_eq_false_2.
  - by destruct event.
  - intros user. unfold is_organizer. simpl.
    apply eq_true_iff_eq.
    rewrite !orb_true_iff, !bool_decide_eq_true. set_solver.
Qed.

(** The two ways [leave_event] can end. *)
Lemma leave_event_cases req event_id db :
  let r := leave_event req event_id db in
  (result_db r = db ∧ ∀ text, flashed r ≠ [MsgSuccess text])
  ∨ ∃ user_phone event,
      method req = "POST"
      ∧ logged_in req = Some user_phone
      ∧ get_active_event db event_id = Some event
      ∧ is_Some (users db !! user_phone)
      ∧ created_by event ≠ user_phone
      ∧ user_phone ∈ organizers event
      ∧ result_db r
        = with_events
            (<[event_id := set_organizers (organizers event ∖ {[user_phone]}) event]>
               (events db)) db
      ∧ flashed r = [MsgSuccess "You've left the event organizing team."].
Proof.
  unfold leave_event.
  case_bool_decide as Hpost; simpl; [|by left].
  destruct (logged_in req) as [user_phone|] eqn:Hlogin; [|by left].
  destruct (get_active_event db event_id) as [event|] eqn:Hevent; [|by left].
  destruct (users db !! user_phone) as [user|] eqn:Huser; [|by left].
  case_bool_decide as Hcreator; [by left|].
  case_bool_decide as Hmember; simpl; [|by left].
  right. by exists user_phone, event.
Qed.

(** X18.  [leave_event] removes nobody but the user who posts it, and only
    a co-organizer: afterwards that user is no organizer of the event and
    everyone else is one exactly if they were.  The creator cannot leave,
    and a request that is no POST of a logged-in co-organizer writes
    nothing.  No message is ever queued. *)
Theorem leave_event_removes_the_leaver req event_id db :
  let r := leave_event req event_id db in
  queued_sms r = []
  ∧ (result_db r = db
     ∨ ∃ user_phone event event',
         method req = "POST"
         ∧ logged_in req = Some user_phone
         ∧ events db !! event_id = Some event
         ∧ user_phone ∈ organizers event
         ∧ created_by event ≠ user_phone
         ∧ result_db r = with_events (<[event_id := event']> (events db)) db
         ∧ set_organizers (organizers event) event' = event
         ∧ (∀ user, is_organizer event' user
                    = (is_organizer event user
                       && negb (bool_decide (user = user_phone))))).
Proof.
  intros r. split.
  { unfold r, leave_event. repeat case_match; done. }
  destruct (leave_event_cases req event_id db)
    as [(Hdb & _)
       |(user_phone & event & Hpost & Hlogin & Hevent & _ & Hcreator
         & Hmember & Hdb & _)];
    [by left|right].
  apply get_active_event_Some in Hevent as [Hevent _].
  exists user_phone, event. eexists.
  split_and!; try done.
  - by destruct event.
  - intros user. unfold is_organizer. simpl.
    apply eq_true_iff_eq.
    rewrite andb_true_iff, !orb_true_iff, negb_true_iff, !bool_decide_eq_true,
      bool_decide_eq_false.
    set_solver.
Qed.

(** X19.  An invitation can be undone: when [invite_organizer] added a user
    to the team (it queued the message for [invitee]), [leave_event] posted
    by that user right after gives the tables as they were before the
    invitation. *)
Theorem invited_organizer_can_leave env req req' event_id db invitee text :
  queued_sms (invite_organizer env req event_id db) = [(invitee, text)] →
  method req' = "POST" →
  logged_in req' = Some invitee →
  let db1 := result_db (invite_organizer env req event_id db) in
  db1 ≠ db
  ∧ result_db (leave_event req' event_id db1) = db
  ∧ flashed (leave_event req' event_id db1)
    = [MsgSuccess "You've left the event organizing team."].
Proof.
  intros Hsms Hpost' Hlogin' db1.
  destruct (invite_organizer_cases env req event_id db)
    as [(_ & Hnone & _)
       |(inviter & event & invitee' & _ & _ & Hevent & _ & _ & _ & _ & _
         & Hrow & Hcreator & Hmember & Hdb & Hsms' & _)].
  { rewrite Hnone in Hsms. discriminate. }
  rewrite Hsms' in Hsms. injection Hsms as -> _.
  apply get_active_event_Some in Hevent as [Hevent Hactive].
  fold db1 in Hdb.
  assert (events db1 !! event_id
          = Some (set_organizers (organizers event ∪ {[invitee]}) event)) as Hevent1.
  { rewrite Hdb. simpl. apply lookup_insert_eq. }
  split.
  { intros Heq. rewrite Heq, Hevent in Hevent1. injection Hevent1 as Heq1.
    apply (f_equal organizers) in Heq1. simpl in Heq1. set_solver. }
  unfold leave_event.
  rewrite (bool_decide_eq_true_2 _ Hpost'), Hlogin'. simpl.
  unfold get_active_event. rewrite Hevent1. simpl. rewrite Hactive.
  assert (users db1 = users db) as -> by (by rewrite Hdb).
  destruct Hrow as [row ->]. simpl.
  rewrite (bool_decide_eq_false_2 _ Hcreator).
  rewrite (bool_decide_eq_true_2 (invitee ∈ organizers event ∪ {[invitee]}))
    by set_solver.
  simpl. split; [|done].
  rewrite Hdb. simpl. unfold with_events. simpl.
  rewrite insert_insert_eq.
  assert ((organizers event ∪ {[invitee]}) ∖ {[invitee]} = organizers event)
    as -> by set_solver.
  assert (set_organizers (organizers event)
            (set_organizers (organizers event ∪ {[invitee]}) event) = event) as ->
    by (by destruct event).
  rewrite insert_id by done. by destruct db.
Qed.

Lemma invited_organizer_can_leave_witness :
  let req := Samples.post Samples.ada false [("phone_number", Samples.fay)] in
  let req' := Samples.post Samples.fay false [] in
  let db1 := result_db (invite_organizer Samples.view_env req 7 Samples.db_organized) in
  db1 ≠ Samples.db_organized
  ∧ result_db (leave_event req' 7 db1) = Samples.db_organized
  ∧ flashed (leave_event req' 7 db1)
    = [MsgSuccess "You've left the event organizing team."].
Proof.
  refine (invited_organizer_can_leave Samples.view_env
            (Samples.post Samples.ada false [("phone_number", Samples.fay)])
            (Samples.post Samples.fay false []) 7%N Samples.db_organized
            Samples.fay
            "You've been added as an organizer for 'Party' on January 02 at 12:00 AM. http://localhost:8000/e/Ab3dE6fG"
            _ _ _).
  - vm_compute. reflexivity.
  - reflexivity.
  - reflexivity.
Defined.

End OrganizerTeam.


(** ** Logging in *)

Section LoginViews.
Import Models Views.

Lemma truthy_entry_Some entry s :
  truthy_entry entry = Some s → entry = Some s ∧ s ≠ "".
Proof.
  unfold truthy_entry. destruct entry as [s'|]; [|done].
  destruct s'; [done|]. by intros [= <-].
Qed.

(** The two ways [AuthService.verify_code] can end. *)
Lemma auth_verify_code_cases now (users : gmap string User) phone code :
  (∃ u sent_at,
      users !! phone = Some u
      ∧ verification_code u = code
      ∧ verification_code_sent_at u = Some sent_at
      ∧ now ≤ sent_at + timedelta 0 5
      ∧ Auth.verify_code now users phone code
        = (<[phone := mkUser (phone_number u) (name u) "" None true]> users,
           (true, Some (mkUser (phone_number u) (name u) "" None true), None)))
  ∨ (∃ error_type,
       Auth.verify_code now users phone code
       = (users, (false, None, Some error_type))).
Proof.
  unfold Auth.verify_code.
  destruct (users !! phone) as [u|]; [|right; by eexists].
  unfold is_verification_code_expired.
  destruct (verification_code_sent_at u) as [sent_at|] eqn:Hsent;
    [|right; by eexists].
  simpl. case_bool_decide as Hlate; [right; by eexists|].
  case_bool_decide as Hcode; [|right; by eexists].
  left. exists u, sent_at. split_and!; try done. lia.
Qed.

(** X20.  A session becomes the session of a user through [verify_code]
    only if the code posted (surrounding white space apart) is the one stored
    for the number the session is verifying, and that code was issued no more
    than five minutes before; the user's row is then verified, its code
    cleared, and the session stops verifying. *)
Theorem login_needs_the_code now method POST session
    (users : gmap string User) phone :
  s_user_phone (login_session (verify_code now method POST session users))
  = Some phone →
  s_user_phone session ≠ Some phone →
  let r := verify_code now method POST session users in
  method = "POST"
  ∧ s_verification_phone session = Some phone
  ∧ (∃ u sent_at,
       users !! phone = Some u
       ∧ verification_code u = Py.strip (default "" (POST !! "code"))
       ∧ verification_code_sent_at u = Some sent_at
       ∧ now ≤ sent_at + timedelta 0 5)
  ∧ (∃ u',
       login_users r !! phone = Some u'
       ∧ is_verified u' = true
       ∧ verification_code u' = ""
       ∧ verification_code_sent_at u' = None
       ∧ s_user_name (login_session r) = Some (name u'))
  ∧ s_verification_phone (login_session r) = None.
Proof.
  intros Hafter Hbefore r. revert Hafter. unfold r, verify_code. cbv zeta.
  destruct (truthy_entry (s_verification_phone session)) as [verifying|] eqn:Hv;
    [|by intros ?].
  apply truthy_entry_Some in Hv as [Hv _].
  case_bool_decide as Hpost; [|by intros ?].
  destruct (auth_verify_code_cases now users verifying
              (Py.strip (default "" (POST !! "code"))))
    as [(u & sent_at & Hu & Hcode & Hsent & Hfresh & ->)|(error_type & ->)];
    [|by intros ?].
  assert (∀ us (s : Session) msgs resp,
            s_user_phone
              (login_session
                 (match s_rsvp_after_login session with
                  | Some rsvp_data => mkLoginResult us s [] (resp rsvp_data)
                  | None => mkLoginResult us s msgs (Redirect "index" None)
                  end)) = s_user_phone s) as Hsession
    by (intros; by destruct (s_rsvp_after_login session)).
  rewrite Hsession. simpl. intros [= <-].
  split_and!; try done.
  - by exists u, sent_at.
  - destruct (s_rsvp_after_login session);
      destruct (Py.truthy (Py.strip (default "" (POST !! "name")))); simpl;
      eexists; rewrite lookup_insert_eq; done.
  - by destruct (s_rsvp_after_login session).
Qed.

Lemma login_needs_the_code_witness :
  let u := mkUser "+15550100" "" "123456" (Some 1000) false in
  let users : gmap string User := {["+15550100" := u]} in
  let session := mkSession None None (Some "+15550100") None in
  let POST : gmap string string := {["code" := " 123456 "]} in
  let r := verify_code 2000 "POST" POST session users in
  "POST" = "POST"
  ∧ s_verification_phone session = Some "+15550100"
  ∧ (∃ u sent_at,
       users !! "+15550100" = Some u
       ∧ verification_code u = Py.strip (default "" (POST !! "code"))
       ∧ verification_code_sent_at u = Some sent_at
       ∧ 2000 ≤ sent_at + timedelta 0 5)
  ∧ (∃ u',
       login_users r !! "+15550100" = Some u'
       ∧ is_verified u' = true
       ∧ verification_code u' = ""
       ∧ verification_code_sent_at u' = None
       ∧ s_user_name (login_session r) = Some (name u'))
  ∧ s_verification_phone (login_session r) = None.
Proof.
  refine (login_needs_the_code 2000 "POST" {["code" := " 123456 "]}
            (mkSession None None (Some "+15550100") None)
            {["+15550100" := mkUser "+15550100" "" "123456" (Some 1000) false]}
            "+15550100" _ _).
  - vm_compute. reflexivity.
  - discriminate.
Defined.

(** X21.  No other login view logs anybody in: after [phone_login],
    [resend_code] or [logout_view] the session is that of the user it was, or
    of nobody; [logout_view] always leaves the session of nobody, and
    [phone_login] ends the session of a user whose row is gone.  A call of
    [verify_code] that does not log in leaves the session as it was. *)
Theorem only_verify_code_logs_in cfg gw env now later entropy method POST hx
    session (users : gmap string User) :
  (let s := login_session
              (phone_login cfg gw env now later entropy method POST session users) in
   (s_user_phone s = s_user_phone session ∨ s_user_phone s = None)
   ∧ (∀ phone, truthy_entry (s_user_phone session) = Some phone →
               users !! phone = None → s_user_phone s = None))
  ∧ login_session (resend_code cfg gw now later entropy hx session users) = session
  ∧ login_session (logout_view session users) = flush
  ∧ (let s := login_session (verify_code now method POST session users) in
     s = session ∨ s_user_phone s = truthy_entry (s_verification_phone session)).
Proof.
  assert (∀ s0, let s := login_session
                    (phone_login_form cfg gw env now later entropy method POST
                                      s0 users) in
                s_user_phone s = s_user_phone s0) as Hform.
  { intros s0. unfold phone_login_form. cbv zeta.
    case_bool_decide; [|done].
    destruct (posted_phone_number env POST) as [formatted_number|]; [|done].
    destruct (Auth.send_verification_code _ _ _ _ _ _) as [us [[] result]];
      destruct (users !! formatted_number) as [existing_user|];
      try destruct (negb (can_resend_code now existing_user)); done. }
  split_and!.
  - unfold phone_login.
    destruct (truthy_entry (s_user_phone session)) as [user_phone|] eqn:Huser.
    + destruct (users !! user_phone) eqn:Hrow.
      * split; [by left|]. intros phone [= ->]. by rewrite Hrow.
      * split; [right|intros ? _ _]; apply Hform.
    + split; [left; apply Hform|]. by intros phone.
  - unfold resend_code.
    destruct (truthy_entry (s_verification_phone session)) as [phone|]; [|done].
    destruct (users !! phone) as [user|]; [|done].
    destruct (negb (can_resend_code now user)); [done|].
    by destruct (Auth.send_verification_code _ _ _ _ _ _) as [us [success result]].
  - done.
  - unfold verify_code. cbv zeta.
    destruct (truthy_entry (s_verification_phone session)) as [phone|];
      [|by left].
    case_bool_decide; [|by left].
    destruct (Auth.verify_code _ _ _ _) as [us [[[] [user|]] error_type]];
      try (by left).
    right. by destruct (s_rsvp_after_login session).
Qed.

Lemma timedelta_one_minute : timedelta 0 1 = 60000000.
Proof. reflexivity. Qed.

(** The seconds shown during the cooldown. *)
Lemma cooldown_seconds_range now later u sent_at :
  verification_code_sent_at u = Some sent_at →
  sent_at ≤ now → now ≤ later →
  let n := get_resend_cooldown_seconds later u in
  0 ≤ n ≤ 60 ∧ (n = 0 ↔ sent_at + seconds 59 < later).
Proof.
  intros Hsent Hpast Hclock. unfold get_resend_cooldown_seconds.
  rewrite Hsent. cbv zeta. rewrite timedelta_one_minute. unfold seconds.
  pose proof (Z.quot_le_mono (sent_at + 60000000 - later) 60000000 1000000
                ltac:(lia) ltac:(lia)) as Hup.
  change (60000000 ÷ 1000000) with 60 in Hup.
  split; [lia|].
  destruct (decide (sent_at + 59 * 1000000 < later)) as [Hlast|Hlast].
  - split; [done|]. intros _.
    destruct (decide (0 ≤ sent_at + 60000000 - later)) as [Hpos|Hneg].
    + rewrite Z.quot_small by lia. lia.
    + pose proof (Z.quot_le_upper_bound (sent_at + 60000000 - later) 1000000 0
                    ltac:(lia) ltac:(lia)).
      lia.
  - split; [|lia]. intros Hzero. exfalso.
    pose proof (Z.quot_le_lower_bound (sent_at + 60000000 - later) 1000000 1
                  ltac:(lia) ltac:(lia)).
    lia.
Qed.

(** X22.  The minute between two codes.  For a number whose code was issued
    at [sent_at], [resend_code] and [phone_login] called within the minute
    send nothing and leave the users and the session as they were: they
    tell the user to wait for a number of seconds between 0 and 60, which is
    0 during the last second of the minute (and after it, if the minute ends
    between the two readings of the clock).  Called after the minute,
    [resend_code] issues a new code, stamped with the time of the call. *)
Theorem one_code_a_minute cfg gw env now later entropy POST hx session
    (users : gmap string User) phone u sent_at :
  users !! phone = Some u →
  verification_code_sent_at u = Some sent_at →
  sent_at ≤ now → now ≤ later →
  let resent := resend_code cfg gw now later entropy hx session users in
  let asked := phone_login cfg gw env now later entropy "POST" POST session users in
  let n := get_resend_cooldown_seconds later u in
  (now ≤ sent_at + timedelta 0 1 →
   0 ≤ n ≤ 60 ∧ (n = 0 ↔ sent_at + seconds 59 < later)
   ∧ (truthy_entry (s_verification_phone session) = Some phone →
      login_users resent = users ∧ login_session resent = session
      ∧ login_flashed resent = [MsgError (wait_message n)])
   ∧ (truthy_entry (s_user_phone session) = None →
      posted_phone_number env POST = Some phone →
      login_users asked = users ∧ login_session asked = session
      ∧ login_flashed asked = [MsgError (wait_message n)]))
  ∧ (sent_at + timedelta 0 1 < now →
     truthy_entry (s_verification_phone session) = Some phone →
     ∃ u', login_users resent !! phone = Some u'
           ∧ verification_code u' = Auth.issued_code entropy
           ∧ verification_code_sent_at u' = Some later).
Proof.
  intros Hu Hsent Hpast Hclock resent asked n.
  split.
  - intros Hwithin.
    assert (can_resend_code now u = false) as Hwait.
    { unfold can_resend_code. rewrite Hsent. simpl.
      apply bool_decide_eq_false_2. lia. }
    destruct (cooldown_seconds_range now later u sent_at Hsent Hpast Hclock)
      as [Hrange Hzero].
    split_and!; try done; try apply Hrange.
    + intros Hverifying. unfold resent, resend_code.
      by rewrite Hverifying, Hu, Hwait.
    + intros Hanonymous Hposted. unfold asked, phone_login, phone_login_form.
      rewrite Hanonymous. cbv zeta.
      rewrite (bool_decide_eq_true_2 ("POST" = "POST")) by done.
      by rewrite Hposted, Hu, Hwait.
  - intros Hover Hverifying.
    assert (can_resend_code now u = true) as Hgo.
    { unfold can_resend_code. rewrite Hsent. simpl.
      by apply bool_decide_eq_true_2. }
    destruct (send_verification_code_stores cfg gw later entropy users phone)
      as (u' & Hu' & Hcode & Hstamp).
    unfold resent, resend_code. rewrite Hverifying, Hu, Hgo. cbn [negb].
    destruct (Auth.send_verification_code _ _ _ _ _ _) as [us [success result]].
    by exists u'.
Qed.

Lemma one_code_a_minute_witness :
  let u := mkUser "+15550100" "" "123456" (Some 0) false in
  let users : gmap string User := {["+15550100" := u]} in
  let session := mkSession None None (Some "+15550100") None in
  let POST : gmap string string := {["phone_number" := "+15550100"]} in
  let resent := resend_code Samples.auth_settings Samples.gateway_up
                  (seconds 20) (seconds 21) 42 false session users in
  let asked := phone_login Samples.auth_settings Samples.gateway_up
                 Samples.view_env (seconds 20) (seconds 21) 42 "POST" POST
                 session users in
  let n := get_resend_cooldown_seconds (seconds 21) u in
  (seconds 20 ≤ 0 + timedelta 0 1 →
   0 ≤ n ≤ 60 ∧ (n = 0 ↔ 0 + seconds 59 < seconds 21)
   ∧ (truthy_entry (s_verification_phone session) = Some "+15550100" →
      login_users resent = users ∧ login_session resent = session
      ∧ login_flashed resent = [MsgError (wait_message n)])
   ∧ (truthy_entry (s_user_phone session) = None →
      posted_phone_number Samples.view_env POST = Some "+15550100" →
      login_users asked = users ∧ login_session asked = session
      ∧ login_flashed asked = [MsgError (wait_message n)]))
  ∧ (0 + timedelta 0 1 < seconds 20 →
     truthy_entry (s_verification_phone session) = Some "+15550100" →
     ∃ u', login_users resent !! "+15550100" = Some u'
           ∧ verification_code u' = Auth.issued_code 42
           ∧ verification_code_sent_at u' = Some (seconds 21)).
Proof.
  refine (one_code_a_minute Samples.auth_settings Samples.gateway_up
            Samples.view_env (seconds 20) (seconds 21) 42
            {["phone_number" := "+15550100"]} false
            (mkSession None None (Some "+15550100") None)
            {["+15550100" := mkUser "+15550100" "" "123456" (Some 0) false]}
            "+15550100" (mkUser "+15550100" "" "123456" (Some 0) false) 0
            _ _ _ _).
  - reflexivity.
  - reflexivity.
  - vm_compute. discriminate.
  - vm_compute. discriminate.
Defined.

(** X23.  Logging in, from the form to the session: when a visitor posts a
    number that is not waiting out its minute, and the message is delivered,
    [phone_login] sends the visitor on to [verify_code]; the code of that
    message, posted there within five minutes (with white space around it or
    not), makes the session the session of that number and the row verified,
    and sends the user on to the event of an RSVP that was waiting for the
    login, or else to the index. *)
Theorem login_round_trip cfg gw env now later entropy POST session
    (users : gmap string User) phone at_verify POST2 :
  truthy_entry (s_user_phone session) = None →
  posted_phone_number env POST = Some phone →
  (∀ u, users !! phone = Some u → can_resend_code now u = true) →
  (Auth.deliver cfg gw phone
     ("Your verification code is " +:+ Auth.issued_code entropy +:+ ".")).1 = true →
  Py.strip (default "" (POST2 !! "code")) = Auth.issued_code entropy →
  at_verify ≤ later + timedelta 0 5 →
  let r1 := phone_login cfg gw env now later entropy "POST" POST session users in
  let r2 := verify_code at_verify "POST" POST2 (login_session r1) (login_users r1) in
  login_response r1 = Redirect "verify_code" None
  ∧ s_user_phone (login_session r2) = Some phone
  ∧ s_verification_phone (login_session r2) = None
  ∧ (∃ u, login_users r2 !! phone = Some u ∧ is_verified u = true)
  ∧ login_response r2
    = match s_rsvp_after_login session with
      | Some rsvp_data => Redirect "event_detail" (Some rsvp_data.1)
      | None => Redirect "index" None
      end.
Proof.
  intros Hanonymous Hposted Hready Hdelivered Hcode Hfresh r1 r2.
  assert (phone ≠ "") as Hphone.
  { unfold posted_phone_number in Hposted.
    destruct (POST !! "phone_number") as [p|]; [|done].
    destruct (Py.truthy p); [|done].
    by apply truthy_entry_Some in Hposted as [_ ?]. }
  assert (r1 = mkLoginResult
                 (Auth.send_verification_code cfg gw later entropy users phone).1
                 (mkSession (s_user_phone session) (s_user_name session)
                            (Some phone) (s_rsvp_after_login session))
                 [MsgSuccess "Verification code sent to your phone!"]
                 (Redirect "verify_code" None)) as Hr1.
  { unfold r1, phone_login, phone_login_form. rewrite Hanonymous. cbv zeta.
    rewrite (bool_decide_eq_true_2 ("POST" = "POST")) by done.
    rewrite Hposted.
    assert (Auth.send_verification_code cfg gw later entropy users phone
            = ((Auth.send_verification_code cfg gw later entropy users phone).1,
               (true, (Auth.deliver cfg gw phone
                         ("Your verification code is "
                          +:+ Auth.issued_code entropy +:+ ".")).2))) as Hsend.
    { pose proof (send_verification_code_message cfg gw later entropy users phone)
        as Hmessage.
      destruct (Auth.send_verification_code cfg gw later entropy users phone)
        as [us sent].
      cbn [fst snd] in Hmessage |- *. rewrite Hmessage.
      rewrite (surjective_pairing (Auth.deliver _ _ _ _)) at 1.
      by rewrite Hdelivered. }
    destruct (users !! phone) as [u|] eqn:Hu.
    - rewrite (Hready u eq_refl). cbn [negb]. by rewrite Hsend.
    - by rewrite Hsend. }
  destruct (send_verification_code_stores cfg gw later entropy users phone)
    as (u1 & Hu1 & Hcode1 & Hsent1).
  split; [by rewrite Hr1|].
  unfold r2. rewrite Hr1. cbn [login_session login_users].
  set (users1 := (Auth.send_verification_code cfg gw later entropy users phone).1)
    in *.
  unfold verify_code. cbv zeta. cbn [s_verification_phone truthy_entry].
  rewrite (proj2 (truthy_true phone) Hphone).
  rewrite (bool_decide_eq_true_2 ("POST" = "POST")) by done.
  rewrite Hcode, <- Hcode1.
  rewrite (verify_code_match at_verify users1 phone u1 Hu1)
    by (by apply (not_expired_within_five_minutes _ _ later)).
  cbn [s_rsvp_after_login].
  destruct (s_rsvp_after_login session);
    cbn [login_session login_users login_response s_user_phone
         s_verification_phone];
    (split_and!; try done;
     destruct (Py.truthy _); eexists; rewrite ?lookup_insert_eq; done).
Qed.

Lemma login_round_trip_witness :
  let POST : gmap string string := {["phone_number" := "+15550100"]} in
  let POST2 : gmap string string :=
    {["code" := " " +:+ Auth.issued_code 42; "name" := "Ada"]} in
  let r1 := phone_login Samples.auth_settings Samples.gateway_up Samples.view_env
              0 0 42 "POST" POST flush ∅ in
  let r2 := verify_code (seconds 30) "POST" POST2 (login_session r1)
              (login_users r1) in
  login_response r1 = Redirect "verify_code" None
  ∧ s_user_phone (login_session r2) = Some "+15550100"
  ∧ s_verification_phone (login_session r2) = None
  ∧ (∃ u, login_users r2 !! "+15550100" = Some u ∧ is_verified u = true)
  ∧ login_response r2
    = match s_rsvp_after_login flush with
      | Some rsvp_data => Redirect "event_detail" (Some rsvp_data.1)
      | None => Redirect "index" None
      end.
Proof.
  refine (login_round_trip Samples.auth_settings Samples.gateway_up
            Samples.view_env 0 0 42 {["phone_number" := "+15550100"]} flush ∅
            "+15550100" (seconds 30)
            {["code" := " " +:+ Auth.issued_code 42; "name" := "Ada"]}
            _ _ _ _ _ _).
  - reflexivity.
  - vm_compute. reflexivity.
  - intros u Hu. by rewrite lookup_empty in Hu.
  - reflexivity.
  - vm_compute. reflexivity.
  - vm_compute. discriminate.
Defined.

End LoginViews.


(** ** The questionnaire of an event *)

Section Questionnaire.
Import Models Views.

Lemma NoDup_event_questions db event_id :
  NoDup (event_questions db event_id).*1.
Proof.
  apply NoDup_fmap_2_strong.
  - intros [id1 q1] [id2 q2] H1 H2 Heq. simpl in Heq. subst id2.
    f_equal. by apply (event_questions_functional db event_id id1).
  - unfold event_questions. rewrite merge_sort_Permutation.
    apply NoDup_filter, NoDup_map_to_list.
Qed.

Lemma slot_id_existing existing next_id order id question :
  existing !! order = Some (id, question) → slot_id existing next_id order = id.
Proof. unfold slot_id. by intros ->. Qed.

Lemma slot_id_new existing next_id order :
  (length existing ≤ order)%nat →
  slot_id existing next_id order
  = (next_id + N.of_nat (order - length existing))%N.
Proof.
  intros Hge. unfold slot_id. by rewrite (proj2 (lookup_ge_None _ _) Hge).
Qed.

(** Different positions are held by different rows. *)
Lemma slot_id_inj (existing : list (N * EventQuestion)) next_id p1 p2 :
  NoDup existing.*1 →
  (∀ i question, existing !! i = Some question → (question.1 < next_id)%N) →
  slot_id existing next_id p1 = slot_id existing next_id p2 → p1 = p2.
Proof.
  intros Hnodup Hfresh. unfold slot_id.
  destruct (existing !! p1) as [q1|] eqn:H1, (existing !! p2) as [q2|] eqn:H2.
  - intros Heq. apply (proj1 (NoDup_alt _) Hnodup p1 p2 q1.1).
    + by rewrite list_lookup_fmap, H1.
    + by rewrite list_lookup_fmap, H2, Heq.
  - intros Heq. specialize (Hfresh _ _ H1). lia.
  - intros Heq. specialize (Hfresh _ _ H2). lia.
  - apply lookup_ge_None in H1, H2. lia.
Qed.

(** The row that holds [entry] at position [order]. *)
Lemma save_entries_spec event_id (existing : list (N * EventQuestion)) next_id
    entries :
  NoDup existing.*1 →
  (∀ i question, existing !! i = Some question → (question.1 < next_id)%N) →
  ∀ order (table : gmap N EventQuestion),
  (∀ p id q, (order ≤ p)%nat → existing !! p = Some (id, q) →
             table !! id = Some q ∧ question_event q = event_id) →
  let r := save_entries event_id existing order entries
             (next_id + N.of_nat (order - length existing))%N table in
  r.2 = (next_id + N.of_nat (order + length entries - length existing))%N
  ∧ (∀ i entry, entries !! i = Some entry →
       r.1 !! slot_id existing next_id (order + i)
       = Some (mkQuestion event_id (entry_text entry) (entry_required entry)
                          (N.of_nat (order + i))))
  ∧ (∀ id, (∀ i, (i < length entries)%nat →
                 slot_id existing next_id (order + i) ≠ id) →
           r.1 !! id = table !! id).
Proof.
  intros Hnodup Hfresh.
  induction entries as [|entry entries IH]; intros order table Hrows; simpl.
  { split_and!; [f_equal; lia|done|done]. }
  destruct (existing !! order) as [[id question]|] eqn:Hslot.
  - pose proof (lookup_lt_Some _ _ _ Hslot) as Hlt.
    destruct (Hrows order id question ltac:(lia) Hslot) as [Hrow Hevent].
    set (row := mkQuestion (question_event question) (entry_text entry)
                  (entry_required entry) (N.of_nat order)).
    match goal with
    | |- context [save_entries _ _ _ _ _ ?t] => set (table1 := t)
    end.
    assert (table1 !! id = Some row ∧ ∀ id', id' ≠ id → table1 !! id' = table !! id')
      as [Hid Hothers].
    { unfold table1.
      destruct (_ || _) eqn:Hchanged.
      - split; [apply lookup_insert_eq|]. intros id' Hne.
        by apply lookup_insert_ne.
      - split; [|done]. rewrite Hrow. f_equal.
        apply orb_false_iff in Hchanged as [Hchanged Horder].
        apply orb_false_iff in Hchanged as [Htext Hreq].
        apply negb_false_iff, bool_decide_eq_true in Htext, Hreq, Horder.
        unfold row. rewrite <- Htext, <- Hreq, <- Horder. by destruct question. }
    clearbody table1.
    replace (order - length existing)%nat with (S order - length existing)%nat
      by lia.
    destruct (IH (S order) table1) as (Hnext & Hslots & Hrest).
    { intros p id' q' Hp Hp'. split; [|by apply (Hrows p id' q'); [lia|]].
      rewrite Hothers; [by apply (Hrows p id' q'); [lia|]|].
      intros ->.
      assert (p = order); [|lia].
      apply (slot_id_inj existing next_id p order Hnodup Hfresh).
      by rewrite (slot_id_existing _ _ _ _ _ Hp'),
           (slot_id_existing _ _ _ _ _ Hslot). }
    split_and!.
    + rewrite Hnext. f_equal. lia.
    + intros [|i] entry' Hentry.
      * injection Hentry as <-. rewrite Nat.add_0_r.
        rewrite (slot_id_existing _ _ _ _ _ Hslot).
        rewrite Hrest; [by rewrite Hid; unfold row; rewrite Hevent|].
        intros i _ Heq.
        assert (S order + i = order)%nat; [|lia].
        apply (slot_id_inj existing next_id _ _ Hnodup Hfresh).
        by rewrite (slot_id_existing _ _ _ _ _ Hslot).
      * replace (order + S i)%nat with (S order + i)%nat by lia.
        by apply Hslots.
    + intros id' Hnot. rewrite Hrest.
      * apply Hothers. intros ->. apply (Hnot 0%nat); [lia|].
        rewrite Nat.add_0_r. by apply (slot_id_existing _ _ _ _ _ Hslot).
      * intros i Hi. replace (S order + i)%nat with (order + S i)%nat by lia.
        apply Hnot. lia.
  - pose proof (proj1 (lookup_ge_None _ _) Hslot) as Hge.
    set (id := (next_id + N.of_nat (order - length existing))%N).
    set (row := mkQuestion event_id (entry_text entry) (entry_required entry)
                  (N.of_nat order)).
    assert (slot_id existing next_id order = id) as Hslot_id
      by (by apply slot_id_new).
    replace (N.succ id)
      with (next_id + N.of_nat (S order - length existing))%N by (unfold id; lia).
    destruct (IH (S order) (<[id := row]> table)) as (Hnext & Hslots & Hrest).
    { intros p id' q' Hp Hp'. apply lookup_lt_Some in Hp'. lia. }
    split_and!.
    + rewrite Hnext. f_equal. lia.
    + intros [|i] entry' Hentry.
      * injection Hentry as <-. rewrite Nat.add_0_r, Hslot_id.
        rewrite Hrest; [apply lookup_insert_eq|].
        intros i _ Heq.
        assert (S order + i = order)%nat; [|lia].
        apply (slot_id_inj existing next_id _ _ Hnodup Hfresh).
        by rewrite Hslot_id.
      * replace (order + S i)%nat with (S order + i)%nat by lia.
        by apply Hslots.
    + intros id' Hnot. rewrite Hrest.
      * apply lookup_insert_ne. intros <-. apply (Hnot 0%nat); [lia|].
        by rewrite Nat.add_0_r.
      * intros i Hi. replace (S order + i)%nat with (order + S i)%nat by lia.
        apply Hnot. lia.
Qed.

#[local] Instance question_le_trans : Transitive question_le.
Proof. intros x y z. unfold question_le. lia. Qed.

#[local] Instance question_le_total : Total question_le.
Proof. intros x y. unfold question_le. lia. Qed.

Lemma StronglySorted_event_questions db event_id :
  StronglySorted question_le (event_questions db event_id).
Proof. apply StronglySorted_merge_sort; apply _. Qed.

(** A list whose elements are related in the order of their positions. *)
Lemma StronglySorted_lookup {A} (R : relation A) (l : list A) :
  (∀ i j x y, (i < j)%nat → l !! i = Some x → l !! j = Some y → R x y) →
  StronglySorted R l.
Proof.
  induction l as [|x l IH]; intros Hl; constructor.
  - apply IH. intros i j y z Hij Hi Hj. by apply (Hl (S i) (S j)); [lia|..].
  - apply Forall_forall. intros y Hy.
    apply list_elem_of_lookup in Hy as [j Hj].
    by apply (Hl 0%nat (S j)); [lia|..].
Qed.

(** What the second loop leaves. *)
Lemma delete_questions_spec (dels : list (N * EventQuestion)) db :
  let db' := foldl (λ db question, delete_question question.1 db) db dels in
  users db' = users db ∧ events db' = events db ∧ rsvps db' = rsvps db
  ∧ (∀ id, questions db' !! id
           = if decide (id ∈ dels.*1) then None else questions db !! id)
  ∧ (∀ k : string * N * N,
       answers db' !! k
       = if decide (k.2 ∈ dels.*1) then None else answers db !! k).
Proof.
  revert db. induction dels as [|[id0 q0] dels IH]; intros db; simpl.
  { split_and!; try done;
      intros; by rewrite decide_False by apply not_elem_of_nil. }
  destruct (IH (delete_question id0 db)) as (Hu & He & Hr & Hq & Ha).
  split_and!; try done.
  - intros id. rewrite Hq. cbn [fmap list_fmap fst].
    change (list_fmap _ _ fst dels) with (dels.*1).
    unfold delete_question, with_answers, with_questions. cbn [questions].
    repeat case_decide; try done.
    + exfalso. apply H0. by apply list_elem_of_further.
    + apply elem_of_cons in H0 as [->|?]; [apply lookup_delete_eq|done].
    + apply lookup_delete_ne. intros ->. apply H0. apply list_elem_of_here.
  - intros k. rewrite Ha. cbn [fmap list_fmap fst].
    change (list_fmap _ _ fst dels) with (dels.*1).
    unfold delete_question, with_answers, with_questions. cbn [answers].
    repeat case_decide; try done.
    + exfalso. apply H0. by apply list_elem_of_further.
    + apply elem_of_cons in H0 as [Heq|?]; [|done].
      apply map_lookup_filter_None. right. intros text _ Hk. by apply Hk.
    + destruct (answers db !! k) as [text|] eqn:Hrow.
      * apply map_lookup_filter_Some. split; [done|]. simpl. intros Heq.
        apply H0. rewrite Heq. apply list_elem_of_here.
      * apply map_lookup_filter_None. by left.
Qed.

(** [_save_event_questions], by its two loops. *)
Lemma save_event_questions_unfold event_id entries next_id db :
  _save_event_questions event_id entries next_id db
  = (foldl (λ db question, delete_question question.1 db)
       (with_questions
          (save_entries event_id (event_questions db event_id) 0 entries next_id
                        (questions db)).1 db)
       (drop (length entries) (event_questions db event_id)),
     (save_entries event_id (event_questions db event_id) 0 entries next_id
                   (questions db)).2).
Proof.
  unfold _save_event_questions.
  destruct (save_entries _ _ _ _ _ _) as [table next]. simpl.
  case_bool_decide as Hlen; [done|].
  by rewrite drop_ge by lia.
Qed.

(** The rows of the table after [_save_event_questions]. *)
Lemma save_event_questions_rows event_id entries next_id db :
  unused_from next_id (questions db) →
  let existing := event_questions db event_id in
  let r := _save_event_questions event_id entries next_id db in
  r.2 = (next_id + N.of_nat (length entries - length existing))%N
  ∧ (∀ i entry, entries !! i = Some entry →
       questions r.1 !! slot_id existing next_id i
       = Some (mkQuestion event_id (entry_text entry) (entry_required entry)
                          (N.of_nat i)))
  ∧ (∀ id, id ∈ (drop (length entries) existing).*1 → questions r.1 !! id = None)
  ∧ (∀ id, (∀ i, (i < length entries)%nat → slot_id existing next_id i ≠ id) →
           id ∉ (drop (length entries) existing).*1 →
           questions r.1 !! id = questions db !! id)
  ∧ users r.1 = users db ∧ events r.1 = events db ∧ rsvps r.1 = rsvps db
  ∧ (∀ k : string * N * N,
       answers r.1 !! k
       = if decide (k.2 ∈ (drop (length entries) existing).*1) then None
         else answers db !! k).
Proof.
  intros Hunused existing r.
  pose proof (NoDup_event_questions db event_id) as Hnodup. fold existing in Hnodup.
  assert (∀ i id q, existing !! i = Some (id, q) →
                    questions db !! id = Some q ∧ question_event q = event_id)
    as Hexisting.
  { intros i id q Hi. apply elem_of_event_questions.
    by apply list_elem_of_lookup_2 in Hi. }
  assert (∀ i question, existing !! i = Some question → (question.1 < next_id)%N)
    as Hfresh.
  { intros i [id q] Hi. apply Hunused. simpl.
    by destruct (Hexisting i id q Hi) as [-> _]. }
  destruct (save_entries_spec event_id existing next_id entries Hnodup Hfresh
              0%nat (questions db)) as (Hnext & Hslots & Hrest).
  { intros p id q _. apply Hexisting. }
  simpl in Hnext, Hslots, Hrest. rewrite N.add_0_r in Hnext, Hslots, Hrest.
  unfold r. rewrite save_event_questions_unfold. fold existing.
  destruct (delete_questions_spec (drop (length entries) existing)
              (with_questions
                 (save_entries event_id existing 0 entries next_id (questions db)).1
                 db))
    as (Hu & He & Hr & Hq & Ha).
  cbn [fst snd]. split_and!; try done.
  - intros i entry Hentry. rewrite Hq, decide_False; [by apply Hslots|].
    intros Hin. apply list_elem_of_fmap in Hin as ([id q] & Hid & Hin).
    apply list_elem_of_lookup in Hin as [j Hj]. rewrite lookup_drop in Hj.
    simpl in Hid.
    assert (length entries + j = i)%nat as Hij.
    { apply (slot_id_inj existing next_id _ _ Hnodup Hfresh).
      by rewrite (slot_id_existing _ _ _ _ _ Hj). }
    apply lookup_lt_Some in Hentry. lia.
  - intros id Hin. by rewrite Hq, decide_True.
  - intros id Hnot Hkept. rewrite Hq, decide_False by done. by apply Hrest.
Qed.

(** Two sorted lists of questions with the same rows are the same list. *)
Lemma sorted_questions_unique (l1 l2 : list (N * EventQuestion)) :
  StronglySorted question_le l1 → StronglySorted question_le l2 →
  NoDup l1 → NoDup l2 →
  (∀ x, x ∈ l1 ↔ x ∈ l2) →
  (∀ id q1 q2, (id, q1) ∈ l1 → (id, q2) ∈ l1 → q1 = q2) →
  l1 = l2.
Proof.
  intros Hs1 Hs2 Hn1 Hn2 Hiff Hfun.
  apply (StronglySorted_unique_strong question_le); [|done|done|].
  - intros [id1 q1] [id2 q2] H1 H2 R1 R2. unfold question_le in R1, R2.
    simpl in R1, R2. assert (id1 = id2) as -> by lia.
    f_equal. apply (Hfun id2); [done|by apply Hiff].
  - by apply NoDup_Permutation.
Qed.

Lemma NoDup_event_questions_rows db event_id : NoDup (event_questions db event_id).
Proof.
  unfold event_questions. rewrite merge_sort_Permutation.
  apply NoDup_filter, NoDup_map_to_list.
Qed.

(** The questions of an event are determined by the rows that point to it. *)
Lemma event_questions_ext db db' event_id :
  (∀ id q, question_event q = event_id →
           questions db' !! id = Some q ↔ questions db !! id = Some q) →
  event_questions db' event_id = event_questions db event_id.
Proof.
  intros Hrows. apply sorted_questions_unique.
  - apply StronglySorted_event_questions.
  - apply StronglySorted_event_questions.
  - apply NoDup_event_questions_rows.
  - apply NoDup_event_questions_rows.
  - intros [id q]. rewrite !elem_of_event_questions.
    split; intros [Hrow Hevent]; (split; [by apply (Hrows id q Hevent)|done]).
  - intros id q1 q2. apply event_questions_functional.
Qed.

(** An id is that of one of the first [n] positions, or of none of them. *)
Lemma slot_cases (existing : list (N * EventQuestion)) next_id (n : nat) id :
  (∃ i, (i < n)%nat ∧ slot_id existing next_id i = id)
  ∨ (∀ i, (i < n)%nat → slot_id existing next_id i ≠ id).
Proof.
  destruct (decide (id ∈ slot_id existing next_id <$> seq 0 n)) as [Hin|Hout].
  - left. apply list_elem_of_fmap in Hin as (i & -> & Hi).
    apply elem_of_seq in Hi. exists i. split; [lia|done].
  - right. intros i Hi Heq. apply Hout.
    apply list_elem_of_fmap. exists i. split; [done|].
    apply elem_of_seq. lia.
Qed.

(** The questions of the event after [_save_event_questions]. *)
Lemma save_event_questions_list event_id entries next_id db :
  unused_from next_id (questions db) →
  let existing := event_questions db event_id in
  let r := _save_event_questions event_id entries next_id db in
  event_questions r.1 event_id
  = imap (λ order entry,
            (slot_id existing next_id order,
             mkQuestion event_id (entry_text entry) (entry_required entry)
                        (N.of_nat order))) entries.
Proof.
  intros Hunused existing r.
  destruct (save_event_questions_rows event_id entries next_id db Hunused)
    as (Hnext & Hslots & Hgone & Hrest & _).
  fold existing in Hnext, Hslots, Hgone, Hrest. fold r in Hnext, Hslots, Hgone, Hrest.
  pose proof (NoDup_event_questions db event_id) as Hnodup. fold existing in Hnodup.
  assert (∀ i id q, existing !! i = Some (id, q) →
                    questions db !! id = Some q ∧ question_event q = event_id)
    as Hexisting.
  { intros i id q Hi. apply elem_of_event_questions.
    by apply list_elem_of_lookup_2 in Hi. }
  assert (∀ i question, existing !! i = Some question → (question.1 < next_id)%N)
    as Hfresh.
  { intros i [id q] Hi. apply Hunused. simpl.
    by destruct (Hexisting i id q Hi) as [-> _]. }
  set (row := λ (order : nat) (entry : Entry),
                (slot_id existing next_id order,
                 mkQuestion event_id (entry_text entry) (entry_required entry)
                            (N.of_nat order))).
  apply sorted_questions_unique.
    - apply StronglySorted_event_questions.
    - apply StronglySorted_lookup. intros i j x y Hij Hi Hj.
      apply list_lookup_imap_Some in Hi as (ei & _ & ->).
      apply list_lookup_imap_Some in Hj as (ej & _ & ->).
      unfold question_le, row. simpl. lia.
    - apply NoDup_event_questions_rows.
    - apply NoDup_alt. intros i j x Hi Hj.
      apply list_lookup_imap_Some in Hi as (ei & _ & ->).
      apply list_lookup_imap_Some in Hj as (ej & _ & Heq).
      unfold row in Heq. injection Heq as Heq _.
      by apply (slot_id_inj existing next_id i j Hnodup Hfresh).
    - intros [id q]. rewrite elem_of_event_questions, elem_of_lookup_imap. split.
      + intros [Hrow Hevent].
        destruct (slot_cases existing next_id (length entries) id)
          as [(i & Hi & <-)|Hnone].
        * destruct (lookup_lt_is_Some_2 entries i Hi) as [entry Hentry].
          exists i, entry. split; [|done].
          rewrite (Hslots i entry Hentry) in Hrow. by injection Hrow as <-.
        * destruct (decide (id ∈ (drop (length entries) existing).*1))
            as [Hdel|Hkept].
          { by rewrite (Hgone id Hdel) in Hrow. }
          rewrite (Hrest id Hnone Hkept) in Hrow. exfalso.
          assert ((id, q) ∈ existing) as Hin by (by apply elem_of_event_questions).
          apply list_elem_of_lookup in Hin as [p Hp].
          destruct (decide (p < length entries)%nat) as [Hlt|Hge].
          -- apply (Hnone p Hlt). by apply (slot_id_existing _ _ _ _ _ Hp).
          -- apply Hkept. apply list_elem_of_fmap. exists (id, q).
             split; [done|]. apply list_elem_of_lookup.
             exists (p - length entries)%nat. rewrite lookup_drop.
             by replace (length entries + (p - length entries))%nat with p by lia.
      + intros (i & entry & Heq & Hentry). unfold row in Heq.
        injection Heq as -> ->. by rewrite (Hslots i entry Hentry).
    - intros id q1 q2. apply event_questions_functional.
Qed.

(** X24.  What is saved is what is read back: after
    [_save_event_questions] the questions of the event, in their order, are
    the entries, in theirs, numbered from 0; the entry at a position that had
    a question keeps the row (the id) of that question, and the others get
    new rows; and the ids beyond the sequence are still unused. *)
Theorem saved_questions_are_the_entries event_id entries next_id db :
  unused_from next_id (questions db) →
  let existing := event_questions db event_id in
  let r := _save_event_questions event_id entries next_id db in
  event_questions r.1 event_id
  = imap (λ order entry,
            (slot_id existing next_id order,
             mkQuestion event_id (entry_text entry) (entry_required entry)
                        (N.of_nat order))) entries
  ∧ (λ q : N * EventQuestion, mkEntry (question_text q.2) (is_required q.2))
      <$> event_questions r.1 event_id = entries
  ∧ (∀ order id question,
       (order < length entries)%nat → existing !! order = Some (id, question) →
       (event_questions r.1 event_id).*1 !! order = Some id)
  ∧ r.2 = (next_id + N.of_nat (length entries - length existing))%N
  ∧ unused_from r.2 (questions r.1).
Proof.
  intros Hunused existing r.
  destruct (save_event_questions_rows event_id entries next_id db Hunused)
    as (Hnext & Hslots & Hgone & Hrest & _).
  fold existing in Hnext, Hslots, Hgone, Hrest. fold r in Hnext, Hslots, Hgone, Hrest.
  pose proof (save_event_questions_list event_id entries next_id db Hunused)
    as Hlist.
  fold existing in Hlist. fold r in Hlist.
  assert (∀ i question, existing !! i = Some question → (question.1 < next_id)%N)
    as Hfresh.
  { intros i [id q] Hi. apply Hunused. simpl.
    apply list_elem_of_lookup_2, elem_of_event_questions in Hi as [-> _]. done. }
  split_and!; try done.
  - rewrite Hlist, fmap_imap. simpl.
    apply list_eq. intros i. rewrite list_lookup_imap.
    destruct (entries !! i) as [[text required]|]; done.
  - intros order id question Horder Hslot.
    rewrite Hlist, list_lookup_fmap, list_lookup_imap.
    destruct (lookup_lt_is_Some_2 entries order Horder) as [entry ->]. simpl.
    by rewrite (slot_id_existing _ _ _ _ _ Hslot).
  - intros id [q Hrow]. rewrite Hnext.
    destruct (slot_cases existing next_id (length entries) id)
      as [(i & Hi & <-)|Hnone].
    + unfold slot_id. destruct (existing !! i) as [question|] eqn:Hq.
      * specialize (Hfresh i question Hq). lia.
      * apply lookup_ge_None in Hq. lia.
    + destruct (decide (id ∈ (drop (length entries) existing).*1)) as [Hdel|Hkept].
      { by rewrite (Hgone id Hdel) in Hrow. }
      rewrite (Hrest id Hnone Hkept) in Hrow.
      specialize (Hunused id (mk_is_Some _ _ Hrow)). lia.
Qed.

Lemma saved_questions_are_the_entries_witness :
  let db := Samples.db_party None Samples.both_questions ∅ ∅ in
  let entries := [mkEntry "Allergies?" true] in
  let existing := event_questions db 7 in
  let r := _save_event_questions 7 entries 3 db in
  event_questions r.1 7
  = imap (λ order entry,
            (slot_id existing 3 order,
             mkQuestion 7 (entry_text entry) (entry_required entry)
                        (N.of_nat order))) entries
  ∧ (λ q : N * EventQuestion, mkEntry (question_text q.2) (is_required q.2))
      <$> event_questions r.1 7 = entries
  ∧ (∀ order id question,
       (order < length entries)%nat → existing !! order = Some (id, question) →
       (event_questions r.1 7).*1 !! order = Some id)
  ∧ r.2 = (3 + N.of_nat (length entries - length existing))%N
  ∧ unused_from r.2 (questions r.1).
Proof.
  refine (saved_questions_are_the_entries 7%N [mkEntry "Allergies?" true] 3%N
            (Samples.db_party None Samples.both_questions ∅ ∅) _).
  intros id [q Hq]. revert Hq. simpl. unfold Samples.both_questions.
  rewrite lookup_insert_Some, lookup_singleton_Some.
  intros [[<- _]|[_ [<- _]]]; lia.
Defined.

(** X25.  [_save_event_questions] writes nothing else: users, events and
    RSVPs are as before, and so are the questions of every other event.  An
    answer is deleted exactly when its question was at a position beyond the
    entries; the answers to a question at an earlier position stay, attached
    to the row that now holds the entry of that position, whatever its
    text. *)
Theorem saving_questions_keeps_the_rest event_id entries next_id db :
  unused_from next_id (questions db) →
  let existing := event_questions db event_id in
  let r := _save_event_questions event_id entries next_id db in
  users r.1 = users db ∧ events r.1 = events db ∧ rsvps r.1 = rsvps db
  ∧ (∀ other, other ≠ event_id →
              event_questions r.1 other = event_questions db other)
  ∧ (∀ k : string * N * N,
       answers r.1 !! k
       = if decide (k.2 ∈ (drop (length entries) existing).*1) then None
         else answers db !! k)
  ∧ (∀ order id question entry (rsvp : string * N),
       existing !! order = Some (id, question) →
       entries !! order = Some entry →
       questions r.1 !! id
       = Some (mkQuestion event_id (entry_text entry) (entry_required entry)
                          (N.of_nat order))
       ∧ answers r.1 !! (rsvp, id) = answers db !! (rsvp, id)).
Proof.
  intros Hunused existing r.
  destruct (save_event_questions_rows event_id entries next_id db Hunused)
    as (Hnext & Hslots & Hgone & Hrest & Hu & He & Hr & Ha).
  fold existing in Hnext, Hslots, Hgone, Hrest, Ha.
  fold r in Hnext, Hslots, Hgone, Hrest, Hu, He, Hr, Ha.
  pose proof (NoDup_event_questions db event_id) as Hnodup. fold existing in Hnodup.
  assert (∀ i id q, existing !! i = Some (id, q) →
                    questions db !! id = Some q ∧ question_event q = event_id)
    as Hexisting.
  { intros i id q Hi. apply elem_of_event_questions.
    by apply list_elem_of_lookup_2 in Hi. }
  assert (∀ i question, existing !! i = Some question → (question.1 < next_id)%N)
    as Hfresh.
  { intros i [id q] Hi. apply Hunused. simpl.
    by destruct (Hexisting i id q Hi) as [-> _]. }
  split_and!; try done.
  - intros other Hother. apply event_questions_ext. intros id q Hevent.
    destruct (slot_cases existing next_id (length entries) id)
      as [(i & Hi & <-)|Hnone].
    + destruct (lookup_lt_is_Some_2 entries i Hi) as [entry Hentry].
      rewrite (Hslots i entry Hentry). split.
      * intros [= <-]. simpl in Hevent. congruence.
      * intros Hrow. exfalso. unfold slot_id in Hrow.
        destruct (existing !! i) as [[id0 q0]|] eqn:Hq.
        -- destruct (Hexisting i id0 q0 Hq) as [Hrow0 Hev0]. simpl in Hrow.
           congruence.
        -- specialize (Hunused _ (mk_is_Some _ _ Hrow)). lia.
    + destruct (decide (id ∈ (drop (length entries) existing).*1)) as [Hdel|Hkept].
      * rewrite (Hgone id Hdel). split; [done|]. intros Hrow. exfalso.
        apply list_elem_of_fmap in Hdel as ([id0 q0] & -> & Hin).
        apply list_elem_of_lookup in Hin as [j Hj]. rewrite lookup_drop in Hj.
        destruct (Hexisting _ id0 q0 Hj) as [Hrow0 Hev0]. simpl in Hrow.
        congruence.
      * by rewrite (Hrest id Hnone Hkept).
  - intros order id question entry rsvp Hslot Hentry. split.
    + rewrite <- (slot_id_existing existing next_id order id question Hslot).
      by apply Hslots.
    + rewrite Ha. simpl. rewrite decide_False; [done|].
      intros Hdel.
      apply list_elem_of_fmap in Hdel as ([id0 q0] & Hid & Hin). simpl in Hid.
      subst id0.
      apply list_elem_of_lookup in Hin as [j Hj]. rewrite lookup_drop in Hj.
      assert (length entries + j = order)%nat as Heq.
      { apply (slot_id_inj existing next_id _ _ Hnodup Hfresh).
        by rewrite (slot_id_existing _ _ _ _ _ Hj),
             (slot_id_existing _ _ _ _ _ Hslot). }
      apply lookup_lt_Some in Hentry. lia.
Qed.

Lemma saving_questions_keeps_the_rest_witness :
  let db := Samples.db_party None Samples.both_questions ∅
              {[(Samples.bob, 7%N, 1%N) := "black tie";
                (Samples.bob, 7%N, 2%N) := "none"]} in
  let entries := [mkEntry "Allergies?" true] in
  let existing := event_questions db 7 in
  let r := _save_event_questions 7 entries 3 db in
  users r.1 = users db ∧ events r.1 = events db ∧ rsvps r.1 = rsvps db
  ∧ (∀ other, other ≠ 7%N →
              event_questions r.1 other = event_questions db other)
  ∧ (∀ k : string * N * N,
       answers r.1 !! k
       = if decide (k.2 ∈ (drop (length entries) existing).*1) then None
         else answers db !! k)
  ∧ (∀ order id question entry (rsvp : string * N),
       existing !! order = Some (id, question) →
       entries !! order = Some entry →
       questions r.1 !! id
       = Some (mkQuestion 7 (entry_text entry) (entry_required entry)
                          (N.of_nat order))
       ∧ answers r.1 !! (rsvp, id) = answers db !! (rsvp, id)).
Proof.
  refine (saving_questions_keeps_the_rest 7%N [mkEntry "Allergies?" true] 3%N
            (Samples.db_party None Samples.both_questions ∅
               {[(Samples.bob, 7%N, 1%N) := "black tie";
                 (Samples.bob, 7%N, 2%N) := "none"]}) _).
  intros id [q Hq]. revert Hq. simpl. unfold Samples.both_questions.
  rewrite lookup_insert_Some, lookup_singleton_Some.
  intros [[<- _]|[_ [<- _]]]; lia.
Defined.

(** The scenario of the two witnesses: the event asks "Dress code?" and
    "Allergies?"; the form keeps only "Allergies?", now required.  The row of
    "Dress code?" takes the new text, with the answer that was given to
    "Dress code?", and the row of "Allergies?" goes, with its answer. *)
Example questionnaire_shrinks :
  let db := Samples.db_party None Samples.both_questions ∅
              {[(Samples.bob, 7%N, 1%N) := "black tie";
                (Samples.bob, 7%N, 2%N) := "none"]} in
  let r := _save_event_questions 7 [mkEntry "Allergies?" true] 3 db in
  event_questions r.1 7 = [(1%N, mkQuestion 7 "Allergies?" true 0)]
  ∧ answers r.1 !! (Samples.bob, 7%N, 1%N) = Some "black tie"
  ∧ answers r.1 !! (Samples.bob, 7%N, 2%N) = None.
Proof. split_and!; vm_compute; reflexivity. Qed.

Lemma length_omap_le {A B} (f : A → option B) (l : list A) :
  (length (omap f l) ≤ length l)%nat.
Proof.
  induction l as [|x l IH]; [done|]. simpl.
  change (list_omap A B f l) with (omap f l).
  destruct (f x); simpl; lia.
Qed.

(** X26.  What the form of an event saves: [_extract_question_entries]
    followed by [_save_event_questions] leaves the event with at most five
    questions, none with an empty text; each of them is a row of the form with
    its text stripped of surrounding white space, required exactly if its box
    was "on"; and each row of the form whose text is not blank is one of
    them. *)
Theorem form_saves_its_filled_rows post_data event_id next_id db :
  unused_from next_id (questions db) →
  let r := _save_event_questions event_id (_extract_question_entries post_data)
             next_id db in
  let text index := Py.strip (default "" (post_data !! question_text_field index)) in
  let required index :=
    bool_decide (post_data !! question_required_field index = Some "on") in
  (length (event_questions r.1 event_id) ≤ QUESTION_SLOTS)%nat
  ∧ (∀ id q, (id, q) ∈ event_questions r.1 event_id →
       question_text q ≠ ""
       ∧ ∃ index, (1 ≤ index ≤ QUESTION_SLOTS)%nat
                  ∧ question_text q = text index
                  ∧ is_required q = required index)
  ∧ (∀ index, (1 ≤ index ≤ QUESTION_SLOTS)%nat → text index ≠ "" →
       ∃ id q, (id, q) ∈ event_questions r.1 event_id
               ∧ question_text q = text index
               ∧ is_required q = required index).
Proof.
  intros Hunused r text required.
  pose proof (save_event_questions_list event_id
                (_extract_question_entries post_data) next_id db Hunused) as Hlist.
  fold r in Hlist. cbv zeta in Hlist. rewrite Hlist.
  assert (∀ entry, entry ∈ _extract_question_entries post_data
                   ↔ ∃ index, (1 ≤ index ≤ QUESTION_SLOTS)%nat
                              ∧ text index ≠ ""
                              ∧ entry = mkEntry (text index) (required index))
    as Hentries.
  { intros entry. unfold _extract_question_entries.
    rewrite list_elem_of_omap. split.
    - intros (index & Hindex & Hentry). apply elem_of_seq in Hindex.
      fold (text index) in Hentry. fold (required index) in Hentry.
      exists index. destruct (text index) eqn:Htext; [done|].
      injection Hentry as <-. split_and!; [lia..|done|done].
    - intros (index & Hindex & Htext & ->). exists index.
      split; [apply elem_of_seq; lia|].
      fold (text index). fold (required index).
      by destruct (text index). }
  split_and!.
  - rewrite length_imap. unfold _extract_question_entries.
    etransitivity; [apply length_omap_le|]. by rewrite length_seq.
  - intros id q Hin.
    apply elem_of_lookup_imap in Hin as (order & entry & Heq & Hentry).
    injection Heq as -> ->. simpl.
    apply list_elem_of_lookup_2, Hentries in Hentry
      as (index & Hindex & Htext & ->).
    split; [done|]. by exists index.
  - intros index Hindex Htext.
    assert (mkEntry (text index) (required index)
            ∈ _extract_question_entries post_data) as Hin
      by (apply Hentries; by exists index).
    apply list_elem_of_lookup in Hin as [order Horder].
    exists (slot_id (event_questions db event_id) next_id order),
           (mkQuestion event_id (text index) (required index) (N.of_nat order)).
    split; [|done].
    apply elem_of_lookup_imap.
    by exists order, (mkEntry (text index) (required index)).
Qed.

Lemma form_saves_its_filled_rows_witness :
  let post_data : gmap string string :=
    {["question_text_1" := "  "; "question_text_2" := " Allergies? ";
      "question_required_2" := "on"]} in
  let r := _save_event_questions 7 (_extract_question_entries post_data) 3
             (Samples.db_party None Samples.both_questions ∅ ∅) in
  let text index := Py.strip (default "" (post_data !! question_text_field index)) in
  let required index :=
    bool_decide (post_data !! question_required_field index = Some "on") in
  (length (event_questions r.1 7) ≤ QUESTION_SLOTS)%nat
  ∧ (∀ id q, (id, q) ∈ event_questions r.1 7 →
       question_text q ≠ ""
       ∧ ∃ index, (1 ≤ index ≤ QUESTION_SLOTS)%nat
                  ∧ question_text q = text index
                  ∧ is_required q = required index)
  ∧ (∀ index, (1 ≤ index ≤ QUESTION_SLOTS)%nat → text index ≠ "" →
       ∃ id q, (id, q) ∈ event_questions r.1 7
               ∧ question_text q = text index
               ∧ is_required q = required index).
Proof.
  refine (form_saves_its_filled_rows
            {["question_text_1" := "  "; "question_text_2" := " Allergies? ";
              "question_required_2" := "on"]} 7%N 3%N
            (Samples.db_party None Samples.both_questions ∅ ∅) _).
  intros id [q Hq]. revert Hq. simpl. unfold Samples.both_questions.
  rewrite lookup_insert_Some, lookup_singleton_Some.
  intros [[<- _]|[_ [<- _]]]; lia.
Defined.

End Questionnaire.


(** ** Deleting an event *)

Section DeleteEvent.
Import Models Views.

(** X27.  Only the creator deletes an event, by a POST: any other request,
    that of a co-organizer included, leaves every table as it was.  The
    creator's POST deletes the event, active or not, and with it exactly what
    hangs on it: afterwards the event has no row, no question, no RSVP and no
    answer; the users, the other events and their questions and RSVPs are as
    before, and so is every answer of an RSVP to another event to a question
    that is not of the deleted event. *)
Theorem delete_event_removes_what_hangs_on_it req event_id db :
  let r := delete_event req event_id db in
  queued_sms r = []
  ∧ (result_db r = db
     ∨ ∃ event,
         method req = "POST"
         ∧ events db !! event_id = Some event
         ∧ logged_in req = Some (created_by event)
         ∧ is_Some (users db !! created_by event)
         ∧ users (result_db r) = users db
         ∧ events (result_db r) = delete event_id (events db)
         ∧ event_questions (result_db r) event_id = []
         ∧ (∀ status, rsvps_with_status (result_db r) event_id status = [])
         ∧ (∀ (k : string * N * N) q,
              is_Some (answers (result_db r) !! k) →
              k.1.2 ≠ event_id
              ∧ (questions db !! k.2 = Some q → question_event q ≠ event_id))
         ∧ (∀ id q, question_event q ≠ event_id →
                    questions (result_db r) !! id = Some q
                    ↔ questions db !! id = Some q)
         ∧ (∀ k : string * N, k.2 ≠ event_id →
                    rsvps (result_db r) !! k = rsvps db !! k)
         ∧ (∀ k : string * N * N,
              k.1.2 ≠ event_id →
              question_event <$> questions db !! k.2 ≠ Some event_id →
              answers (result_db r) !! k = answers db !! k)).
Proof.
  intros r. split.
  { unfold r, delete_event. repeat case_match; done. }
  unfold r, delete_event.
  case_bool_decide as Hpost; simpl; [|by left].
  destruct (logged_in req) as [user_phone|] eqn:Hlogin; [|by left].
  destruct (events db !! event_id) as [event|] eqn:Hevent; [|by left].
  destruct (users db !! user_phone) as [user|] eqn:Huser; [|by left].
  case_bool_decide as Hcreator; simpl; [|by left].
  right. exists event. subst user_phone.
  split_and!; try done.
  - apply elem_of_nil_inv. intros [id q] Hin.
    apply elem_of_event_questions in Hin as [Hrow Hev]. simpl in Hrow.
    apply map_lookup_filter_Some in Hrow as [_ Hne]. done.
  - intros status. apply elem_of_nil_inv. intros user_phone Hin.
    apply elem_of_rsvps_with_status in Hin. simpl in Hin.
    apply map_lookup_filter_Some in Hin as [_ Hne]. done.
  - intros k q [text Hrow]. simpl in Hrow.
    apply map_lookup_filter_Some in Hrow as [_ [Hrsvp Hquestion]].
    simpl in Hrsvp, Hquestion. split; [done|].
    intros Hq Hev. apply Hquestion. by rewrite Hq, <- Hev.
  - intros id q Hev. simpl. rewrite map_lookup_filter_Some. simpl. tauto.
  - intros k Hk. simpl.
    destruct (rsvps db !! k) as [status|] eqn:Hrow.
    + by apply map_lookup_filter_Some.
    + apply map_lookup_filter_None. by left.
  - intros k Hrsvp Hquestion. simpl.
    destruct (answers db !! k) as [text|] eqn:Hrow.
    + by apply map_lookup_filter_Some.
    + apply map_lookup_filter_None. by left.
Qed.

End DeleteEvent.


(** ** Text blasts *)

Section TextBlasts.
Import Models Views.

Lemma elem_of_blast_recipients db event_id send_to user_phone :
  user_phone ∈ blast_recipients db event_id send_to
  ↔ ∃ status, rsvps db !! (user_phone, event_id) = Some status
              ∧ status ∈ blast_statuses send_to.
Proof.
  unfold blast_recipients. split.
  - intros Hin.
    apply list_elem_of_fmap in Hin as (k & -> & Hin).
    apply list_elem_of_fmap in Hin as ([[u e] st] & -> & Hkv).
    apply elem_of_map_to_list in Hkv.
    apply map_lookup_filter_Some in Hkv as [Hrow [He Hst]]. simpl in *.
    subst e. by exists st.
  - intros (status & Hrow & Hst).
    apply (list_elem_of_fmap_2' _ _ (user_phone, event_id)); [|done].
    apply (list_elem_of_fmap_2' _ _ (user_phone, event_id, status)); [|done].
    apply elem_of_map_to_list. by apply map_lookup_filter_Some.
Qed.

Lemma NoDup_blast_recipients db event_id send_to :
  NoDup (blast_recipients db event_id send_to).
Proof.
  unfold blast_recipients.
  apply NoDup_fmap_2_strong; [|apply NoDup_fst_map_to_list].
  intros [u1 e1] [u2 e2] H1 H2 Heq. simpl in Heq. subst u2.
  apply list_elem_of_fmap in H1 as ([k1 v1] & E1 & H1).
  apply list_elem_of_fmap in H2 as ([k2 v2] & E2 & H2).
  simpl in *. subst k1 k2.
  apply elem_of_map_to_list, map_lookup_filter_Some in H1 as [_ [He1 _]].
  apply elem_of_map_to_list, map_lookup_filter_Some in H2 as [_ [He2 _]].
  simpl in *. by subst.
Qed.

(** The two ways [send_text_blast] can end. *)
Lemma send_text_blast_cases env req event_id db blasts :
  let r := send_text_blast env req event_id db blasts in
  (blast_state r = blasts ∧ bulk_sms r = None
   ∧ ∀ text, blast_flashed r ≠ [MsgSuccess text])
  ∨ ∃ user_phone event,
      method req = "POST"
      ∧ logged_in req = Some user_phone
      ∧ get_active_event db event_id = Some event
      ∧ is_organizer event user_phone = true
      ∧ (blast_count blasts event_id < 20)%N
      ∧ Py.strip (default "" (POST req !! "message")) ≠ ""
      ∧ blast_recipients db event_id (default "attending" (POST req !! "send_to")) ≠ []
      ∧ blast_state r
        = mkBlasts
            (<[event_id := (blast_count blasts event_id + 1)%N]>
               (text_blast_count blasts))
            (mkTextBlast event_id user_phone
               (Py.strip (default "" (POST req !! "message")))
               (default "attending" (POST req !! "send_to"))
               (length (blast_recipients db event_id
                          (default "attending" (POST req !! "send_to"))))
               (bool_decide (POST req !! "display_on_page" = Some "on"))
             :: text_blasts blasts)
      ∧ bulk_sms r
        = Some (blast_recipients db event_id
                  (default "attending" (POST req !! "send_to")),
                "[" +:+ title event +:+ "] "
                +:+ Py.strip (default "" (POST req !! "message")) +:+ " "
                +:+ get_short_url (SITE_DOMAIN env) event).
Proof.
  unfold send_text_blast. cbv zeta.
  destruct (logged_in req) as [user_phone|] eqn:Hlogin; [|by left].
  destruct (get_active_event db event_id) as [event|] eqn:Hevent; [|by left].
  destruct (users db !! user_phone) as [user|] eqn:Huser; [|by left].
  destruct (is_organizer event user_phone) eqn:Horg; [|by left]. simpl.
  case_bool_decide as Hlimit; [by left|].
  case_bool_decide as Hpost; [|by left].
  destruct (Py.truthy (Py.strip _)) eqn:Htext; [|by left]. simpl.
  case_bool_decide as Hnone; [by left|].
  right. exists user_phone, event. simpl.
  split_and!; try done; [lia|].
  intros Hempty. by rewrite Hempty in Htext.
Qed.

(** X28.  A text blast goes out only for an organizer's POST with a message
    that is not blank, for an event that has had fewer than twenty: it is
    handed to [send_bulk_sms] once, with the title, the message and the short
    URL of the event, for the holders of an RSVP with a status that [send_to]
    selects ("attending" unless it is "maybe" or "both"), each of them once
    and nobody else; the blast is recorded with the number of these
    recipients, and the count of the event, and of no other, goes up by one.
    Any other request records and sends nothing. *)
Theorem text_blast_reaches_the_selected_rsvps env req event_id db blasts :
  let r := send_text_blast env req event_id db blasts in
  (blast_state r = blasts ∧ bulk_sms r = None)
  ∨ ∃ user_phone event recipients row,
      method req = "POST"
      ∧ logged_in req = Some user_phone
      ∧ get_active_event db event_id = Some event
      ∧ is_organizer event user_phone = true
      ∧ (blast_count blasts event_id < 20)%N
      ∧ bulk_sms r
        = Some (recipients,
                "[" +:+ title event +:+ "] "
                +:+ Py.strip (default "" (POST req !! "message")) +:+ " "
                +:+ get_short_url (SITE_DOMAIN env) event)
      ∧ Py.strip (default "" (POST req !! "message")) ≠ ""
      ∧ recipients ≠ [] ∧ NoDup recipients
      ∧ (∀ phone, phone ∈ recipients
                  ↔ ∃ status,
                      rsvps db !! (phone, event_id) = Some status
                      ∧ status ∈ blast_statuses
                                   (default "attending" (POST req !! "send_to")))
      ∧ text_blasts (blast_state r) = row :: text_blasts blasts
      ∧ blast_event row = event_id ∧ sent_by row = user_phone
      ∧ recipient_count row = length recipients
      ∧ blast_count (blast_state r) event_id = (blast_count blasts event_id + 1)%N
      ∧ (∀ other, other ≠ event_id →
                  blast_count (blast_state r) other = blast_count blasts other).
Proof.
  intros r.
  destruct (send_text_blast_cases env req event_id db blasts)
    as [(Hstate & Hsms & _)
       |(user_phone & event & Hpost & Hlogin & Hevent & Horg & Hlimit & Htext
         & Hsome & Hstate & Hsms)];
    [by left|right].
  fold r in Hstate, Hsms.
  exists user_phone, event. eexists. eexists.
  split_and!; try done.
  - apply NoDup_blast_recipients.
  - apply elem_of_blast_recipients.
  - by rewrite Hstate.
  - done.
  - done.
  - done.
  - rewrite Hstate. unfold blast_count. simpl. by rewrite lookup_insert_eq.
  - intros other Hother. rewrite Hstate. unfold blast_count. simpl.
    by rewrite lookup_insert_ne.
Qed.

(** One request keeps the counts those of the table, and within the limit. *)
Lemma send_text_blast_counted env req event_id db blasts :
  blasts_counted blasts →
  blasts_counted (blast_state (send_text_blast env req event_id db blasts)).
Proof.
  intros Hcounted.
  destruct (send_text_blast_cases env req event_id db blasts)
    as [(-> & _)
       |(user_phone & event & _ & _ & _ & _ & Hlimit & _ & _ & -> & _)];
    [done|].
  intros id. unfold blast_count, blasts_of. simpl.
  destruct (Hcounted id) as [Hcount Hle]. unfold blast_count, blasts_of in Hcount, Hle.
  destruct (decide (id = event_id)) as [->|Hne].
  - rewrite lookup_insert_eq. simpl.
    rewrite filter_cons_True by done. simpl.
    unfold blast_count in Hlimit. lia.
  - rewrite lookup_insert_ne by done.
    rewrite filter_cons_False by (simpl; congruence). done.
Qed.

(** X29.  The limit of twenty: through any sequence of requests to
    [send_text_blast], for whatever events and against whatever RSVPs, the
    count of every event stays the number of its recorded blasts, and never
    exceeds twenty; and a request for an event that has had twenty records
    and sends nothing. *)
Theorem text_blasts_never_exceed_twenty env
    (requests : list (Request * N * DB)) blasts :
  blasts_counted blasts →
  let final :=
    foldl (λ blasts (request : Request * N * DB),
             blast_state (send_text_blast env request.1.1 request.1.2
                                          request.2 blasts))
          blasts requests in
  blasts_counted final
  ∧ (∀ req event_id db,
       blast_count final event_id = 20%N →
       blast_state (send_text_blast env req event_id db final) = final
       ∧ bulk_sms (send_text_blast env req event_id db final) = None).
Proof.
  intros Hcounted final.
  assert (blasts_counted final) as Hfinal.
  { unfold final. clear final. revert blasts Hcounted.
    induction requests as [|[[req id] db] requests IH]; intros blasts Hcounted;
      simpl; [done|].
    apply IH. by apply send_text_blast_counted. }
  split; [done|].
  intros req event_id db Hfull.
  destruct (send_text_blast_cases env req event_id db final)
    as [(Hstate & Hsms & _)
       |(user_phone & event & _ & _ & _ & _ & Hlimit & _)]; [done|lia].
Qed.

Lemma text_blasts_never_exceed_twenty_witness :
  let requests :=
    [(Samples.post Samples.ada false [("message", "Doors at 7")], 7%N,
      Samples.db_party None ∅ Samples.bob_attends ∅)] in
  let final :=
    foldl (λ blasts (request : Request * N * DB),
             blast_state (send_text_blast Samples.view_env request.1.1
                                          request.1.2 request.2 blasts))
          (mkBlasts ∅ []) requests in
  blasts_counted final
  ∧ (∀ req event_id db,
       blast_count final event_id = 20%N →
       blast_state (send_text_blast Samples.view_env req event_id db final)
       = final
       ∧ bulk_sms (send_text_blast Samples.view_env req event_id db final)
         = None).
Proof.
  refine (text_blasts_never_exceed_twenty Samples.view_env
            [(Samples.post Samples.ada false [("message", "Doors at 7")], 7%N,
              Samples.db_party None ∅ Samples.bob_attends ∅)]
            (mkBlasts ∅ []) _).
  intros event_id. unfold blast_count, blasts_of. simpl.
  rewrite lookup_empty. simpl. split; [done|lia].
Defined.

End TextBlasts.


(** ** An RSVP made before logging in *)

Section RsvpAfterLogin.
Import Models Views.

Lemma list_filter_ext_in {A} (P1 P2 : A → Prop)
    `{!∀ x, Decision (P1 x), !∀ x, Decision (P2 x)} (l : list A) :
  (∀ x, x ∈ l → P1 x ↔ P2 x) → filter P1 l = filter P2 l.
Proof.
  induction l as [|x l IH]; intros Hl; [done|].
  rewrite !filter_cons.
  rewrite IH by (intros y Hy; apply Hl; by apply list_elem_of_further).
  pose proof (Hl x (list_elem_of_here _ _)) as Hx.
  destruct (decide (P1 x)), (decide (P2 x)); tauto.
Qed.

(** The replayed request answers no question. *)
Lemma replayed_request_unanswered req status db event_id :
  unanswered (replayed_request req status) db event_id
  = (λ q : N * EventQuestion, question_text q.2)
      <$> filter (λ q : N * EventQuestion, is_required q.2 = true)
                 (event_questions db event_id).
Proof.
  unfold unanswered, missing_questions. f_equal.
  apply list_filter_ext_in. intros [qid q] Hin. simpl.
  rewrite (collect_answers_lookup _ _ qid q Hin). simpl.
  rewrite (submitted_answer_missing (replayed_request req status) qid); [tauto|].
  left. simpl. apply lookup_singleton_ne. unfold question_field.
  by rewrite string_app_cons.
Qed.

Lemma replayed_request_no_required req status db event_id :
  unanswered (replayed_request req status) db event_id = []
  ↔ ∀ qid q, (qid, q) ∈ event_questions db event_id → is_required q = false.
Proof.
  rewrite replayed_request_unanswered. split.
  - intros Hnil qid q Hin. apply fmap_nil_inv in Hnil.
    destruct (is_required q) eqn:Hreq; [|done]. exfalso.
    apply (not_elem_of_nil (qid, q)). rewrite <- Hnil.
    by apply list_elem_of_filter.
  - intros Hnone.
    assert (filter (λ q : N * EventQuestion, is_required q.2 = true)
                   (event_questions db event_id) = []) as ->; [|done].
    apply elem_of_nil_inv. intros [qid q] Hin.
    apply list_elem_of_filter in Hin as [Hreq Hin]. simpl in Hreq.
    by rewrite (Hnone qid q Hin) in Hreq.
Qed.

Lemma rsvp_event_keeps_the_session_entry env req event_id db user_phone :
  logged_in req = Some user_phone →
  rsvp_after_login (rsvp_event env req event_id db) = None.
Proof.
  intros Hlogin. unfold rsvp_event, _rsvp_response. cbv zeta. rewrite Hlogin.
  repeat case_match; done.
Qed.

(** X30.  An RSVP made before logging in is taken up after it.  The POST of
    a visitor who is not logged in writes nothing and leaves the event and
    the status in the session.  When the visitor, logged in as a user who did
    not create the event, comes to the page of the event, the entry is taken
    out of the session.  For "attending" on an event that has questions the
    page asks for the questionnaire and nothing is stored.  Otherwise the
    page hands the status to [rsvp_event], without answers: the RSVP is
    accepted when the status is one of the three and [rsvp_event] would
    accept it from this user, which for "maybe" means that the event has no
    required question; and an accepted RSVP is stored with that status. *)
Theorem rsvp_is_replayed_after_login env req0 req1 event_id db db1 user_phone
    event user :
  method req0 = "POST" →
  logged_in req0 = None →
  logged_in req1 = Some user_phone →
  get_active_event db1 event_id = Some event →
  users db1 !! user_phone = Some user →
  created_by event ≠ user_phone →
  let status := requested_status req0 in
  let r0 := rsvp_event env req0 event_id db in
  let r1 := event_detail env req1 (rsvp_after_login r0) event_id db1 in
  result_db r0 = db
  ∧ rsvp_after_login r0 = Some (event_id, status)
  ∧ detail_rsvp_after_login r1 = None
  ∧ (status = "attending" → event_questions db1 event_id ≠ [] →
     result_db (detail r1) = db1
     ∧ detail_info r1 = ["Please answer the questionnaire to finish your RSVP."]
     ∧ flashed (detail r1) = [] ∧ queued_sms (detail r1) = [])
  ∧ (status ≠ "attending" ∨ event_questions db1 event_id = [] →
     detail r1 = rsvp_event env (replayed_request req1 status) event_id db1
     ∧ detail_info r1 = []
     ∧ (accepted (detail r1)
        ↔ valid_status status = true
          ∧ (allow_rsvp event = true
             ∨ (status = "not_attending"
                ∧ is_Some (rsvps db1 !! (user_phone, event_id))))
          ∧ (status = "maybe" →
             allow_maybe_rsvp event = true
             ∧ ∀ qid q, (qid, q) ∈ event_questions db1 event_id →
                        is_required q = false)
          ∧ (status = "attending" →
             is_full db1 event_id event = false
             ∨ rsvps db1 !! (user_phone, event_id) = Some "attending"))
     ∧ (accepted (detail r1) →
        rsvps (result_db (detail r1)) !! (user_phone, event_id) = Some status)).
Proof.
  intros Hpost Hanonymous Hlogin Hevent Huser Hguest status r0 r1.
  assert (r0 = mkResult db [MsgError "Please log in to RSVP."] []
                 (Some (event_id, status))
                 (if hx_request req0 then HxRedirect "phone_login"
                  else Redirect "phone_login" None)) as Hr0.
  { unfold r0, rsvp_event. cbv zeta.
    by rewrite (bool_decide_eq_true_2 _ Hpost), Hanonymous. }
  assert (logged_in (replayed_request req1 status) = Some user_phone) as Hlogin'
    by done.
  assert (requested_status (replayed_request req1 status) = status) as Hstatus.
  { unfold requested_status, replayed_request. simpl.
    by rewrite lookup_singleton_eq. }
  split; [by rewrite Hr0|]. split; [by rewrite Hr0|].
  unfold r1. rewrite Hr0. cbn [rsvp_after_login].
  unfold event_detail. rewrite Hevent.
  rewrite (bool_decide_eq_true_2 (event_id = event_id)) by done. cbv zeta.
  split_and!.
  - destruct (_ && _); [done|]. simpl.
    by apply (rsvp_event_keeps_the_session_entry _ _ _ _ user_phone).
  - intros Hattending Hquestions.
    rewrite (bool_decide_eq_true_2 _ Hattending).
    rewrite (bool_decide_eq_false_2 _ Hquestions). simpl.
    split_and!; try done.
    by apply (build_event_user_state_guest _ _ _ _ user_phone).
  - intros Hdirect.
    assert (bool_decide (status = "attending")
            && negb (bool_decide (event_questions db1 event_id = [])) = false)
      as ->.
    { apply andb_false_iff. destruct Hdirect as [Hother|Hnone].
      - left. by apply bool_decide_eq_false_2.
      - right. by rewrite (bool_decide_eq_true_2 _ Hnone). }
    cbn [detail detail_info].
    split; [done|]. split; [done|]. split.
    + rewrite (rsvp_event_accepted_iff env (replayed_request req1 status)
                 event_id db1 user_phone event user eq_refl Hlogin' Hevent
                 Huser Hguest).
      rewrite Hstatus.
      rewrite (replayed_request_no_required req1 status db1 event_id).
      split.
      * intros (Hvalid & Hopen & Hmaybe & Hanswered & Hroom).
        split_and!; try done.
        intros Hm. split; [by apply Hmaybe|].
        apply Hanswered. by rewrite Hm.
      * intros (Hvalid & Hopen & Hmaybe & Hroom).
        split_and!; try done.
        -- intros Hm. by apply Hmaybe.
        -- intros Hanswering.
           apply valid_status_iff in Hvalid as [Ha|[Hm|Hn]]; [|by apply Hmaybe|done].
           destruct Hdirect as [Hother|Hnone]; [done|].
           intros qid q Hin. rewrite Hnone in Hin. by apply elem_of_nil in Hin.
    + intros Hacc.
      destruct (rsvp_event_accepted_inv env (replayed_request req1 status)
                  event_id db1 user_phone Hlogin' Hacc) as [_ Hdb].
      rewrite Hdb, rsvps_store_rsvp, Hstatus. apply lookup_insert_eq.
Qed.

Lemma rsvp_is_replayed_after_login_witness :
  let env := Samples.view_env in
  let req0 := mkRequest "POST" None {["status" := "maybe"]} false in
  let req1 := mkRequest "GET" (Some Samples.cyd) ∅ false in
  let db := Samples.db_party None ∅ ∅ ∅ in
  let event := Samples.party None in
  let status := requested_status req0 in
  let r0 := rsvp_event env req0 7 db in
  let r1 := event_detail env req1 (rsvp_after_login r0) 7 db in
  result_db r0 = db
  ∧ rsvp_after_login r0 = Some (7%N, status)
  ∧ detail_rsvp_after_login r1 = None
  ∧ (status = "attending" → event_questions db 7 ≠ [] →
     result_db (detail r1) = db
     ∧ detail_info r1 = ["Please answer the questionnaire to finish your RSVP."]
     ∧ flashed (detail r1) = [] ∧ queued_sms (detail r1) = [])
  ∧ (status ≠ "attending" ∨ event_questions db 7 = [] →
     detail r1 = rsvp_event env (replayed_request req1 status) 7 db
     ∧ detail_info r1 = []
     ∧ (accepted (detail r1)
        ↔ valid_status status = true
          ∧ (allow_rsvp event = true
             ∨ (status = "not_attending"
                ∧ is_Some (rsvps db !! (Samples.cyd, 7%N))))
          ∧ (status = "maybe" →
             allow_maybe_rsvp event = true
             ∧ ∀ qid q, (qid, q) ∈ event_questions db 7 → is_required q = false)
          ∧ (status = "attending" →
             is_full db 7 event = false
             ∨ rsvps db !! (Samples.cyd, 7%N) = Some "attending"))
     ∧ (accepted (detail r1) →
        rsvps (result_db (detail r1)) !! (Samples.cyd, 7%N) = Some status)).
Proof.
  refine (rsvp_is_replayed_after_login Samples.view_env
            (mkRequest "POST" None {["status" := "maybe"]} false)
            (mkRequest "GET" (Some Samples.cyd) ∅ false) 7%N
            (Samples.db_party None ∅ ∅ ∅) (Samples.db_party None ∅ ∅ ∅)
            Samples.cyd (Samples.party None) (Samples.registered Samples.cyd)
            _ _ _ _ _ _).
  - reflexivity.
  - reflexivity.
  - reflexivity.
  - reflexivity.
  - vm_compute. reflexivity.
  - vm_compute. discriminate.
Defined.

End RsvpAfterLogin.
